(** * DreamHAL text rendering: simple_print.c and print.c

    A shallow embedding of the two print modules of DreamHAL:
    the standalone converters of simple_print.c ([int_to_string],
    [mantissa_to_string], [float_to_string], [append_string]) and the
    printf engine of print.c ([ksprintn], [kvprintf], [vsnprintf],
    [vsnrprintf]).

    Conventions of the embedding.
    - The target is the SH4 (little endian, 32-bit [int], [long], [size_t]
      and pointers, signed [char]).  A C integer is a [Z]; every place where
      the C arithmetic can leave the range of its type carries its
      wrap-around ([u32], [s32], ...), which is what the SH4 does.
    - A [char] array is a [list Z], one cell per byte.  A cell is read
      through [uchar] or [schar], so any [Z] stands for the byte it is
      congruent to modulo 256.
    - A C string is read from an array up to its first zero byte. *)

From Stdlib Require Import String Ascii ZArith List Bool Lia QArith Qabs.
Import ListNotations.
Local Open Scope Z_scope.

(** ** Characters and text *)

Definition chr (a : ascii) : Z := Z.of_N (N_of_ascii a).

Fixpoint str (s : string) : list Z :=
  match s with
  | EmptyString => []
  | String a s' => chr a :: str s'
  end.

(** ** Machine integers of the SH4 *)

Definition u32 (z : Z) : Z := z mod 4294967296.
Definition s32 (z : Z) : Z := (z + 2147483648) mod 4294967296 - 2147483648.
Definition u16 (z : Z) : Z := z mod 65536.
Definition s16 (z : Z) : Z := (z + 32768) mod 65536 - 32768.
Definition uchar (z : Z) : Z := z mod 256.
Definition schar (z : Z) : Z := (z + 128) mod 256 - 128.

Definition INT_MIN : Z := -2147483648.
Definition INT_MAX : Z := 2147483647.

(** ** Arrays *)

(** [out[i] = v]; a store outside the modelled array is dropped (the
    source assumes, and says, that the caller's buffer is large enough). *)
Fixpoint store (l : list Z) (i : nat) (v : Z) : list Z :=
  match l, i with
  | [], _ => []
  | _ :: t, O => v :: t
  | h :: t, S i' => h :: store t i' v
  end.

(** Consecutive stores of a text from cell [i] on. *)
Fixpoint stores (arr : list Z) (i : nat) (text : list Z) : list Z :=
  match text with
  | [] => arr
  | c :: text' => stores (store arr i c) (S i) text'
  end.

(** The text of the C string that starts at the head of an array. *)
Fixpoint cstring (l : list Z) : list Z :=
  match l with
  | [] => []
  | c :: t => if uchar c =? 0 then [] else c :: cstring t
  end.

(** ** simple_print.c *)

Module SimplePrint.

Section Converters.

(** The byte a read one past the end of a modelled array finds.  The
    realigning [memmove] of [int_to_string] copies one byte more than the
    string and its terminator; that byte lands behind the terminator of the
    result, and every statement below holds whatever it is. *)
Variable past_end : Z.

Definition load (l : list Z) (i : nat) : Z := nth i l past_end.

(** Modelled from the spec: [memmove] of memfuncs.c is not part of the
    sources at hand; the spec calls the realignment "a block move", so this
    is the standard one: [n] bytes of [src] from offset [s] are copied to
    [dst] from offset [d], the source being read as it was before the call
    (which covers the overlapping use). *)
Fixpoint memmove (dst : list Z) (d : nat) (src : list Z) (s n : nat) : list Z :=
  match n with
  | O => dst
  | S n' => memmove (store dst d (load src s)) (S d) src (S s) n'
  end.

Definition dec_hex_data : list Z := str "0123456789abcdef".

Definition dec_hex (idx : Z) : Z := nth (Z.to_nat idx) dec_hex_data 0.

(** [stringlength]: counts up to the first zero byte. *)
Fixpoint stringlength (s : list Z) : nat :=
  match s with
  | [] => O
  | c :: t => if uchar c =? 0 then O else S (stringlength t)
  end.

(** The index into [dec_hex_data] used for one digit of [int_to_string]:
    [-(in_number % 10)] for a negative input, [in_number % 10] otherwise.
    C's [%] truncates towards zero, which is [Z.rem]. *)
Definition int_digit_index (neg : bool) (in_number : Z) : Z :=
  if neg then s32 (- (Z.rem in_number 10)) else Z.rem in_number 10.

(** The [for (i = 10; i >= 0; i--)] loop of [int_to_string]; [cnt] is
    [i + 1]. *)
Fixpoint int_to_string_loop (cnt : nat) (in_number : Z) (need_neg neg : bool)
    (out_string : list Z) : list Z :=
  match cnt with
  | O => out_string
  | S i =>
      if need_neg && (in_number =? 0) && (i <? 10)%nat then
        int_to_string_loop i (Z.quot in_number 10) false neg
          (store out_string i (chr "-"))
      else if (in_number =? 0) && (i <? 10)%nat then
        memmove out_string 0 out_string (i + 1) (12 - i)
      else
        int_to_string_loop i (Z.quot in_number 10) need_neg neg
          (store out_string i (dec_hex (int_digit_index neg in_number)))
  end.

Definition int_to_string (in_number : Z) (out_string : list Z) : list Z :=
  let out_string := store out_string 11 0 in
  let neg := in_number <? 0 in
  int_to_string_loop 11 in_number neg neg out_string.

(** [append_string]. *)
Definition append_string (string1 string2 out_string : list Z) : list Z :=
  let len1 := stringlength string1 in
  let len2 := S (stringlength string2) in
  let out_string := memmove out_string 0 string1 0 len1 in
  memmove out_string len1 string2 0 len2.

(** *** mantissa_to_string *)

Definition int_cutoff : Z := 8.

(** The [while (shifter >= 22 - int_cutoff)] loop; [fuel] bounds the number
    of turns (nine are taken). *)
Fixpoint mantissa_scan (fuel : nat) (shifter mantissa temp_output fivecount : Z) : Z :=
  match fuel with
  | O => temp_output
  | S fuel' =>
      if shifter <? 22 - int_cutoff then temp_output
      else
        let temp_output :=
          if Z.land (Z.shiftr mantissa shifter) 1 =? 0 then temp_output
          else u32 (temp_output + fivecount) in
        if shifter =? 22 - int_cutoff then temp_output
        else mantissa_scan fuel' (shifter - 1) mantissa
               (u32 (temp_output * 10)) (u32 (fivecount * 5))
  end.

(** [for (j = digit_bound; j >= 0; j--) out_string[j] = '0';] with [cnt]
    being [digit_bound + 1]; [off] is where [out_string] points in the
    array. *)
Fixpoint all_zeroes (cnt : nat) (off : nat) (arr : list Z) : list Z :=
  match cnt with
  | O => arr
  | S j => all_zeroes j off (store arr (off + j) (chr "0"))
  end.

(** The "quick, silly integer power of 10". *)
Fixpoint sillypow (turns : nat) (tenpow : Z) : Z :=
  match turns with
  | O => tenpow
  | S turns' => sillypow turns' (u32 (tenpow * 10))
  end.

(** The final digit loop. *)
Fixpoint mantissa_digits (cnt : nat) (digit_bound : Z) (temp_output : Z)
    (off : nat) (arr : list Z) : list Z :=
  match cnt with
  | O => arr
  | S j =>
      let arr :=
        if (temp_output =? 0) && (Z.of_nat j <? digit_bound)
        then store arr (off + j) (chr "0")
        else store arr (off + j) (dec_hex (temp_output mod 10)) in
      mantissa_digits j digit_bound (temp_output / 10) off arr
  end.

(** [mantissa_to_string], built with FLOAT_ROUNDING as the source defines
    it.  [out_string] is the array [arr] from offset [off]; the result is
    the new value of [*exponent_add] and the array. *)
Definition mantissa_to_string (mantissa : Z) (decimal_point_digits : Z)
    (exponent_add : Z) (arr : list Z) (off : nat) : Z * list Z :=
  let digit_bound := s32 (decimal_point_digits - 1) in
  let cnt := Z.to_nat (digit_bound + 1) in
  let arr := store arr (off + Z.to_nat decimal_point_digits) 0 in
  if decimal_point_digits =? 0 then (exponent_add, store arr off 0)
  else if mantissa =? 0 then (exponent_add, all_zeroes cnt off arr)
  else
    let temp_output := mantissa_scan 23 22 mantissa 0 5 in
    let exponent_add := 0 in
    let temp_output :=
      if decimal_point_digits =? 1 then temp_output / 10000000
      else if decimal_point_digits =? 2 then temp_output / 1000000
      else if decimal_point_digits =? 3 then temp_output / 100000
      else temp_output in
    let round_check := temp_output mod 10 in
    let rounded := if 5 <=? round_check then u32 (temp_output + (10 - round_check))
                   else temp_output in
    if (5 <=? round_check)
       && (rounded =? sillypow (Z.to_nat decimal_point_digits) 10)
    then (1, all_zeroes cnt off arr)
    else (exponent_add, mantissa_digits cnt digit_bound (rounded / 10) off arr).

(** *** float_to_string *)

(** The IEEE-754 single value as [FLOAT_FORMAT_STRUCT] views it. *)
Record FLOAT_FORMAT_STRUCT : Type := mkFloat {
  mantissa : Z;   (* 23 bits *)
  exponent : Z;   (* 8 bits *)
  sign : Z        (* 1 bit *)
}.

(** The view of a 32-bit pattern: on the little-endian SH4 the first
    bit-field takes the low bits. *)
Definition float_of_bits (bits : Z) : FLOAT_FORMAT_STRUCT :=
  {| mantissa := Z.land bits 8388607;
     exponent := Z.land (Z.shiftr bits 23) 255;
     sign := Z.land (Z.shiftr bits 31) 1 |}.

(** [compare_isnan]: [fcmp/eq] of a value with itself fails exactly for a
    NaN, which is an all-ones exponent with a non-zero mantissa. *)
Definition compare_isnan (f : FLOAT_FORMAT_STRUCT) : bool :=
  (exponent f =? 255) && negb (mantissa f =? 0).

(** [in_float == 0.0f]: true for both zeroes. *)
Definition float_is_zero (f : FLOAT_FORMAT_STRUCT) : bool :=
  (exponent f =? 0) && (mantissa f =? 0).

(** The two static scratch arrays of the module. *)
Record scratch : Type := mkScratch {
  temp_buffer_exp : list Z;    (* char [12] *)
  temp_buffer_mant : list Z    (* char [4 + 7] *)
}.

Definition scratch_init : scratch :=
  {| temp_buffer_exp := repeat 0 12; temp_buffer_mant := repeat 0 11 |}.

Definition float_to_string (in_float : FLOAT_FORMAT_STRUCT)
    (decimal_point_digits : Z) (st : scratch) (out_string : list Z)
    : scratch * list Z :=
  let float_struct := in_float in
  if compare_isnan in_float then
    (st, stores out_string 0 (str "NaN" ++ [0]))
  else if float_is_zero in_float then
    (st, stores out_string 0 (str "0.0" ++ [0]))
  else if negb (sign float_struct =? 0) && (exponent float_struct =? 255) then
    (st, stores out_string 0 (str "-Inf" ++ [0]))
  else if exponent float_struct =? 255 then
    (st, stores out_string 0 (str "Inf" ++ [0]))
  else
    let denormal := exponent float_struct =? 0 in
    let '(exponent_add_1, mant) :=
      if negb (sign float_struct =? 0) then
        let '(ea, mant) :=
          mantissa_to_string (mantissa float_struct) decimal_point_digits 0
            (temp_buffer_mant st) 3 in
        if denormal && (ea =? 0)
        then (ea, stores mant 0 (str "-0."))
        else (ea, stores mant 0 (str "-1."))
      else
        let '(ea, mant) :=
          mantissa_to_string (mantissa float_struct) decimal_point_digits 0
            (temp_buffer_mant st) 2 in
        if denormal && (ea =? 0)
        then (ea, stores mant 0 (str "0."))
        else (ea, stores mant 0 (str "1.")) in
    let mantlen := stringlength mant in
    let mant := stores mant mantlen (str "x2^" ++ [0]) in
    let exp :=
      if denormal then stores (temp_buffer_exp st) 0 (str "-126" ++ [0])
      else int_to_string (s32 (uchar (exponent float_struct) - 127 + exponent_add_1))
             (temp_buffer_exp st) in
    ({| temp_buffer_exp := exp; temp_buffer_mant := mant |},
     append_string mant exp out_string).

(** *** hex_to_string and uint_to_string *)

(** The [for (i = 9; i >= 2; i--)] loop of [hex_to_string]; [cnt] is
    [i - 1]. *)
Fixpoint hex_to_string_loop (cnt : nat) (in_number : Z) (out_string : list Z)
    : list Z :=
  match cnt with
  | O => out_string
  | S c =>
      hex_to_string_loop c (Z.shiftr in_number 4)
        (store out_string (c + 2) (dec_hex (Z.land in_number 15)))
  end.

Definition hex_to_string (in_number : Z) (out_string : list Z) : list Z :=
  let out_string := store out_string 0 (chr "0") in
  let out_string := store out_string 1 (chr "x") in
  let out_string := store out_string 10 0 in
  hex_to_string_loop 8 in_number out_string.

(** The [for (i = 9; i >= 0; i--)] loop of [uint_to_string]; [cnt] is
    [i + 1]. *)
Fixpoint uint_to_string_loop (cnt : nat) (in_number : Z) (out_string : list Z)
    : list Z :=
  match cnt with
  | O => out_string
  | S i =>
      if (in_number =? 0) && (i <? 9)%nat then
        memmove out_string 0 out_string (i + 1) (11 - i)
      else
        uint_to_string_loop i (in_number / 10)
          (store out_string i (dec_hex (in_number mod 10)))
  end.

Definition uint_to_string (in_number : Z) (out_string : list Z) : list Z :=
  let out_string := store out_string 10 0 in
  uint_to_string_loop 10 in_number out_string.

End Converters.

End SimplePrint.

(** ** print.c *)

Module Print.

(** What a call can come to.  [Undefined] stands for the places where the C
    code leaves defined behaviour: a read past the end of an array, a
    [va_arg] with no argument left or one of another type, a shift count
    outside 0..31.  [OutOfFuel] is an artefact of the embedding (loops that
    are not structural carry a bound) and is shown below never to be
    returned by [kvprintf]. *)
Inductive outcome (A : Type) : Type :=
| Done (a : A)
| Undefined
| OutOfFuel.
Arguments Done {A} a.
Arguments Undefined {A}.
Arguments OutOfFuel {A}.

Definition bind {A B : Type} (m : outcome A) (f : A -> outcome B) : outcome B :=
  match m with
  | Done a => f a
  | Undefined => Undefined
  | OutOfFuel => OutOfFuel
  end.

Notation "x <- m ;; f" := (bind m (fun x => f))
  (at level 61, m at next level, right associativity).
Notation "' p <- m ;; f" := (bind m (fun x => let p := x in f))
  (at level 61, p pattern, m at next level, right associativity).

(** *** The variable arguments *)

Inductive value : Type :=
| VInt (n : Z)                  (* int, unsigned, long, size_t, ptrdiff_t *)
| VStr (s : option (list Z))    (* char * or unsigned char *: NULL, or the array *)
| VPtr (addr : Z)               (* void * *)
| VRef (loc : Z).               (* int *, long *, short *, char * written by %n *)

Definition va_list : Type := list value.

Definition va_int (ap : va_list) : outcome (Z * va_list) :=
  match ap with
  | VInt n :: ap' => Done (n, ap')
  | _ => Undefined
  end.

Definition va_str (ap : va_list) : outcome (option (list Z) * va_list) :=
  match ap with
  | VStr s :: ap' => Done (s, ap')
  | _ => Undefined
  end.

Definition va_ptr (ap : va_list) : outcome (Z * va_list) :=
  match ap with
  | VPtr a :: ap' => Done (a, ap')
  | _ => Undefined
  end.

Definition va_ref (ap : va_list) : outcome (Z * va_list) :=
  match ap with
  | VRef l :: ap' => Done (l, ap')
  | _ => Undefined
  end.

(** *** Small helpers of the file *)

Definition hex2ascii_data : list Z := str "0123456789abcdefghijklmnopqrstuvwxyz".

Definition hex2ascii (hex : Z) : Z := nth (Z.to_nat hex) hex2ascii_data 0.

Definition toupper (c : Z) : Z :=
  if (chr "a" <=? c) && (c <=? chr "z") then c - 32 else c.

Definition imax (a b : Z) : Z := if a >? b then a else b.

(** [strlen]: the array must hold a terminator. *)
Fixpoint strlen (s : list Z) : outcome Z :=
  match s with
  | [] => Undefined
  | c :: t => if uchar c =? 0 then Done 0 else n <- strlen t ;; Done (n + 1)
  end.

(** *** ksprintn *)

(** One of the four [do ... while] loops: [digit] picks the digit, [next]
    is the update of [num] whose result is the loop test.  What is
    returned is what [nbuf] holds after its leading NUL, that is the digits
    from the least significant one; [MAXNBUF - 1 = 32] cells are there. *)
Fixpoint ksprintn_loop (cells : nat) (digit next : Z -> Z) (upper : bool) (num : Z)
    : list Z :=
  match cells with
  | O => []
  | S cells' =>
      let c := hex2ascii (digit num) in
      let c := if upper then toupper c else c in
      let num := next num in
      c :: (if num =? 0 then [] else ksprintn_loop cells' digit next upper num)
  end.

Definition ksprintn (num base : Z) (upper : bool) : list Z :=
  if base =? 10 then
    ksprintn_loop 32 (fun n => n mod 10) (fun n => n / 10) upper num
  else if base =? 16 then
    ksprintn_loop 32 (fun n => Z.land n 15) (fun n => Z.shiftr n 4) upper num
  else if base =? 8 then
    ksprintn_loop 32 (fun n => Z.land n 7) (fun n => Z.shiftr n 3) upper num
  else if base =? 2 then
    ksprintn_loop 32 (fun n => Z.land n 1) (fun n => Z.shiftr n 1) upper num
  else [chr "?"].

(** *** The directive being parsed *)

Record dstate : Type := mkD {
  padc : Z; width : Z; dwidth : Z;
  lflag : bool; ladjust : bool; sharpflag : bool; sign : bool; dot : bool;
  upper : bool; cflag : bool; hflag : bool; jflag : bool; tflag : bool;
  zflag : bool
}.

Definition dstate_init : dstate :=
  mkD (chr " ") 0 0 false false false false false false false false false false false.

Definition set_padc (v : Z) (d : dstate) : dstate :=
  mkD v (width d) (dwidth d) (lflag d) (ladjust d) (sharpflag d) (sign d) (dot d)
      (upper d) (cflag d) (hflag d) (jflag d) (tflag d) (zflag d).
Definition set_width (v : Z) (d : dstate) : dstate :=
  mkD (padc d) v (dwidth d) (lflag d) (ladjust d) (sharpflag d) (sign d) (dot d)
      (upper d) (cflag d) (hflag d) (jflag d) (tflag d) (zflag d).
Definition set_dwidth (v : Z) (d : dstate) : dstate :=
  mkD (padc d) (width d) v (lflag d) (ladjust d) (sharpflag d) (sign d) (dot d)
      (upper d) (cflag d) (hflag d) (jflag d) (tflag d) (zflag d).
Definition set_lflag (v : bool) (d : dstate) : dstate :=
  mkD (padc d) (width d) (dwidth d) v (ladjust d) (sharpflag d) (sign d) (dot d)
      (upper d) (cflag d) (hflag d) (jflag d) (tflag d) (zflag d).
Definition set_ladjust (v : bool) (d : dstate) : dstate :=
  mkD (padc d) (width d) (dwidth d) (lflag d) v (sharpflag d) (sign d) (dot d)
      (upper d) (cflag d) (hflag d) (jflag d) (tflag d) (zflag d).
Definition set_sharpflag (v : bool) (d : dstate) : dstate :=
  mkD (padc d) (width d) (dwidth d) (lflag d) (ladjust d) v (sign d) (dot d)
      (upper d) (cflag d) (hflag d) (jflag d) (tflag d) (zflag d).
Definition set_sign (v : bool) (d : dstate) : dstate :=
  mkD (padc d) (width d) (dwidth d) (lflag d) (ladjust d) (sharpflag d) v (dot d)
      (upper d) (cflag d) (hflag d) (jflag d) (tflag d) (zflag d).
Definition set_dot (v : bool) (d : dstate) : dstate :=
  mkD (padc d) (width d) (dwidth d) (lflag d) (ladjust d) (sharpflag d) (sign d) v
      (upper d) (cflag d) (hflag d) (jflag d) (tflag d) (zflag d).
Definition set_upper (v : bool) (d : dstate) : dstate :=
  mkD (padc d) (width d) (dwidth d) (lflag d) (ladjust d) (sharpflag d) (sign d) (dot d)
      v (cflag d) (hflag d) (jflag d) (tflag d) (zflag d).
Definition set_cflag (v : bool) (d : dstate) : dstate :=
  mkD (padc d) (width d) (dwidth d) (lflag d) (ladjust d) (sharpflag d) (sign d) (dot d)
      (upper d) v (hflag d) (jflag d) (tflag d) (zflag d).
Definition set_hflag (v : bool) (d : dstate) : dstate :=
  mkD (padc d) (width d) (dwidth d) (lflag d) (ladjust d) (sharpflag d) (sign d) (dot d)
      (upper d) (cflag d) v (jflag d) (tflag d) (zflag d).
Definition set_jflag (v : bool) (d : dstate) : dstate :=
  mkD (padc d) (width d) (dwidth d) (lflag d) (ladjust d) (sharpflag d) (sign d) (dot d)
      (upper d) (cflag d) (hflag d) v (tflag d) (zflag d).
Definition set_tflag (v : bool) (d : dstate) : dstate :=
  mkD (padc d) (width d) (dwidth d) (lflag d) (ladjust d) (sharpflag d) (sign d) (dot d)
      (upper d) (cflag d) (hflag d) (jflag d) v (zflag d).
Definition set_zflag (v : bool) (d : dstate) : dstate :=
  mkD (padc d) (width d) (dwidth d) (lflag d) (ladjust d) (sharpflag d) (sign d) (dot d)
      (upper d) (cflag d) (hflag d) (jflag d) (tflag d) v.

(** The cases of the [switch] on the character after [%]. *)
Inductive token : Type :=
| TDot | TSharp | TPlus | TMinus | TPercent | TStar | TZero | TDigit
| Tb | Tc | TD | Td | Th | Tj | Tl | Tn | To | Tp | Tr | Ts | Tt | Tu
| TX | Tx | Ty | Tz | TDefault.

Definition classify (ch : Z) : token :=
  if ch =? chr "." then TDot
  else if ch =? chr "#" then TSharp
  else if ch =? chr "+" then TPlus
  else if ch =? chr "-" then TMinus
  else if ch =? chr "%" then TPercent
  else if ch =? chr "*" then TStar
  else if ch =? chr "0" then TZero
  else if (chr "1" <=? ch) && (ch <=? chr "9") then TDigit
  else if ch =? chr "b" then Tb
  else if ch =? chr "c" then Tc
  else if ch =? chr "D" then TD
  else if (ch =? chr "d") || (ch =? chr "i") then Td
  else if ch =? chr "h" then Th
  else if ch =? chr "j" then Tj
  else if ch =? chr "l" then Tl
  else if ch =? chr "n" then Tn
  else if ch =? chr "o" then To
  else if ch =? chr "p" then Tp
  else if ch =? chr "r" then Tr
  else if ch =? chr "s" then Ts
  else if ch =? chr "t" then Tt
  else if ch =? chr "u" then Tu
  else if ch =? chr "X" then TX
  else if ch =? chr "x" then Tx
  else if ch =? chr "y" then Ty
  else if ch =? chr "z" then Tz
  else TDefault.

(** The digit loop of the width and precision:
    [for (n = 0;; ++fmt) { n = n * 10 + ch - '0'; ch = *fmt; if (ch < '0' || ch > '9') break; }]
    entered with [fmt] behind the first digit [ch]. *)
Fixpoint scan_number (fmt : list Z) (n ch : Z) {struct fmt} : outcome (Z * list Z) :=
  let n := s32 (n * 10 + ch - chr "0") in
  match fmt with
  | [] => Undefined
  | c :: fmt' =>
      let ch := schar c in
      if (ch <? chr "0") || (ch >? chr "9") then Done (n, fmt)
      else scan_number fmt' n ch
  end.

(** [for (n = 0; n < dwidth && p[n]; n++) continue;] *)
Fixpoint strnlen (p : list Z) (n dwidth : Z) : outcome Z :=
  if n <? dwidth then
    match p with
    | [] => Undefined
    | c :: p' => if uchar c =? 0 then Done n else strnlen p' (n + 1) dwidth
    end
  else Done n.

(** The argument of an unsigned conversion, by length modifier. *)
Definition arg_nosign (d : dstate) (ap : va_list) : outcome (Z * va_list) :=
  '(v, ap) <- va_int ap ;;
  Done (if jflag d then u32 v
        else if tflag d then u32 v
        else if lflag d then u32 v
        else if zflag d then u32 v
        else if hflag d then u16 v
        else if cflag d then uchar v
        else u32 v, ap).

(** The argument of a signed conversion, by length modifier; [num] is
    unsigned, so the value is stored modulo 2^32. *)
Definition arg_sign (d : dstate) (ap : va_list) : outcome (Z * va_list) :=
  '(v, ap) <- va_int ap ;;
  Done (if jflag d then u32 v
        else if tflag d then u32 v
        else if lflag d then u32 v
        else if zflag d then u32 v
        else if hflag d then u32 (s16 v)
        else if cflag d then u32 (schar v)
        else u32 v, ap).

(** The value [%n] stores, by the type of the pointer. *)
Definition count_stored (d : dstate) (retval : Z) : Z :=
  if jflag d then retval
  else if lflag d then retval
  else if zflag d then u32 retval
  else if hflag d then s16 retval
  else if cflag d then schar retval
  else retval.

(** *** The engine, over a sink

    [kvprintf] hands every character to the callback [func], or stores it at
    [*d++] when [func] is NULL.  Either way the engine only pushes
    characters and never looks at what became of them, so the embedding
    takes the sink as a state [Arg] with a push [func]; [snprintf_func] and
    the raw store are instances further down. *)
Section Engine.

Context {Arg : Type}.
Variable func : Z -> Arg -> Arg.

Record kstate : Type := mkK { sink : Arg; retval : Z }.

(** [PCHAR(c)] *)
Definition PCHAR (c : Z) (k : kstate) : kstate :=
  {| sink := func c (sink k); retval := s32 (retval k + 1) |}.

(** [PCHAR] over a text, in order. *)
Fixpoint PCHARS (text : list Z) (k : kstate) : kstate :=
  match text with
  | [] => k
  | c :: text' => PCHARS text' (PCHAR c k)
  end.

(** [while (width--) PCHAR(c);] entered with [width > 0], and the body of
    [while (width-- > 0) PCHAR(c);]. *)
Fixpoint PCHAR_n (cnt : nat) (c : Z) (k : kstate) : kstate :=
  match cnt with
  | O => k
  | S cnt' => PCHAR_n cnt' c (PCHAR c k)
  end.

(** [while (width-- > 0) PCHAR(' ');] with the value [width] is left at. *)
Definition space_loop (width : Z) (k : kstate) : Z * kstate :=
  if width >? 0 then (-1, PCHAR_n (Z.to_nat width) (chr " ") k)
  else (s32 (width - 1), k).

(** The literal copy [while ((ch = (unsigned char)*fmt++) != '%' || stop)]. *)
Inductive literal : Type :=
| LitEnd (k : kstate)                       (* return (retval) *)
| LitPercent (percent : list Z) (k : kstate)  (* percent = fmt - 1 *)
| LitUndefined.

Fixpoint copy_literal (stop : bool) (fmt : list Z) (k : kstate) : literal :=
  match fmt with
  | [] => LitUndefined
  | c :: fmt' =>
      let ch := uchar c in
      if negb (ch =? chr "%") || stop then
        if ch =? 0 then LitEnd k else copy_literal stop fmt' (PCHAR ch k)
      else LitPercent fmt k
  end.

(** [%c] *)
Definition conv_c (d : dstate) (ap : va_list) (k : kstate) : outcome (va_list * kstate) :=
  let width := s32 (width d - 1) in
  let k := if negb (ladjust d) && (width >? 0)
           then PCHAR_n (Z.to_nat width) (padc d) k else k in
  '(c, ap) <- va_int ap ;;
  let k := PCHAR (s32 c) k in
  let k := if ladjust d && (width >? 0)
           then PCHAR_n (Z.to_nat width) (padc d) k else k in
  Done (ap, k).

(** [%D]: [cnt] turns of [while (width--)] are left. *)
Fixpoint hexdump (cnt : nat) (up p : option (list Z)) (k : kstate) : outcome kstate :=
  match cnt with
  | O => Done k
  | S cnt' =>
      match up with
      | Some (b :: up') =>
          let k := PCHAR (hex2ascii (Z.shiftr (uchar b) 4)) k in
          let k := PCHAR (hex2ascii (Z.land (uchar b) 15)) k in
          match cnt' with
          | O => hexdump cnt' (Some up') p k
          | S _ =>
              match p with
              | Some sep =>
                  n <- strlen sep ;;
                  hexdump cnt' (Some up') p
                    (PCHARS (map schar (firstn (Z.to_nat n) sep)) k)
              | None => Undefined
              end
          end
      | _ => Undefined
      end
  end.

Definition conv_D (d : dstate) (ap : va_list) (k : kstate) : outcome (va_list * kstate) :=
  '(up, ap) <- va_str ap ;;
  '(p, ap) <- va_str ap ;;
  let width := if width d =? 0 then 16 else width d in
  k <- hexdump (Z.to_nat (u32 width)) up p k ;;
  Done (ap, k).

(** [%s] *)
Definition conv_s (d : dstate) (ap : va_list) (k : kstate) : outcome (va_list * kstate) :=
  '(p, ap) <- va_str ap ;;
  let p := match p with Some p => p | None => str "(null)" ++ [0] end in
  n <- (if negb (dot d) then n <- strlen p ;; Done (s32 n)
        else strnlen p 0 (dwidth d)) ;;
  let width := s32 (width d - n) in
  let k := if negb (ladjust d) && (width >? 0)
           then PCHAR_n (Z.to_nat width) (padc d) k else k in
  let k := PCHARS (map schar (firstn (Z.to_nat n) p)) k in
  let k := if ladjust d && (width >? 0)
           then PCHAR_n (Z.to_nat width) (padc d) k else k in
  Done (ap, k).

(** The names of [%b]: [for (; (n = *q) > ' '; ++q) PCHAR(n);] and its
    silent twin. *)
Fixpoint name_emit (q : list Z) (k : kstate) : outcome (list Z * kstate) :=
  match q with
  | [] => Undefined
  | c :: q' =>
      let n := schar c in
      if n >? chr " " then name_emit q' (PCHAR n k) else Done (q, k)
  end.

Fixpoint name_skip (q : list Z) : outcome (list Z) :=
  match q with
  | [] => Undefined
  | c :: q' => if schar c >? chr " " then name_skip q' else Done q
  end.

(** The loop over the groups of [%b]: while [q] is not at a NUL, [n = *q++] is
    a bit number and [num & (1 << (n - 1))] decides between emitting and
    skipping the name that follows. *)
Fixpoint bit_names (fuel : nat) (q : list Z) (num tmp : Z) (k : kstate)
    : outcome kstate :=
  match fuel with
  | O => OutOfFuel
  | S fuel' =>
      match q with
      | [] => Undefined
      | c :: q' =>
          let n := schar c in
          if n =? 0 then Done k
          else if (n - 1 <? 0) || (31 <? n - 1) then Undefined
          else if negb (Z.land num (u32 (Z.shiftl 1 (n - 1))) =? 0) then
            let k := PCHAR (if negb (retval k =? tmp) then chr "," else chr "<") k in
            '(q'', k) <- name_emit q' k ;;
            bit_names fuel' q'' num tmp k
          else
            q'' <- name_skip q' ;;
            bit_names fuel' q'' num tmp k
      end
  end.

(** From the label [number:] to the [break].  [bconv] and [q] come from a
    [%b]. *)
Definition number (d : dstate) (bconv : bool) (q : list Z) (num base : Z)
    (k : kstate) : outcome kstate :=
  let neg := sign d && (s32 num <? 0) in
  let num := if neg then u32 (- s32 num) else num in
  let digits := ksprintn num base (upper d) in
  let n := Z.of_nat (length digits) in
  let tmp := 0 in
  let tmp := if sharpflag d && negb (num =? 0)
             then (if base =? 8 then tmp + 1
                   else if base =? 16 then tmp + 2 else tmp)
             else tmp in
  let tmp := if neg then tmp + 1 else tmp in
  let dwidth := if negb (ladjust d) && (padc d =? chr "0")
                then s32 (width d - tmp) else dwidth d in
  let width := s32 (width d - (tmp + imax dwidth n)) in
  let dwidth := s32 (dwidth - n) in
  let '(width, k) := if negb (ladjust d) then space_loop width k else (width, k) in
  let k := if neg then PCHAR (chr "-") k else k in
  let k := if sharpflag d && negb (num =? 0)
           then (if base =? 8 then PCHAR (chr "0") k
                 else if base =? 16 then PCHAR (chr "x") (PCHAR (chr "0") k)
                 else k)
           else k in
  let k := PCHAR_n (Z.to_nat dwidth) (chr "0") k in
  let k := PCHARS (cstring (rev digits)) k in
  '(width, k) <-
    (if bconv && negb (num =? 0) then
       let tmp := retval k in
       k <- bit_names (S (length q)) q num tmp k ;;
       if negb (retval k =? tmp)
       then let k := PCHAR (chr ">") k in
            Done (s32 (width - (retval k - tmp)), k)
       else Done (width, k)
     else Done (width, k)) ;;
  Done (if ladjust d then snd (space_loop width k) else k).

(** What one directive leaves behind: the format cursor, the arguments
    left, the lockout flag, the writes of [%n] (location and value, latest
    first) and the sink with the count. *)
Record directive : Type := mkDir {
  d_fmt : list Z; d_ap : va_list; d_stop : bool;
  d_stored : list (Z * Z); d_k : kstate
}.

(** [handle_nosign:] *)
Definition handle_nosign (d : dstate) (bconv : bool) (base : Z) (fmt : list Z)
    (ap : va_list) (stored : list (Z * Z)) (k : kstate) : outcome directive :=
  let d := set_sign false d in
  '(num, ap) <- arg_nosign d ap ;;
  if bconv then
    '(q, ap) <- va_str ap ;;
    match q with
    | Some (b :: q') =>
        k <- number d bconv q' num (schar b) k ;;
        Done (mkDir fmt ap false stored k)
    | _ => Undefined
    end
  else
    k <- number d bconv [] num base k ;;
    Done (mkDir fmt ap false stored k).

(** [handle_sign:] *)
Definition handle_sign (d : dstate) (base : Z) (fmt : list Z)
    (ap : va_list) (stored : list (Z * Z)) (k : kstate) : outcome directive :=
  '(num, ap) <- arg_sign d ap ;;
  k <- number d false [] num base k ;;
  Done (mkDir fmt ap false stored k).

(** [reswitch: switch (ch = (unsigned char)*fmt++)], up to the [break] of
    the conversion reached.  [percent] is the cursor saved at the [%]. *)
Fixpoint reswitch (fuel : nat) (radix : Z) (percent fmt : list Z) (d : dstate)
    (ap : va_list) (stored : list (Z * Z)) (k : kstate) : outcome directive :=
  match fuel with
  | O => OutOfFuel
  | S fuel' =>
      match fmt with
      | [] => Undefined
      | c :: fmt =>
          let ch := uchar c in
          let again := reswitch fuel' radix percent fmt in
          match classify ch with
          | TDot => again (set_dot true d) ap stored k
          | TSharp => again (set_sharpflag true d) ap stored k
          | TPlus => again (set_sign true d) ap stored k
          | TMinus => again (set_ladjust true d) ap stored k
          | TPercent => Done (mkDir fmt ap false stored (PCHAR ch k))
          | TStar =>
              '(v, ap) <- va_int ap ;;
              if negb (dot d) then
                let w := s32 v in
                if w <? 0
                then again (set_width (s32 (- w)) (set_ladjust (negb (ladjust d)) d))
                       ap stored k
                else again (set_width w d) ap stored k
              else again (set_dwidth (s32 v) d) ap stored k
          | TZero | TDigit =>
              if (ch =? chr "0") && negb (dot d) then
                again (set_padc (chr "0") d) ap stored k
              else
                '(n, fmt) <- scan_number fmt 0 ch ;;
                reswitch fuel' radix percent fmt
                  (if dot d then set_dwidth n d else set_width n d) ap stored k
          | Tb => handle_nosign (set_ladjust true d) true 0 fmt ap stored k
          | Tc =>
              '(ap, k) <- conv_c d ap k ;;
              Done (mkDir fmt ap false stored k)
          | TD =>
              '(ap, k) <- conv_D d ap k ;;
              Done (mkDir fmt ap false stored k)
          | Td => handle_sign (set_sign true d) 10 fmt ap stored k
          | Th =>
              if hflag d then again (set_cflag true (set_hflag false d)) ap stored k
              else again (set_hflag true d) ap stored k
          | Tj => again (set_jflag true d) ap stored k
          | Tl => again (set_lflag true d) ap stored k
          | Tn =>
              '(loc, ap) <- va_ref ap ;;
              Done (mkDir fmt ap false
                      ((loc, count_stored d (retval k)) :: stored) k)
          | To => handle_nosign d false 8 fmt ap stored k
          | Tp =>
              let d := set_sign false (set_sharpflag (width d =? 0) d) in
              '(a, ap) <- va_ptr ap ;;
              k <- number d false [] (u32 a) 16 k ;;
              Done (mkDir fmt ap false stored k)
          | Tr =>
              if sign d then handle_sign d radix fmt ap stored k
              else handle_nosign d false radix fmt ap stored k
          | Ts =>
              '(ap, k) <- conv_s d ap k ;;
              Done (mkDir fmt ap false stored k)
          | Tt => again (set_tflag true d) ap stored k
          | Tu => handle_nosign d false 10 fmt ap stored k
          | TX => handle_nosign (set_upper true d) false 16 fmt ap stored k
          | Tx => handle_nosign d false 16 fmt ap stored k
          | Ty => handle_sign (set_sign true d) 16 fmt ap stored k
          | Tz => again (set_zflag true d) ap stored k
          | TDefault =>
              let k := PCHARS
                         (map schar (firstn (length percent - length fmt) percent)) k in
              Done (mkDir fmt ap true stored k)
          end
      end
  end.

(** The [for (;;)] of [kvprintf]. *)
Fixpoint kvloop (fuel : nat) (radix : Z) (fmt : list Z) (ap : va_list)
    (stop : bool) (stored : list (Z * Z)) (k : kstate)
    : outcome (list (Z * Z) * kstate) :=
  match fuel with
  | O => OutOfFuel
  | S fuel' =>
      match copy_literal stop fmt k with
      | LitUndefined => Undefined
      | LitEnd k => Done (stored, k)
      | LitPercent percent k =>
          r <- reswitch (length percent) radix percent (tl percent)
                 dstate_init ap stored k ;;
          kvloop fuel' radix (d_fmt r) (d_ap r) (d_stop r) (d_stored r) (d_k r)
      end
  end.

Definition fmt_null : list Z := str "(fmt null)" ++ [10; 0].

(** [kvprintf(fmt, func, arg, radix, ap)]: [fmt] is NULL or the array it
    points to, [arg] the sink as the call finds it.  The result is the
    writes of [%n], the sink as the call leaves it and the value
    returned. *)
Definition kvprintf (fmt : option (list Z)) (arg : Arg) (radix : Z) (ap : va_list)
    : outcome (list (Z * Z) * kstate) :=
  let fmt := match fmt with None => fmt_null | Some fmt => fmt end in
  let radix := if (radix <? 2) || (radix >? 36) then 10 else radix in
  kvloop (S (length fmt)) radix fmt ap false []
    {| sink := arg; retval := 0 |}.

End Engine.

Arguments kstate Arg : clear implicits.
Arguments literal Arg : clear implicits.
Arguments directive Arg : clear implicits.

(** *** The sinks *)

(** The sink that keeps everything it is handed, in order: the fully
    rendered output of a call. *)
Definition keep (c : Z) (out : list Z) : list Z := out ++ [c].

(** [kvprintf] into [keep]: the rendered text, the value returned and the
    writes of [%n]. *)
Definition render (fmt : option (list Z)) (radix : Z) (ap : va_list)
    : outcome (list Z * Z * list (Z * Z)) :=
  '(stored, k) <- kvprintf keep fmt [] radix ap ;;
  Done (sink k, retval k, stored).

(** [func == NULL]: [*d++ = cc] into the memory behind [arg], of which
    the embedding keeps the bytes stored so far. *)
Definition raw_store (cc : Z) (d : list Z) : list Z := d ++ [schar cc].

(** [struct snprintf_arg]: [str] is the array [buf] and the position [pos]
    in it. *)
Record snprintf_arg : Type := mkArg { buf : list Z; pos : nat; remain : Z }.

Definition snprintf_func (ch : Z) (info : snprintf_arg) : snprintf_arg :=
  if remain info >=? 2 then
    {| buf := store (buf info) (pos info) (schar ch);
       pos := S (pos info);
       remain := u32 (remain info - 1) |}
  else info.

(** [vsnrprintf]: the array behind [str] as the call leaves it, the value
    returned and the writes of [%n]. *)
Definition vsnrprintf (str : list Z) (size : Z) (radix : Z)
    (format : option (list Z)) (ap : va_list)
    : outcome (list Z * Z * list (Z * Z)) :=
  let info := {| buf := str; pos := 0; remain := size |} in
  '(stored, k) <- kvprintf snprintf_func format info radix ap ;;
  let info := sink k in
  let str := if remain info >=? 1 then store (buf info) (pos info) 0
             else buf info in
  Done (str, retval k, stored).

(** [vsnprintf] is the same code with the radix 10. *)
Definition vsnprintf (str : list Z) (size : Z) (format : option (list Z))
    (ap : va_list) : outcome (list Z * Z * list (Z * Z)) :=
  let info := {| buf := str; pos := 0; remain := size |} in
  '(stored, k) <- kvprintf snprintf_func format info 10 ap ;;
  let info := sink k in
  let str := if remain info >=? 1 then store (buf info) (pos info) 0
             else buf info in
  Done (str, retval k, stored).

(** [vsprintf]: the bytes stored from [buf] on, terminator included. *)
Definition vsprintf (cfmt : option (list Z)) (ap : va_list)
    : outcome (list Z * Z * list (Z * Z)) :=
  '(stored, k) <- kvprintf raw_store cfmt [] 10 ap ;;
  Done (firstn (Z.to_nat (retval k)) (sink k) ++ [0], retval k, stored).

(** *** printf and vprintf *)

(** print.h *)
Definition PRINT_BUFFER_SIZE : Z := 1024.

(** fs_dcload.h *)
Definition DCLOAD_WRITE : Z := 1.

(** A call of [dcloadsyscall] for a write: the call number, the file
    descriptor, and the bytes the pointer and the count handed over
    cover. *)
Record syscall : Type := mkCall { call : Z; fd : Z; data : list Z }.

(** [vprintf], and [printf], which has the same body behind its
    [va_start]: [vsprintf] into [print_buffer], then one write of the first
    [retval + 1] bytes of it to descriptor 1.  [print_buffer] has
    PRINT_BUFFER_SIZE bytes; a text that does not fit it with its terminator
    is stored past its end.  The result is the call made, the value
    returned and the writes of [%n]. *)
Definition vprintf (fmt : option (list Z)) (ap : va_list)
    : outcome (syscall * Z * list (Z * Z)) :=
  '(bytes, retval, stored) <- vsprintf fmt ap ;;
  if Z.of_nat (length bytes) >? PRINT_BUFFER_SIZE then Undefined
  else Done (mkCall DCLOAD_WRITE 1 (firstn (Z.to_nat (retval + 1)) bytes),
             retval, stored).

Definition printf (fmt : option (list Z)) (ap : va_list)
    : outcome (syscall * Z * list (Z * Z)) :=
  vprintf fmt ap.

(** [sprintf] has the body of [vsprintf] behind its [va_start], and
    [snprintf] calls [vsnprintf]. *)
Definition sprintf (cfmt : option (list Z)) (ap : va_list)
    : outcome (list Z * Z * list (Z * Z)) :=
  '(stored, k) <- kvprintf raw_store cfmt [] 10 ap ;;
  Done (firstn (Z.to_nat (retval k)) (sink k) ++ [0], retval k, stored).

Definition snprintf (str : list Z) (size : Z) (format : option (list Z))
    (ap : va_list) : outcome (list Z * Z * list (Z * Z)) :=
  vsnprintf str size format ap.

End Print.

(** * Notions used to state the properties *)

Module SimplePrintNotions.

Import SimplePrint.

(** ** Reading a rendered float back *)

Fixpoint text_eqb (a b : list Z) : bool :=
  match a, b with
  | [], [] => true
  | x :: a', y :: b' => (x =? y) && text_eqb a' b'
  | _, _ => false
  end.

(** The text behind the [^] of [1.dddx2^e]. *)
Fixpoint exponent_text (text : list Z) : list Z :=
  match text with
  | [] => []
  | c :: t => if c =? chr "^" then t else exponent_text t
  end.

(** The digit in front of the point. *)
Definition leading_digit (text : list Z) : Z :=
  match text with
  | c :: t => if c =? chr "-" then hd 0 t else c
  | [] => 0
  end.

(** Decimal digits read from the head of a text: their value, how many
    they are, and what follows. *)
Fixpoint read_digits (text : list Z) (acc : Z) (cnt : nat) : Z * nat * list Z :=
  match text with
  | c :: t =>
      if (chr "0" <=? c) && (c <=? chr "9")
      then read_digits t (acc * 10 + (c - chr "0")) (S cnt)
      else (acc, cnt, text)
  | [] => (acc, cnt, text)
  end.

Definition read_signed (text : list Z) : Z * nat * list Z :=
  match text with
  | c :: t =>
      if c =? chr "-"
      then let '(v, cnt, rest) := read_digits t 0 O in (- v, cnt, rest)
      else read_digits text 0 O
  | [] => (0, O, text)
  end.

(** The exact value [coefficient * 2^exponent] of a rendered float
    [[-]i.fffx2^[-]e]. *)
Definition reconstruct (text : list Z) : option Q :=
  let negative := match text with c :: _ => c =? chr "-" | [] => false end in
  let '(ipart, icnt, rest) := read_digits (if negative then tl text else text) 0 O in
  match icnt, rest with
  | S _, dot :: rest =>
      if dot =? chr "." then
        let '(fpart, fcnt, rest) := read_digits rest 0 O in
        match rest with
        | x :: two :: caret :: rest =>
            if (x =? chr "x") && (two =? chr "2") && (caret =? chr "^") then
              let '(e, ecnt, rest) := read_signed rest in
              match ecnt, rest with
              | S _, [] =>
                  let scale := 10 ^ Z.of_nat fcnt in
                  let coefficient :=
                    Qmake (ipart * scale + fpart) (Z.to_pos scale) in
                  let magnitude := (coefficient * Qpower (2 # 1) e)%Q in
                  Some (if negative then (- magnitude)%Q else magnitude)
              | _, _ => None
              end
            else None
        | _ => None
        end
      else None
  | _, _ => None
  end.

(** The carry [mantissa_to_string] hands back through [exponent_add]. *)
Definition carry_flag (mantissa decimal_point_digits : Z) : Z :=
  fst (mantissa_to_string mantissa decimal_point_digits 0 (repeat 0 11) 2).


(** The subnormal with the nine leading mantissa bits [t], rendered with
    [d] decimals: is its exponent text "-126", and its leading digit the
    one the carry selects? *)
Definition subnormal_check (past_end : Z) (st : scratch) (out : list Z)
    (d s t : Z) : bool :=
  let m := Z.lor (Z.shiftl t 14) 1 in
  let text := cstring (snd (float_to_string past_end (mkFloat m 0 s) d st out)) in
  text_eqb (exponent_text text) (str "-126")
  && (leading_digit text =? (if carry_flag m d =? 0 then chr "0" else chr "1")).

(** Is the accumulator of [mantissa_scan] for the nine bits [t] the exact
    value [t / 512] in units of 10^-9? *)
Definition scan_check (t : Z) : bool :=
  mantissa_scan 23 22 (Z.shiftl t 14) 0 5 =? t * 1953125.

(** ** Decimal and hexadecimal text *)

(** The decimal digits of a positive number, most significant first;
    nothing for zero.  [fuel] bounds the number of digits. *)
Fixpoint decimal_digits (fuel : nat) (n : Z) : list Z :=
  match fuel with
  | O => []
  | S fuel' =>
      if n =? 0 then []
      else decimal_digits fuel' (n / 10) ++ [chr "0" + n mod 10]
  end.

(** The decimal text of a number below 10^10: its digits, or "0". *)
Definition decimal_text (n : Z) : list Z :=
  decimal_digits 9 (n / 10) ++ [chr "0" + n mod 10].

(** The decimal text of an [int]. *)
Definition signed_text (v : Z) : list Z :=
  (if v <? 0 then [chr "-"] else []) ++ decimal_text (Z.abs v).

(** The value of one digit character, of any base up to 36. *)
Definition char_value (c : Z) : Z :=
  if (chr "0" <=? c) && (c <=? chr "9") then c - chr "0"
  else if (chr "a" <=? c) && (c <=? chr "z") then c - chr "a" + 10
  else if (chr "A" <=? c) && (c <=? chr "Z") then c - chr "A" + 10
  else 0.

(** The value of a text of digits in a base, most significant first. *)
Definition text_value (base : Z) (text : list Z) : Z :=
  fold_left (fun acc c => acc * base + char_value c) text 0.

(** ** The number behind the digits of a mantissa *)

(** What [mantissa_to_string] hands back, read as a number in units of
    10^-[decimal_point_digits]: the carry counts as the integer part, the
    digits written as the decimals. *)
Definition mantissa_value (mantissa decimal_point_digits : Z) : Z :=
  let '(carry, arr) :=
    mantissa_to_string mantissa decimal_point_digits 0 (repeat 0 11) 2 in
  carry * 10 ^ decimal_point_digits + text_value 10 (cstring (skipn 2 arr)).

(** Is the number written for the nine mantissa bits [t] within half a unit
    of the last decimal of the exact [t / 512]? *)
Definition mantissa_check (d t : Z) : bool :=
  let v := mantissa_value (Z.lor (Z.shiftl t 14) 1) d in
  2 * Z.abs (512 * v - t * 10 ^ d) <=? 512.

End SimplePrintNotions.

Module PrintNotions.

Import Print.

(** ** Comparing two runs of the engine *)

(** Two outcomes agree: both are results, related by [P], or both fail the
    same way. *)
Definition agree {X Y : Type} (P : X -> Y -> Prop)
    (o1 : outcome X) (o2 : outcome Y) : Prop :=
  match o1, o2 with
  | Done a, Done b => P a b
  | Undefined, Undefined => True
  | OutOfFuel, OutOfFuel => True
  | _, _ => False
  end.

Definition agree_literal {A1 A2 : Type} (R : kstate A1 -> kstate A2 -> Prop)
    (l1 : literal A1) (l2 : literal A2) : Prop :=
  match l1, l2 with
  | LitEnd k1, LitEnd k2 => R k1 k2
  | LitPercent p1 k1, LitPercent p2 k2 => p1 = p2 /\ R k1 k2
  | LitUndefined, LitUndefined => True
  | _, _ => False
  end.

Definition agree_directive {A1 A2 : Type} (R : kstate A1 -> kstate A2 -> Prop)
    (r1 : directive A1) (r2 : directive A2) : Prop :=
  d_fmt r1 = d_fmt r2 /\ d_ap r1 = d_ap r2 /\ d_stop r1 = d_stop r2 /\
  d_stored r1 = d_stored r2 /\ R (d_k r1) (d_k r2).

Definition agree_pair {X A1 A2 : Type} (R : kstate A1 -> kstate A2 -> Prop)
    (x : X * kstate A1) (y : X * kstate A2) : Prop :=
  fst x = fst y /\ R (snd x) (snd y).

(** What a sink has become after a text went through it. *)
Definition pushed {A : Type} (func : Z -> A -> A) (out : list Z) (arg : A) : A :=
  fold_left (fun a c => func c a) out arg.

(** A directive comes to an end with at most [bound] characters of the
    format left. *)
Definition settles {A : Type} (bound : nat) (o : outcome (directive A)) : Prop :=
  o <> OutOfFuel /\ forall r, o = Done r -> (length (d_fmt r) <= bound)%nat.

(** ** Shapes of format text *)

(** The characters of the [switch] that lead back to [reswitch]: flags,
    width and precision, length modifiers. *)
Definition is_modifier (c : Z) : bool :=
  match classify (uchar c) with
  | TDot | TSharp | TPlus | TMinus | TStar | TZero | TDigit
  | Th | Tj | Tl | Tt | Tz => true
  | _ => false
  end.

(** A conversion character the [switch] has no case for. *)
Definition unsupported (c : Z) : Prop :=
  classify (uchar c) = TDefault /\ uchar c <> 0.

(** The arguments left once every [*] among the modifiers has taken its
    [int]. *)
Fixpoint skip_stars (flags : list Z) (ap : va_list) : option va_list :=
  match flags with
  | [] => Some ap
  | c :: flags' =>
      match classify (uchar c) with
      | TStar =>
          match ap with
          | VInt _ :: ap' => skip_stars flags' ap'
          | _ => None
          end
      | _ => skip_stars flags' ap
      end
  end.

(** ** The text of a numeric conversion *)

(** What the code from [number:] on emits for a conversion other than
    [%b], piece by piece: blanks, sign, prefix, zero fill, digits, blanks. *)
Definition number_text (d : dstate) (num base : Z) : list Z :=
  let neg := sign d && (s32 num <? 0) in
  let num := if neg then u32 (- s32 num) else num in
  let digits := ksprintn num base (upper d) in
  let n := Z.of_nat (length digits) in
  let alt := sharpflag d && negb (num =? 0) in
  let tmp := (if alt then (if base =? 8 then 1 else if base =? 16 then 2 else 0) else 0)
             + (if neg then 1 else 0) in
  let dwidth := if negb (ladjust d) && (padc d =? chr "0")
                then s32 (width d - tmp) else dwidth d in
  let width := s32 (width d - (tmp + imax dwidth n)) in
  let dwidth := s32 (dwidth - n) in
  (if negb (ladjust d) then repeat (chr " ") (Z.to_nat width) else [])
  ++ (if neg then [chr "-"] else [])
  ++ (if alt then (if base =? 8 then [chr "0"]
                   else if base =? 16 then [chr "0"; chr "x"] else [])
      else [])
  ++ repeat (chr "0") (Z.to_nat dwidth)
  ++ cstring (rev digits)
  ++ (if ladjust d then repeat (chr " ") (Z.to_nat width) else []).

(** The value of a run of decimal digit characters, as the digit loop
    accumulates it. *)
Definition decimal_value (ws : list Z) : Z :=
  fold_left (fun acc c => acc * 10 + (c - chr "0")) ws 0.

(** ** The text of a hexdump *)

(** Two hexadecimal digits for each byte, and the separator between one
    byte and the next. *)
Fixpoint hexdump_text (bytes sep : list Z) : list Z :=
  match bytes with
  | [] => []
  | b :: rest =>
      hex2ascii (uchar b / 16) :: hex2ascii (uchar b mod 16) ::
      match rest with
      | [] => []
      | _ :: _ => sep ++ hexdump_text rest sep
      end
  end.

End PrintNotions.

(** * Properties of simple_print.c *)

Import SimplePrint SimplePrintNotions.

Lemma text_eqb_eq (a b : list Z) : text_eqb a b = true -> a = b.
Proof.
  revert b; induction a as [|x a IH]; intros [|y b]; simpl; try discriminate; auto.
  intros H. apply andb_true_iff in H as [Hx Hab].
  apply Z.eqb_eq in Hx. f_equal; auto.
Qed.

(** An array known to have at least [n] cells is taken apart into them. *)
Tactic Notation "cells" integer(n) ident(l) hyp(H) :=
  do n (destruct l as [|? l]; [exfalso; simpl in H; lia | simpl in H]).

(** ** The test calls of main

    The calls startup/fs_dcload.c makes on its [test_array], a zeroed
    20-byte buffer. *)

Example int_to_string_tests (past_end : Z) :
  cstring (int_to_string past_end (-2) (repeat 0 20)) = str "-2"
  /\ cstring (int_to_string past_end (-1) (repeat 0 20)) = str "-1"
  /\ cstring (int_to_string past_end 0 (repeat 0 20)) = str "0"
  /\ cstring (int_to_string past_end INT_MAX (repeat 0 20)) = str "2147483647".
Proof. repeat split; vm_compute; reflexivity. Qed.

Example float_to_string_tests (past_end : Z) :
  let render bits digits :=
    cstring (snd (float_to_string past_end (float_of_bits bits) digits scratch_init
                    (repeat 0 20))) in
  render 0x00000000 1 = str "0.0"            (* 0.0f *)
  /\ render 0x40A00000 3 = str "1.250x2^2"   (* 5.0f *)
  /\ render 0x3FA04189 3 = str "1.252x2^0"   (* 1.252f *)
  /\ render 0x3FF6D5D8 3 = str "1.928x2^0"   (* 1.928401f *)
  /\ render 0x3FF6D5D8 2 = str "1.93x2^0"
  /\ render 0xC0A00000 3 = str "-1.250x2^2". (* -5.0f *)
Proof. repeat split; vm_compute; reflexivity. Qed.

(** ** int_to_string *)

Lemma int_digit_index_negative (v : Z) :
  INT_MIN <= v < 0 ->
  Z.rem v 10 <= 0 /\ int_digit_index true v = - Z.rem v 10 /\
  0 <= int_digit_index true v <= 9.
Proof.
  intros Hv. unfold INT_MIN in Hv.
  assert (Hr : -10 < Z.rem v 10 <= 0).
  { pose proof (Z.rem_bound_pos_neg v 10 ltac:(lia) ltac:(lia)). lia. }
  unfold int_digit_index, s32.
  rewrite Z.mod_small by lia. lia.
Qed.

(** C4.  [int_to_string] renders the minimum 32-bit value as
    "-2147483648", whatever the 12-byte buffer held; the digit index is
    taken from the remainder of the negative value itself, which is never
    positive, and its negation stays within 0..9, so nothing overflows. *)
Theorem int_to_string_int_min (past_end : Z) (out_string : list Z) :
  (12 <= length out_string)%nat ->
  cstring (int_to_string past_end INT_MIN out_string) = str "-2147483648"
  /\ (forall v, INT_MIN <= v < 0 ->
        Z.rem v 10 <= 0 /\ int_digit_index true v = - Z.rem v 10 /\
        0 <= int_digit_index true v <= 9).
Proof.
  intros Hlen. split.
  - cells 12 out_string Hlen. reflexivity.
  - exact int_digit_index_negative.
Qed.

Lemma int_to_string_int_min_witness :
  (12 <= length (repeat 7 12))%nat /\
  cstring (int_to_string 0 INT_MIN (repeat 7 12)) = str "-2147483648".
Proof.
  split; [simpl; lia|].
  apply (int_to_string_int_min 0 (repeat 7 12)). simpl; lia.
Defined.

(** ** float_to_string: the special values *)

(** C5.  Whatever the number of decimals asked for, [float_to_string]
    renders every NaN as "NaN", both zeroes as "0.0", minus infinity as
    "-Inf" and plus infinity as "Inf", and leaves the scratch arrays
    alone. *)
Theorem float_to_string_special (past_end : Z) (in_float : FLOAT_FORMAT_STRUCT)
    (decimal_point_digits : Z) (st : scratch) (out_string : list Z) :
  (5 <= length out_string)%nat ->
  let r := float_to_string past_end in_float decimal_point_digits st out_string in
  let text := cstring (snd r) in
  (exponent in_float = 255 -> mantissa in_float <> 0 -> text = str "NaN" /\ fst r = st) /\
  (exponent in_float = 0 -> mantissa in_float = 0 -> text = str "0.0" /\ fst r = st) /\
  (exponent in_float = 255 -> mantissa in_float = 0 -> sign in_float = 1 ->
     text = str "-Inf" /\ fst r = st) /\
  (exponent in_float = 255 -> mantissa in_float = 0 -> sign in_float = 0 ->
     text = str "Inf" /\ fst r = st).
Proof.
  intros Hlen r text. subst text r.
  destruct in_float as [m e s]; simpl in *.
  cells 5 out_string Hlen.
  unfold float_to_string, compare_isnan, float_is_zero; simpl.
  repeat split; intros; subst;
    repeat match goal with
           | H : ?m <> 0 |- _ => apply Z.eqb_neq in H; rewrite H
           end; reflexivity.
Qed.

Lemma float_to_string_special_witness :
  cstring (snd (float_to_string 0 (float_of_bits 0x7FC00000) 1 scratch_init (repeat 7 5)))
    = str "NaN"
  /\ cstring (snd (float_to_string 0 (float_of_bits 0x80000000) 2 scratch_init (repeat 7 5)))
    = str "0.0"
  /\ cstring (snd (float_to_string 0 (float_of_bits 0xFF800000) 3 scratch_init (repeat 7 5)))
    = str "-Inf"
  /\ cstring (snd (float_to_string 0 (float_of_bits 0x7F800000) 3 scratch_init (repeat 7 5)))
    = str "Inf".
Proof.
  split; [|split; [|split]].
  - apply (float_to_string_special 0 (float_of_bits 0x7FC00000) 1 scratch_init (repeat 7 5));
      [simpl; lia | reflexivity | discriminate].
  - apply (float_to_string_special 0 (float_of_bits 0x80000000) 2 scratch_init (repeat 7 5));
      [simpl; lia | reflexivity | reflexivity].
  - apply (float_to_string_special 0 (float_of_bits 0xFF800000) 3 scratch_init (repeat 7 5));
      [simpl; lia | reflexivity | reflexivity | reflexivity].
  - apply (float_to_string_special 0 (float_of_bits 0x7F800000) 3 scratch_init (repeat 7 5));
      [simpl; lia | reflexivity | reflexivity | reflexivity].
Defined.

(** ** mantissa_to_string reads nine bits *)

Lemma land_1_testbit (x : Z) : Z.land x 1 = Z.b2z (Z.testbit x 0).
Proof.
  change 1 with (Z.ones 1). rewrite Z.land_ones by lia.
  rewrite Z.bit0_mod. reflexivity.
Qed.

Lemma mantissa_scan_bits (m1 m2 : Z) :
  (forall i, 14 <= i -> Z.testbit m1 i = Z.testbit m2 i) ->
  forall fuel shifter temp_output fivecount,
    mantissa_scan fuel shifter m1 temp_output fivecount =
    mantissa_scan fuel shifter m2 temp_output fivecount.
Proof.
  intros Hbits. induction fuel as [|fuel IH]; intros shifter t f; simpl; auto.
  unfold int_cutoff. change (22 - 8) with 14.
  destruct (shifter <? 14) eqn:Hlt; auto.
  apply Z.ltb_ge in Hlt.
  rewrite !land_1_testbit, !Z.shiftr_spec by lia.
  rewrite (Hbits (0 + shifter)) by lia.
  destruct (shifter =? 14); auto.
Qed.

(** The mantissa cut down to the nine bits the loop reads, kept non-zero. *)
Lemma top9_bits (m : Z) :
  forall i, 14 <= i ->
    Z.testbit m i = Z.testbit (Z.lor (Z.shiftl (Z.shiftr m 14) 14) 1) i.
Proof.
  intros i Hi. rewrite Z.lor_spec, Z.shiftl_spec, Z.shiftr_spec by lia.
  replace (i - 14 + 14) with i by lia.
  replace (Z.testbit 1 i) with false; [now rewrite orb_false_r|].
  symmetry. change 1 with (Z.ones 1). apply Z.ones_spec_high. lia.
Qed.

Lemma top9_bits0 (m : Z) :
  forall i, 14 <= i ->
    Z.testbit m i = Z.testbit (Z.shiftl (Z.shiftr m 14) 14) i.
Proof.
  intros i Hi. rewrite Z.shiftl_spec, Z.shiftr_spec by lia.
  f_equal; lia.
Qed.

Lemma top9_nonzero (t : Z) : 0 <= t -> Z.lor (Z.shiftl t 14) 1 <> 0.
Proof.
  intros Ht H. apply Z.lor_eq_0_iff in H. lia.
Qed.

Lemma top9_range (m : Z) : 0 <= m < 8388608 -> 0 <= Z.shiftr m 14 < 512.
Proof.
  intros Hm. rewrite Z.shiftr_div_pow2 by lia.
  change (2 ^ 14) with 16384. split.
  - apply Z.div_pos; lia.
  - apply Z.div_lt_upper_bound; lia.
Qed.

Lemma mantissa_to_string_top9 (m d ea : Z) (arr : list Z) (off : nat) :
  m <> 0 -> 0 <= m ->
  mantissa_to_string m d ea arr off =
  mantissa_to_string (Z.lor (Z.shiftl (Z.shiftr m 14) 14) 1) d ea arr off.
Proof.
  intros Hm Hpos. unfold mantissa_to_string.
  assert (Ht : 0 <= Z.shiftr m 14) by (apply Z.shiftr_nonneg; lia).
  pose proof (top9_nonzero _ Ht) as Hnz.
  apply Z.eqb_neq in Hm, Hnz. rewrite Hm, Hnz.
  rewrite (mantissa_scan_bits m _ (top9_bits m)). reflexivity.
Qed.

Lemma float_to_string_top9 (past_end m e s d : Z) (st : scratch) (out : list Z) :
  m <> 0 -> 0 <= m ->
  float_to_string past_end (mkFloat m e s) d st out =
  float_to_string past_end (mkFloat (Z.lor (Z.shiftl (Z.shiftr m 14) 14) 1) e s) d st out.
Proof.
  intros Hm Hpos. unfold float_to_string, compare_isnan, float_is_zero.
  cbn [mantissa exponent sign].
  assert (Ht : 0 <= Z.shiftr m 14) by (apply Z.shiftr_nonneg; lia).
  pose proof (top9_nonzero _ Ht) as Hnz.
  rewrite <- !(mantissa_to_string_top9 m) by assumption.
  apply Z.eqb_neq in Hm, Hnz. rewrite Hm, Hnz. reflexivity.
Qed.

Lemma carry_flag_top9 (m d : Z) :
  m <> 0 -> 0 <= m ->
  carry_flag m d = carry_flag (Z.lor (Z.shiftl (Z.shiftr m 14) 14) 1) d.
Proof.
  intros. unfold carry_flag. now rewrite <- mantissa_to_string_top9.
Qed.

Lemma in_range_512 (t : Z) : 0 <= t < 512 -> In t (map Z.of_nat (seq 0 512)).
Proof.
  intros Ht. apply in_map_iff. exists (Z.to_nat t). split; [lia|].
  apply in_seq. lia.
Qed.

Lemma scan_check_all : forallb scan_check (map Z.of_nat (seq 0 512)) = true.
Proof. vm_compute. reflexivity. Qed.

Lemma mantissa_scan_value (m : Z) :
  0 <= m < 8388608 ->
  mantissa_scan 23 22 m 0 5 = Z.shiftr m 14 * 1953125.
Proof.
  intros Hm.
  rewrite (mantissa_scan_bits m _ (top9_bits0 m)).
  pose proof (proj1 (forallb_forall _ _) scan_check_all _
                (in_range_512 _ (top9_range m Hm))) as H.
  unfold scan_check in H. now apply Z.eqb_eq in H.
Qed.

(** The accumulator reads low by less than 0.002 and never high: in units
    of 10^-9 it is below the exact fraction [m / 2^23] by less than
    2000000. *)
Lemma mantissa_scan_low (m : Z) :
  0 <= m < 8388608 ->
  let acc := mantissa_scan 23 22 m 0 5 in
  acc * 8388608 <= m * 1000000000 < (acc + 2000000) * 8388608.
Proof.
  intros Hm acc. subst acc. rewrite mantissa_scan_value by assumption.
  rewrite Z.shiftr_div_pow2 by lia. change (2 ^ 14) with 16384.
  pose proof (Z.div_mod m 16384 ltac:(lia)) as Hdm.
  pose proof (Z.mod_pos_bound m 16384 ltac:(lia)) as Hr.
  lia.
Qed.

(** C6.  [float_to_string] of 5.0 (bits 0x40A00000) with three decimals
    gives "1.250x2^2", whose exact value is within 0.002 of 5; and for every
    mantissa the accumulator of the binary-to-decimal conversion is below
    the exact fraction by less than 0.002, never above it. *)
Theorem float_to_string_five (past_end : Z) (st : scratch) (out_string : list Z) :
  (12 <= length (temp_buffer_exp st))%nat ->
  (11 <= length (temp_buffer_mant st))%nat ->
  (14 <= length out_string)%nat ->
  let text :=
    cstring (snd (float_to_string past_end (float_of_bits 0x40A00000) 3 st out_string)) in
  text = str "1.250x2^2"
  /\ (exists q, reconstruct text = Some q /\ (Qabs (q - 5) <= 2 # 1000)%Q)
  /\ (forall m, 0 <= m < 8388608 ->
        let acc := mantissa_scan 23 22 m 0 5 in
        acc * 8388608 <= m * 1000000000 < (acc + 2000000) * 8388608).
Proof.
  intros He Hm Ho text.
  assert (Htext : text = str "1.250x2^2").
  { subst text. destruct st as [e m]; simpl in He, Hm.
    cells 12 e He. cells 11 m Hm. cells 14 out_string Ho. vm_compute. reflexivity. }
  split; [exact Htext|]. split.
  - rewrite Htext. eexists. split; [reflexivity|]. vm_compute. discriminate.
  - exact mantissa_scan_low.
Qed.

Lemma float_to_string_five_witness :
  cstring (snd (float_to_string 0 (float_of_bits 0x40A00000) 3 scratch_init (repeat 7 14)))
    = str "1.250x2^2".
Proof.
  apply (float_to_string_five 0 scratch_init (repeat 7 14)); simpl; lia.
Defined.

(** ** Subnormals *)

Lemma subnormal_check_all (past_end : Z) (st : scratch) (out : list Z) (d s : Z) :
  (12 <= length (temp_buffer_exp st))%nat ->
  (11 <= length (temp_buffer_mant st))%nat ->
  (14 <= length out)%nat ->
  (d = 1 \/ d = 2 \/ d = 3) -> (s = 0 \/ s = 1) ->
  forallb (subnormal_check past_end st out d s) (map Z.of_nat (seq 0 512)) = true.
Proof.
  intros He Hm Ho Hd Hs. destruct st as [e m]; simpl in He, Hm.
  cells 12 e He. cells 11 m Hm. cells 14 out Ho.
  destruct Hd as [-> | [-> | ->]]; destruct Hs as [-> | ->];
    vm_compute; reflexivity.
Qed.

(** C3 (amended).  For a subnormal input the exponent text is "-126"
    whether or not rounding carried; what the carry changes is the digit in
    front of the point, "0" without it and "1" with it. *)
Theorem float_to_string_subnormal (past_end : Z) (in_float : FLOAT_FORMAT_STRUCT)
    (decimal_point_digits : Z) (st : scratch) (out_string : list Z) :
  exponent in_float = 0 ->
  0 < mantissa in_float < 8388608 ->
  sign in_float = 0 \/ sign in_float = 1 ->
  1 <= decimal_point_digits <= 3 ->
  (12 <= length (temp_buffer_exp st))%nat ->
  (11 <= length (temp_buffer_mant st))%nat ->
  (14 <= length out_string)%nat ->
  let text :=
    cstring (snd (float_to_string past_end in_float decimal_point_digits st out_string)) in
  exponent_text text = str "-126"
  /\ leading_digit text =
       (if carry_flag (mantissa in_float) decimal_point_digits =? 0
        then chr "0" else chr "1").
Proof.
  intros Hexp Hmant Hsign Hd He Hm Ho text. subst text.
  destruct in_float as [m e s]; simpl in Hexp, Hmant, Hsign |- *. subst e.
  rewrite float_to_string_top9, carry_flag_top9 by lia.
  assert (Hd' : decimal_point_digits = 1 \/ decimal_point_digits = 2
                \/ decimal_point_digits = 3) by lia.
  pose proof (subnormal_check_all past_end st out_string _ _ He Hm Ho Hd' Hsign) as Hall.
  pose proof (proj1 (forallb_forall _ _) Hall _
                (in_range_512 _ (top9_range m ltac:(lia)))) as H.
  unfold subnormal_check in H. cbv zeta in H.
  apply andb_true_iff in H as [H1 H2].
  split; [now apply text_eqb_eq | now apply Z.eqb_eq].
Qed.

Lemma float_to_string_subnormal_witness :
  exponent_text
    (cstring (snd (float_to_string 0 (float_of_bits 0x007FFFFF) 2 scratch_init
                     (repeat 7 14)))) = str "-126".
Proof.
  apply (float_to_string_subnormal 0 (float_of_bits 0x007FFFFF) 2 scratch_init
           (repeat 7 14)); simpl; try lia; reflexivity.
Defined.

(** C3, as stated, fails: the largest subnormal rounded to two decimals
    carries, the smallest does not, and both render the exponent "-126". *)
Lemma float_to_string_subnormal_counterexample :
  let carried :=
    cstring (snd (float_to_string 0 (float_of_bits 0x007FFFFF) 2 scratch_init
                    (repeat 0 14))) in
  let plain :=
    cstring (snd (float_to_string 0 (float_of_bits 0x00000001) 2 scratch_init
                    (repeat 0 14))) in
  carry_flag (mantissa (float_of_bits 0x007FFFFF)) 2 = 1
  /\ carry_flag (mantissa (float_of_bits 0x00000001)) 2 = 0
  /\ carried = str "1.00x2^-126"
  /\ plain = str "0.00x2^-126"
  /\ ~ exponent_text carried <> exponent_text plain.
Proof.
  vm_compute. repeat split. intros H. now apply H.
Qed.

(** * Properties of print.c *)

Import Print PrintNotions.

(** ** A few runs

    The call main makes, and the usual conversions side by side. *)

Example render_tests :
  render (Some (str "Printf test! 0x%x" ++ [13; 10; 0])) 10 [VInt 1]
    = Done (str "Printf test! 0x1" ++ [13; 10], 18, [])
  /\ render (Some (str "%d|%5d|%-5d|%u|%o|%x|%X|%#x|%#o" ++ [0])) 10
       [VInt (-7); VInt 42; VInt 42; VInt (-1); VInt 8; VInt 255; VInt 255;
        VInt 255; VInt 8]
    = Done (str "-7|   42|42   |4294967295|10|ff|FF|0xff|010", 43, [])
  /\ render (Some (str "%s|%5s|%-5s|%.2s|%c|%%|%p" ++ [0])) 10
       [VStr None; VStr (Some (str "ab" ++ [0])); VStr (Some (str "ab" ++ [0]));
        VStr (Some (str "abcdef" ++ [0])); VInt 65; VPtr 4096]
    = Done (str "(null)|   ab|ab   |ab|A|%|0x1000", 32, [])
  /\ render (Some (str "%3D|%hhd|%hd%n" ++ [0])) 10
       [VStr (Some [1; 255; 16]); VStr (Some (str ":" ++ [0])); VInt 511;
        VInt 65537; VRef 0]
    = Done (str "01:ff:10|-1|1", 13, [(0, 13)]).
Proof. repeat split; vm_compute; reflexivity. Qed.

(** ** The engine does not look at its sink *)

Section Simulation.

Context {A1 A2 : Type}.
Variable f1 : Z -> A1 -> A1.
Variable f2 : Z -> A2 -> A2.
Variable R : kstate A1 -> kstate A2 -> Prop.
Hypothesis R_retval : forall k1 k2, R k1 k2 -> retval k1 = retval k2.
Hypothesis R_PCHAR : forall c k1 k2, R k1 k2 -> R (PCHAR f1 c k1) (PCHAR f2 c k2).

Lemma agree_bind {X1 X2 Y1 Y2 : Type} (P : X1 -> X2 -> Prop) (Q : Y1 -> Y2 -> Prop)
    (m1 : outcome X1) (m2 : outcome X2) (g1 : X1 -> outcome Y1) (g2 : X2 -> outcome Y2) :
  agree P m1 m2 ->
  (forall a b, P a b -> agree Q (g1 a) (g2 b)) ->
  agree Q (bind m1 g1) (bind m2 g2).
Proof.
  destruct m1, m2; simpl; intros H Hg; try contradiction; auto.
Qed.

Lemma agree_bind_same {X Y1 Y2 : Type} (Q : Y1 -> Y2 -> Prop)
    (m : outcome X) (g1 : X -> outcome Y1) (g2 : X -> outcome Y2) :
  (forall a, agree Q (g1 a) (g2 a)) ->
  agree Q (bind m g1) (bind m g2).
Proof.
  destruct m; simpl; auto.
Qed.

Lemma sim_PCHARS (text : list Z) : forall k1 k2,
  R k1 k2 -> R (PCHARS f1 text k1) (PCHARS f2 text k2).
Proof.
  induction text as [|c text IH]; simpl; auto.
Qed.

Lemma sim_PCHAR_n (cnt : nat) (c : Z) : forall k1 k2,
  R k1 k2 -> R (PCHAR_n f1 cnt c k1) (PCHAR_n f2 cnt c k2).
Proof.
  induction cnt as [|cnt IH]; simpl; auto.
Qed.

Lemma sim_space_loop (width : Z) (k1 : kstate A1) (k2 : kstate A2) :
  R k1 k2 ->
  fst (space_loop f1 width k1) = fst (space_loop f2 width k2) /\
  R (snd (space_loop f1 width k1)) (snd (space_loop f2 width k2)).
Proof.
  intros H. unfold space_loop. destruct (width >? 0); simpl; split; auto.
  now apply sim_PCHAR_n.
Qed.

Lemma sim_copy_literal (stop : bool) (fmt : list Z) : forall k1 k2,
  R k1 k2 ->
  agree_literal R (copy_literal f1 stop fmt k1) (copy_literal f2 stop fmt k2).
Proof.
  induction fmt as [|c fmt IH]; simpl; auto.
  intros k1 k2 H.
  destruct (negb (uchar c =? chr "%") || stop).
  - destruct (uchar c =? 0); simpl; auto.
  - simpl; auto.
Qed.

Lemma sim_conv_c (d : dstate) (ap : va_list) (k1 : kstate A1) (k2 : kstate A2) :
  R k1 k2 -> agree (agree_pair R) (conv_c f1 d ap k1) (conv_c f2 d ap k2).
Proof.
  intros H. unfold conv_c. apply agree_bind_same. intros [c ap']. simpl.
  split; auto.
  destruct (ladjust d); simpl;
    destruct (s32 (width d - 1) >? 0); simpl;
    auto using sim_PCHAR_n.
Qed.

Lemma sim_hexdump (cnt : nat) (p : option (list Z)) : forall up k1 k2,
  R k1 k2 -> agree R (hexdump f1 cnt up p k1) (hexdump f2 cnt up p k2).
Proof.
  induction cnt as [|cnt IH]; intros up k1 k2 H; simpl; auto.
  destruct up as [[|b up]|]; simpl; auto.
  destruct cnt as [|cnt'].
  - apply IH; auto.
  - destruct p as [sep|]; [|exact I].
    apply agree_bind_same. intros n. apply IH. apply sim_PCHARS; auto.
Qed.

Lemma sim_conv_D (d : dstate) (ap : va_list) (k1 : kstate A1) (k2 : kstate A2) :
  R k1 k2 -> agree (agree_pair R) (conv_D f1 d ap k1) (conv_D f2 d ap k2).
Proof.
  intros H. unfold conv_D.
  apply agree_bind_same. intros [up ap1].
  apply agree_bind_same. intros [p ap2].
  apply agree_bind with (P := R).
  - apply sim_hexdump; auto.
  - intros a b Hab. simpl. split; auto.
Qed.

Lemma sim_conv_s (d : dstate) (ap : va_list) (k1 : kstate A1) (k2 : kstate A2) :
  R k1 k2 -> agree (agree_pair R) (conv_s f1 d ap k1) (conv_s f2 d ap k2).
Proof.
  intros H. unfold conv_s.
  apply agree_bind_same. intros [p ap1].
  apply agree_bind_same. intros n. simpl. split; auto.
  destruct (ladjust d); simpl;
    destruct (s32 (width d - n) >? 0); simpl;
    auto using sim_PCHAR_n, sim_PCHARS.
Qed.

Lemma sim_name_emit (q : list Z) : forall k1 k2,
  R k1 k2 -> agree (agree_pair R) (name_emit f1 q k1) (name_emit f2 q k2).
Proof.
  induction q as [|c q IH]; intros k1 k2 H; simpl; auto.
  destruct (schar c >? chr " "); simpl; auto. split; auto.
Qed.

Lemma sim_bit_names (num tmp : Z) (fuel : nat) : forall q k1 k2,
  R k1 k2 ->
  agree R (bit_names f1 fuel q num tmp k1) (bit_names f2 fuel q num tmp k2).
Proof.
  induction fuel as [|fuel IH]; intros q k1 k2 H; simpl; auto.
  destruct q as [|c q]; simpl; auto.
  destruct (schar c =? 0); simpl; auto.
  destruct ((schar c - 1 <? 0) || (31 <? schar c - 1)); simpl; auto.
  destruct (negb (Z.land num (u32 (Z.shiftl 1 (schar c - 1))) =? 0)).
  - rewrite (R_retval _ _ H).
    apply agree_bind with (P := (agree_pair R)).
    + apply sim_name_emit. auto.
    + intros [q1 a] [q2 b] [Hq Hab]; simpl in *; subst. auto.
  - apply agree_bind_same. intros q'. auto.
Qed.

Lemma sim_number (d : dstate) (bconv : bool) (q : list Z) (num base : Z)
    (k1 : kstate A1) (k2 : kstate A2) :
  R k1 k2 ->
  agree R (number f1 d bconv q num base k1) (number f2 d bconv q num base k2).
Proof.
  intros H. unfold number.
  set (neg := sign d && (s32 num <? 0)).
  set (num' := if neg then u32 (- s32 num) else num).
  set (digits := ksprintn num' base (upper d)).
  set (tmp := if neg then _ else _).
  set (dw := if negb (ladjust d) && (padc d =? chr "0") then _ else _).
  set (w := s32 (width d - _)).
  cbv zeta.
  set (p1 := if negb (ladjust d) then space_loop f1 w k1 else (w, k1)).
  set (p2 := if negb (ladjust d) then space_loop f2 w k2 else (w, k2)).
  assert (Hp : fst p1 = fst p2 /\ R (snd p1) (snd p2)).
  { subst p1 p2. destruct (negb (ladjust d)); simpl; auto.
    now apply sim_space_loop. }
  destruct p1 as [w1 a], p2 as [w2 b]. simpl in Hp. destruct Hp as [-> Hab].
  set (a1 := PCHARS f1 _ _). set (b1 := PCHARS f2 _ _).
  assert (H1 : R a1 b1).
  { subst a1 b1. apply sim_PCHARS, sim_PCHAR_n.
    destruct (sharpflag d && negb (num' =? 0));
      [destruct (base =? 8); [|destruct (base =? 16)]|];
      destruct neg; auto. }
  apply agree_bind with (P := (agree_pair R)).
  - destruct (bconv && negb (num' =? 0)); [|simpl; split; auto].
    cbv zeta. rewrite (R_retval _ _ H1).
    apply agree_bind with (P := R).
    + apply sim_bit_names; auto.
    + intros a2 b2 H2. rewrite (R_retval _ _ H2).
      destruct (negb (retval b2 =? retval b1)); simpl; split; simpl; auto.
      now rewrite (R_retval _ _ H2).
  - intros [wa a2] [wb b2] [Hw H2]; simpl in *; subst.
    destruct (ladjust d); auto. now apply sim_space_loop.
Qed.

Lemma sim_handle_nosign (d : dstate) (bconv : bool) (base : Z) (fmt : list Z)
    (ap : va_list) (stored : list (Z * Z)) (k1 : kstate A1) (k2 : kstate A2) :
  R k1 k2 ->
  agree (agree_directive R)
    (handle_nosign f1 d bconv base fmt ap stored k1)
    (handle_nosign f2 d bconv base fmt ap stored k2).
Proof.
  intros H. unfold handle_nosign.
  apply agree_bind_same. intros [num ap1].
  destruct bconv.
  - apply agree_bind_same. intros [[[|b q]|] ap2]; simpl; auto.
    apply agree_bind with (P := R).
    + now apply sim_number.
    + intros; simpl; unfold agree_directive; simpl; auto.
  - apply agree_bind with (P := R).
    + now apply sim_number.
    + intros; simpl; unfold agree_directive; simpl; auto.
Qed.

Lemma sim_handle_sign (d : dstate) (base : Z) (fmt : list Z)
    (ap : va_list) (stored : list (Z * Z)) (k1 : kstate A1) (k2 : kstate A2) :
  R k1 k2 ->
  agree (agree_directive R)
    (handle_sign f1 d base fmt ap stored k1)
    (handle_sign f2 d base fmt ap stored k2).
Proof.
  intros H. unfold handle_sign.
  apply agree_bind_same. intros [num ap1].
  apply agree_bind with (P := R).
  - now apply sim_number.
  - intros; simpl; unfold agree_directive; simpl; auto.
Qed.

Lemma sim_reswitch (radix : Z) (percent : list Z) (fuel : nat) :
  forall fmt d ap stored k1 k2,
  R k1 k2 ->
  agree (agree_directive R)
    (reswitch f1 fuel radix percent fmt d ap stored k1)
    (reswitch f2 fuel radix percent fmt d ap stored k2).
Proof.
  induction fuel as [|fuel IH]; intros fmt d ap stored k1 k2 H; simpl; auto.
  destruct fmt as [|c fmt]; simpl; auto.
  assert (Hdone : forall fmt' ap' stop stored' a b, R a b ->
            agree (agree_directive R) (Done (mkDir fmt' ap' stop stored' a))
                  (Done (mkDir fmt' ap' stop stored' b))).
  { intros; simpl; unfold agree_directive; simpl; auto. }
  assert (Hpair : forall (m1 : outcome (va_list * kstate A1)) m2,
            agree (agree_pair R) m1 m2 ->
            agree (agree_directive R)
              (bind m1 (fun x => let '(ap, k) := x in Done (mkDir fmt ap false stored k)))
              (bind m2 (fun x => let '(ap, k) := x in Done (mkDir fmt ap false stored k)))).
  { intros m1 m2 Hm. apply agree_bind with (P := (agree_pair R)); auto.
    intros [ap1 a] [ap2 b] [Hap Hab]; simpl in *; subst. auto. }
  destruct (classify (uchar c));
    auto using sim_handle_nosign, sim_handle_sign, sim_conv_c, sim_conv_D, sim_conv_s,
      sim_PCHARS.
  - (* star *)
    apply agree_bind_same. intros [v ap1].
    destruct (negb (dot d)); [destruct (s32 v <? 0)|]; auto.
  - (* zero *)
    destruct ((uchar c =? chr "0") && negb (dot d)); auto.
    apply agree_bind_same. intros [n fmt']. auto.
  - (* digit *)
    destruct ((uchar c =? chr "0") && negb (dot d)); auto.
    apply agree_bind_same. intros [n fmt']. auto.
  - (* h *)
    destruct (hflag d); auto.
  - (* n *)
    apply agree_bind_same. intros [loc ap1]. rewrite (R_retval _ _ H). auto.
  - (* p *)
    apply agree_bind_same. intros [a ap1].
    apply agree_bind with (P := R); [now apply sim_number | auto].
  - (* r *)
    destruct (sign d); auto using sim_handle_nosign, sim_handle_sign.
Qed.

Lemma sim_kvloop (radix : Z) (fuel : nat) : forall fmt ap stop stored k1 k2,
  R k1 k2 ->
  agree (agree_pair R) (kvloop f1 fuel radix fmt ap stop stored k1)
               (kvloop f2 fuel radix fmt ap stop stored k2).
Proof.
  induction fuel as [|fuel IH]; intros fmt ap stop stored k1 k2 H; simpl; auto.
  pose proof (sim_copy_literal stop fmt k1 k2 H) as Hl.
  destruct (copy_literal f1 stop fmt k1) as [a|p1 a|],
           (copy_literal f2 stop fmt k2) as [b|p2 b|]; simpl in Hl; try contradiction;
    simpl; auto.
  - split; auto.
  - destruct Hl as [-> Hab].
    apply agree_bind with (P := agree_directive R).
    + now apply sim_reswitch.
    + intros r1 r2 (Hf & Hap & Hs & Hst & Hk). rewrite Hf, Hap, Hs, Hst. auto.
Qed.

Lemma sim_kvprintf (fmt : option (list Z)) (radix : Z) (ap : va_list)
    (arg1 : A1) (arg2 : A2) :
  R (mkK arg1 0) (mkK arg2 0) ->
  agree (agree_pair R) (kvprintf f1 fmt arg1 radix ap) (kvprintf f2 fmt arg2 radix ap).
Proof.
  intros H. unfold kvprintf. now apply sim_kvloop.
Qed.

End Simulation.

(** ** Machine integers *)

Lemma s32_small (z : Z) : INT_MIN <= z <= INT_MAX -> s32 z = z.
Proof.
  unfold INT_MIN, INT_MAX, s32. intros H. rewrite Z.mod_small; lia.
Qed.

Lemma s32_range (z : Z) : INT_MIN <= s32 z <= INT_MAX.
Proof.
  unfold INT_MIN, INT_MAX, s32.
  pose proof (Z.mod_pos_bound (z + 2147483648) 4294967296 ltac:(lia)). lia.
Qed.

Lemma s32_add_l (a b : Z) : s32 (s32 a + b) = s32 (a + b).
Proof.
  unfold s32.
  replace ((a + 2147483648) mod 4294967296 - 2147483648 + b + 2147483648)
    with ((a + 2147483648) mod 4294967296 + b) by lia.
  rewrite Zplus_mod_idemp_l. f_equal. f_equal. lia.
Qed.

(** ** From the kept text to any sink *)

Lemma pushed_keep {A : Type} (func : Z -> A -> A) (out : list Z) (c : Z) (arg : A) :
  pushed func (keep c out) arg = func c (pushed func out arg).
Proof.
  unfold pushed, keep. now rewrite fold_left_app.
Qed.

(** A call of [kvprintf] on any sink fails as the call on [keep] fails, or
    returns the same value and the same [%n] writes, the sink being what
    the kept text makes of it. *)
Lemma kvprintf_any_sink {A : Type} (func : Z -> A -> A) (fmt : option (list Z))
    (radix : Z) (ap : va_list) (arg : A) :
  agree (agree_pair (fun k1 k2 =>
           sink k2 = pushed func (sink k1) arg /\ retval k2 = retval k1))
    (kvprintf keep fmt [] radix ap) (kvprintf func fmt arg radix ap).
Proof.
  apply sim_kvprintf.
  - intros k1 k2 [_ H]. now symmetry.
  - intros c k1 k2 [Hs Hr]. unfold PCHAR; simpl. split.
    + rewrite Hs. symmetry. apply pushed_keep.
    + now rewrite Hr.
  - simpl. split; reflexivity.
Qed.

(** On [keep] the value returned is the length of the text, as an [int]. *)
Lemma kvprintf_keep_count (fmt : option (list Z)) (radix : Z) (ap : va_list)
    (stored : list (Z * Z)) (k : kstate (list Z)) :
  kvprintf keep fmt [] radix ap = Done (stored, k) ->
  retval k = s32 (Z.of_nat (length (sink k))).
Proof.
  intros H.
  pose proof (sim_kvprintf keep keep
    (fun k1 k2 => k1 = k2 /\ retval k1 = s32 (Z.of_nat (length (sink k1))))) as Hsim.
  specialize (Hsim ltac:(intros k1 k2 [-> _]; reflexivity)).
  assert (HP : forall c k1 k2,
             k1 = k2 /\ retval k1 = s32 (Z.of_nat (length (sink k1))) ->
             PCHAR keep c k1 = PCHAR keep c k2 /\
             retval (PCHAR keep c k1) =
               s32 (Z.of_nat (length (sink (PCHAR keep c k1))))).
  { intros c k1 k2 [-> Hr]. split; [reflexivity|].
    unfold PCHAR, keep; simpl. rewrite Hr, s32_add_l, length_app. simpl.
    f_equal. lia. }
  specialize (Hsim HP fmt radix ap [] [] ltac:(simpl; split; reflexivity)).
  rewrite H in Hsim. simpl in Hsim. destruct Hsim as [_ [_ Hr]]. exact Hr.
Qed.

(** ** kvprintf always comes to an end *)

Section Termination.

Context {A : Type}.
Variable func : Z -> A -> A.

Lemma bind_fuel {X Y : Type} (m : outcome X) (g : X -> outcome Y) :
  m <> OutOfFuel -> (forall a, m = Done a -> g a <> OutOfFuel) ->
  bind m g <> OutOfFuel.
Proof.
  destruct m; simpl; auto. discriminate.
Qed.

Lemma strlen_fuel (s : list Z) : strlen s <> OutOfFuel.
Proof.
  induction s as [|c s IH]; simpl; [discriminate|].
  destruct (uchar c =? 0); [discriminate|].
  apply bind_fuel; auto. discriminate.
Qed.

Lemma strnlen_fuel (p : list Z) : forall n dwidth, strnlen p n dwidth <> OutOfFuel.
Proof.
  induction p as [|c p IH]; intros n dwidth; simpl;
    destruct (n <? dwidth); try discriminate.
  destruct (uchar c =? 0); [discriminate | apply IH].
Qed.

Lemma va_int_fuel (ap : va_list) : va_int ap <> OutOfFuel.
Proof. destruct ap as [|[]]; discriminate. Qed.

Lemma va_str_fuel (ap : va_list) : va_str ap <> OutOfFuel.
Proof. destruct ap as [|[]]; discriminate. Qed.

Lemma va_ptr_fuel (ap : va_list) : va_ptr ap <> OutOfFuel.
Proof. destruct ap as [|[]]; discriminate. Qed.

Lemma va_ref_fuel (ap : va_list) : va_ref ap <> OutOfFuel.
Proof. destruct ap as [|[]]; discriminate. Qed.

Lemma scan_number_fuel (fmt : list Z) : forall n ch,
  scan_number fmt n ch <> OutOfFuel /\
  (forall n' fmt', scan_number fmt n ch = Done (n', fmt') ->
     (0 < length fmt' <= length fmt)%nat).
Proof.
  induction fmt as [|c fmt IH]; intros n ch; simpl.
  - split; [discriminate|]. intros; discriminate.
  - destruct ((schar c <? chr "0") || (schar c >? chr "9")).
    + split; [discriminate|]. intros n' fmt' H. injection H as _ <-. simpl. lia.
    + destruct (IH (s32 (n * 10 + ch - chr "0")) (schar c)) as [H1 H2].
      split; [exact H1|]. intros n' fmt' H. specialize (H2 _ _ H). lia.
Qed.

Lemma name_emit_fuel (q : list Z) : forall k,
  name_emit func q k <> OutOfFuel /\
  (forall q' k', name_emit func q k = Done (q', k') -> (length q' <= length q)%nat).
Proof.
  induction q as [|c q IH]; intros k; simpl.
  - split; [discriminate|]. intros; discriminate.
  - destruct (schar c >? chr " ").
    + destruct (IH (PCHAR func (schar c) k)) as [H1 H2].
      split; [exact H1|]. intros q' k' H. specialize (H2 _ _ H). lia.
    + split; [discriminate|]. intros q' k' H. injection H as <- _. simpl. lia.
Qed.

Lemma name_skip_fuel (q : list Z) :
  name_skip q <> OutOfFuel /\
  (forall q', name_skip q = Done q' -> (length q' <= length q)%nat).
Proof.
  induction q as [|c q IH]; simpl.
  - split; [discriminate|]. intros; discriminate.
  - destruct (schar c >? chr " ").
    + destruct IH as [H1 H2].
      split; [exact H1|]. intros q' H. specialize (H2 _ H). lia.
    + split; [discriminate|]. intros q' H. injection H as <-. simpl. lia.
Qed.

Lemma bit_names_fuel (num tmp : Z) (fuel : nat) : forall q k,
  (length q < fuel)%nat -> bit_names func fuel q num tmp k <> OutOfFuel.
Proof.
  induction fuel as [|fuel IH]; intros q k Hlen; [lia|]. simpl.
  destruct q as [|c q]; [discriminate|]. simpl in Hlen.
  destruct (schar c =? 0); [discriminate|].
  destruct ((schar c - 1 <? 0) || (31 <? schar c - 1)); [discriminate|].
  destruct (negb (Z.land num (u32 (Z.shiftl 1 (schar c - 1))) =? 0)).
  - apply bind_fuel; [apply name_emit_fuel|].
    intros [q' k'] H. apply IH.
    apply name_emit_fuel in H. lia.
  - apply bind_fuel; [apply name_skip_fuel|].
    intros q' H. apply IH. apply name_skip_fuel in H. lia.
Qed.

Lemma hexdump_fuel (p : option (list Z)) (cnt : nat) : forall up k,
  hexdump func cnt up p k <> OutOfFuel.
Proof.
  induction cnt as [|cnt IH]; intros up k; simpl; [discriminate|].
  destruct up as [[|b up]|]; try discriminate.
  destruct cnt as [|cnt']; [apply IH|].
  destruct p as [sep|]; [|discriminate].
  apply bind_fuel; [apply strlen_fuel|]. intros n _. apply IH.
Qed.

Lemma number_fuel (d : dstate) (bconv : bool) (q : list Z) (num base : Z)
    (k : kstate A) : number func d bconv q num base k <> OutOfFuel.
Proof.
  unfold number. cbv zeta.
  destruct (if negb (ladjust d) then _ else _) as [w k0].
  apply bind_fuel; [|intros [w' k'] _; discriminate].
  destruct (bconv && _); [|discriminate].
  apply bind_fuel; [apply bit_names_fuel; lia|].
  intros k' _. destruct (negb _); discriminate.
Qed.

Lemma settles_bind {X : Type} (bound : nat) (m : outcome X)
    (g : X -> outcome (directive A)) :
  m <> OutOfFuel -> (forall a, settles bound (g a)) -> settles bound (bind m g).
Proof.
  intros Hm Hg. destruct m; simpl; auto.
  - split; [discriminate | intros; discriminate].
  - contradiction.
Qed.

Lemma settles_done (bound : nat) (r : directive A) :
  (length (d_fmt r) <= bound)%nat -> settles bound (Done r).
Proof.
  intros H. split; [discriminate|]. intros r' Hr. injection Hr as <-. exact H.
Qed.

Lemma settles_undefined (bound : nat) : settles bound (@Undefined (directive A)).
Proof.
  split; [discriminate | intros; discriminate].
Qed.

Lemma settles_mono (n m : nat) (o : outcome (directive A)) :
  (n <= m)%nat -> settles n o -> settles m o.
Proof.
  intros Hnm [H1 H2]. split; auto. intros r Hr. specialize (H2 r Hr). lia.
Qed.

Lemma handle_nosign_settles (d : dstate) (bconv : bool) (base : Z) (fmt : list Z)
    (ap : va_list) (stored : list (Z * Z)) (k : kstate A) :
  settles (length fmt) (handle_nosign func d bconv base fmt ap stored k).
Proof.
  unfold handle_nosign, arg_nosign.
  apply settles_bind; [apply bind_fuel; [apply va_int_fuel | intros [? ?] _; discriminate]|].
  intros [num ap1]. destruct bconv.
  - apply settles_bind; [apply va_str_fuel|].
    intros [[[|b q]|] ap2]; try apply settles_undefined.
    apply settles_bind; [apply number_fuel|].
    intros k'. now apply settles_done.
  - apply settles_bind; [apply number_fuel|].
    intros k'. now apply settles_done.
Qed.

Lemma handle_sign_settles (d : dstate) (base : Z) (fmt : list Z)
    (ap : va_list) (stored : list (Z * Z)) (k : kstate A) :
  settles (length fmt) (handle_sign func d base fmt ap stored k).
Proof.
  unfold handle_sign, arg_sign.
  apply settles_bind; [apply bind_fuel; [apply va_int_fuel | intros [? ?] _; discriminate]|].
  intros [num ap1].
  apply settles_bind; [apply number_fuel|].
  intros k'. now apply settles_done.
Qed.

Lemma conv_c_fuel (d : dstate) (ap : va_list) (k : kstate A) :
  conv_c func d ap k <> OutOfFuel.
Proof.
  unfold conv_c. apply bind_fuel; [apply va_int_fuel|]. intros [? ?] _. discriminate.
Qed.

Lemma conv_D_fuel (d : dstate) (ap : va_list) (k : kstate A) :
  conv_D func d ap k <> OutOfFuel.
Proof.
  unfold conv_D. apply bind_fuel; [apply va_str_fuel|]. intros [up ap1] _.
  apply bind_fuel; [apply va_str_fuel|]. intros [p ap2] _.
  apply bind_fuel; [apply hexdump_fuel|]. intros; discriminate.
Qed.

Lemma conv_s_fuel (d : dstate) (ap : va_list) (k : kstate A) :
  conv_s func d ap k <> OutOfFuel.
Proof.
  unfold conv_s. apply bind_fuel; [apply va_str_fuel|]. intros [p ap1] _.
  apply bind_fuel; [|intros; discriminate].
  destruct (negb (dot d)); [|apply strnlen_fuel].
  apply bind_fuel; [apply strlen_fuel | intros; discriminate].
Qed.

Lemma reswitch_settles (radix : Z) (percent : list Z) (fuel : nat) :
  forall fmt d ap stored k,
  (length fmt < fuel)%nat ->
  settles (pred (length fmt)) (reswitch func fuel radix percent fmt d ap stored k).
Proof.
  induction fuel as [|fuel IH]; intros fmt d ap stored k Hlen; [lia|]. simpl.
  destruct fmt as [|c fmt]; [apply settles_undefined|]. simpl in Hlen |- *.
  assert (Hagain : forall d ap stored k,
            settles (length fmt) (reswitch func fuel radix percent fmt d ap stored k)).
  { intros. eapply settles_mono; [|apply IH; lia]. lia. }
  assert (Hpair : forall (m : outcome (va_list * kstate A)),
            m <> OutOfFuel ->
            settles (length fmt)
              (bind m (fun x => let '(ap, k) := x in Done (mkDir fmt ap false stored k)))).
  { intros m Hm. apply settles_bind; auto. intros [? ?]. now apply settles_done. }
  destruct (classify (uchar c));
    auto using handle_nosign_settles, handle_sign_settles, conv_c_fuel, conv_D_fuel,
      conv_s_fuel;
    try (now apply settles_done).
  - (* star *)
    apply settles_bind; [apply va_int_fuel|]. intros [v ap1].
    destruct (negb (dot d)); [destruct (s32 v <? 0)|]; auto.
  - (* zero *)
    destruct ((uchar c =? chr "0") && negb (dot d)); auto.
    destruct (scan_number_fuel fmt 0 (uchar c)) as [H1 H2].
    destruct (scan_number fmt 0 (uchar c)) as [[n fmt']| |]; simpl;
      [|apply settles_undefined|contradiction].
    specialize (H2 _ _ eq_refl).
    eapply settles_mono; [|apply IH; lia]. lia.
  - (* digit *)
    destruct ((uchar c =? chr "0") && negb (dot d)); auto.
    destruct (scan_number_fuel fmt 0 (uchar c)) as [H1 H2].
    destruct (scan_number fmt 0 (uchar c)) as [[n fmt']| |]; simpl;
      [|apply settles_undefined|contradiction].
    specialize (H2 _ _ eq_refl).
    eapply settles_mono; [|apply IH; lia]. lia.
  - (* h *)
    destruct (hflag d); auto.
  - (* n *)
    apply settles_bind; [apply va_ref_fuel|]. intros [loc ap1]. now apply settles_done.
  - (* p *)
    apply settles_bind; [apply va_ptr_fuel|]. intros [a ap1].
    apply settles_bind; [apply number_fuel|]. intros k'. now apply settles_done.
  - (* r *)
    destruct (sign d); auto using handle_nosign_settles, handle_sign_settles.
Qed.

Lemma copy_literal_percent (stop : bool) (fmt : list Z) : forall k percent k',
  copy_literal func stop fmt k = LitPercent percent k' ->
  (0 < length percent <= length fmt)%nat.
Proof.
  induction fmt as [|c fmt IH]; intros k percent k'; simpl; [discriminate|].
  destruct (negb (uchar c =? chr "%") || stop).
  - destruct (uchar c =? 0); [discriminate|].
    intros H. apply IH in H. lia.
  - intros H. injection H as <- _. simpl. lia.
Qed.

Lemma kvloop_fuel (radix : Z) (fuel : nat) : forall fmt ap stop stored k,
  (length fmt < fuel)%nat ->
  kvloop func fuel radix fmt ap stop stored k <> OutOfFuel.
Proof.
  induction fuel as [|fuel IH]; intros fmt ap stop stored k Hlen; [lia|]. simpl.
  destruct (copy_literal func stop fmt k) as [k'|percent k'|] eqn:Hl; try discriminate.
  apply copy_literal_percent in Hl.
  destruct percent as [|c fmt']; [simpl in Hl; lia|]. simpl in Hl |- *.
  destruct (reswitch_settles radix (c :: fmt') (S (length fmt')) fmt' dstate_init
              ap stored k' ltac:(lia)) as [H1 H2].
  apply bind_fuel; [exact H1|].
  intros r Hr. apply IH. specialize (H2 r Hr). lia.
Qed.

(** [kvprintf] never runs out of the fuel the embedding gives it: every
    call ends, with a result or in undefined behaviour. *)
Lemma kvprintf_ends (fmt : option (list Z)) (arg : A) (radix : Z) (ap : va_list) :
  kvprintf func fmt arg radix ap <> OutOfFuel.
Proof.
  unfold kvprintf. apply kvloop_fuel. lia.
Qed.

End Termination.

(** ** The bounded sink *)

Lemma store_length (l : list Z) : forall i v, length (store l i v) = length l.
Proof.
  induction l as [|h l IH]; intros [|i] v; simpl; auto.
Qed.

Lemma store_app_at (l1 l2 : list Z) (x v : Z) :
  store (l1 ++ x :: l2) (length l1) v = l1 ++ v :: l2.
Proof.
  induction l1 as [|h l1 IH]; simpl; [reflexivity | now rewrite IH].
Qed.

Lemma stores_app_at (text : list Z) : forall l1 l2,
  (length text <= length l2)%nat ->
  stores (l1 ++ l2) (length l1) text = l1 ++ text ++ skipn (length text) l2.
Proof.
  induction text as [|c text IH]; intros l1 l2 Hlen; simpl; [reflexivity|].
  destruct l2 as [|x l2]; simpl in Hlen; [lia|].
  rewrite store_app_at.
  replace (l1 ++ c :: l2) with ((l1 ++ [c]) ++ l2) by now rewrite <- app_assoc.
  replace (S (length l1)) with (length (l1 ++ [c])) by (rewrite length_app; simpl; lia).
  rewrite IH by lia. now rewrite <- app_assoc.
Qed.

(** What [snprintf_func] has made of its argument after a text: the first
    [remain - 1] characters are stored, the rest dropped. *)
Lemma pushed_snprintf_func (out : list Z) : forall b p r,
  1 <= r < 4294967296 ->
  let kept := firstn (Z.to_nat (r - 1)) out in
  pushed snprintf_func out (mkArg b p r) =
  mkArg (stores b p (map schar kept)) (p + length kept) (r - Z.of_nat (length kept)).
Proof.
  induction out as [|c out IH]; intros b p r Hr kept; subst kept.
  - rewrite firstn_nil. simpl. f_equal; lia.
  - unfold pushed in *. simpl fold_left. unfold snprintf_func at 2. simpl.
    destruct (r >=? 2) eqn:Hge.
    + assert (2 <= r) by (apply Z.geb_le in Hge; lia).
      assert (Hu : u32 (r - 1) = r - 1) by (unfold u32; apply Z.mod_small; lia).
      rewrite Hu, IH by lia.
      replace (Z.to_nat (r - 1)) with (S (Z.to_nat (r - 1 - 1))) by lia.
      simpl. f_equal; lia.
    + assert (r = 1) by (rewrite Z.geb_leb in Hge; apply Z.leb_gt in Hge; lia). subst r.
      rewrite IH by lia. simpl. reflexivity.
Qed.

(** C1.  For a destination of capacity [size >= 1]: whenever the format
    and its arguments render at all, [vsnprintf] returns the length [M] of
    the fully rendered text (as the [int] it is, so [M] itself up to
    INT_MAX), whatever [size] is; when [M > size - 1] the destination holds
    the first [size - 1] characters of that text and then one NUL, the cells
    behind being left alone; otherwise the whole text and one NUL.  When
    rendering is undefined, so is the call; the embedding's fuel never runs
    out. *)
Theorem vsnprintf_truncation (str : list Z) (size : Z) (format : option (list Z))
    (ap : va_list) :
  1 <= size < 4294967296 ->
  (Z.to_nat size <= length str)%nat ->
  match render format 10 ap with
  | Done (out, ret, stored) =>
      let M := Z.of_nat (length out) in
      ret = s32 M /\ (M <= INT_MAX -> ret = M) /\
      exists str',
        vsnprintf str size format ap = Done (str', ret, stored) /\
        (M > size - 1 ->
           str' = map schar (firstn (Z.to_nat (size - 1)) out)
                    ++ 0 :: skipn (Z.to_nat size) str) /\
        (M <= size - 1 ->
           str' = map schar out ++ 0 :: skipn (S (length out)) str)
  | Undefined => vsnprintf str size format ap = Undefined
  | OutOfFuel => False
  end.
Proof.
  intros Hsize Hlen.
  pose proof (kvprintf_any_sink snprintf_func format 10 ap (mkArg str 0 size)) as Hsim.
  pose proof (kvprintf_keep_count format 10 ap) as Hcount.
  pose proof (kvprintf_ends keep format [] 10 ap) as Hends.
  unfold render, vsnprintf.
  destruct (kvprintf keep format [] 10 ap) as [[stored k]| |];
    destruct (kvprintf snprintf_func format (mkArg str 0 size) 10 ap)
      as [[stored' k']| |]; cbn [agree] in Hsim; try contradiction;
    cbn [bind]; auto.
  destruct Hsim as [Hst [Hsink Hret]]. cbn [fst snd] in Hst, Hsink, Hret.
  subst stored'.
  specialize (Hcount _ _ eq_refl).
  split; [exact Hcount|].
  split; [intros HM; rewrite Hcount; apply s32_small; unfold INT_MIN, INT_MAX in *; lia|].
  rewrite Hsink, Hret, pushed_snprintf_func by lia. cbn [buf pos remain Nat.add].
  set (out := sink k) in *.
  set (kept := firstn (Z.to_nat (size - 1)) out).
  assert (Hkept : (length kept <= Z.to_nat (size - 1))%nat).
  { subst kept. rewrite length_firstn. lia. }
  assert (Hge : (size - Z.of_nat (length kept) >=? 1) = true).
  { rewrite Z.geb_leb. apply Z.leb_le. lia. }
  rewrite Hge.
  assert (Hstr : store (stores str 0 (map schar kept)) (length kept) 0 =
                 map schar kept ++ 0 :: skipn (S (length kept)) str).
  { pose proof (stores_app_at (map schar kept) [] str) as Hs. simpl in Hs.
    rewrite length_map in Hs. rewrite Hs by lia.
    assert (Hsk : (length kept < length str)%nat) by lia.
    destruct (skipn (length kept) str) as [|x rest] eqn:Hskip.
    { apply (f_equal (@length Z)) in Hskip. rewrite length_skipn in Hskip.
      simpl in Hskip. lia. }
    rewrite <- (length_map schar kept) at 1. rewrite store_app_at.
    f_equal. f_equal.
    replace (S (length kept)) with (1 + length kept)%nat by lia.
    rewrite <- skipn_skipn, Hskip. reflexivity. }
  eexists. split; [reflexivity|]. rewrite Hstr. split; intros HM.
  - assert (length kept = Z.to_nat (size - 1)).
    { subst kept. rewrite length_firstn. lia. }
    replace (S (length kept)) with (Z.to_nat size) by lia. reflexivity.
  - assert (kept = out).
    { subst kept. apply firstn_all2. lia. }
    congruence.
Qed.

Lemma vsnprintf_truncation_witness :
  exists str',
    vsnprintf (repeat 1 6) 4 (Some (str "hello %d" ++ [0])) [VInt 5]
      = Done (str', 7, [])
    /\ str' = str "hel" ++ [0; 1; 1].
Proof.
  pose proof (vsnprintf_truncation (repeat 1 6) 4 (Some (str "hello %d" ++ [0]))
                [VInt 5] ltac:(lia) ltac:(simpl; lia)) as H.
  set (r := render _ _ _) in H. vm_compute in r. subst r. cbv beta iota zeta in H.
  destruct H as (_ & _ & s & Hs & Hcut & _).
  exists s. split; [exact Hs|]. rewrite Hcut by reflexivity. reflexivity.
Defined.

(** ** Characters *)

Lemma schar_uchar (a : Z) :
  schar a = if uchar a <? 128 then uchar a else uchar a - 256.
Proof.
  unfold schar, uchar.
  pose proof (Z.mod_pos_bound a 256 ltac:(lia)) as Hb.
  rewrite <- Zplus_mod_idemp_l.
  destruct (a mod 256 <? 128) eqn:H.
  - apply Z.ltb_lt in H. rewrite Z.mod_small by lia. lia.
  - apply Z.ltb_ge in H.
    replace (a mod 256 + 128) with ((a mod 256 - 128) + 1 * 256) by lia.
    rewrite Z.mod_add by lia. rewrite Z.mod_small by lia. lia.
Qed.

Lemma uchar_uchar (a : Z) : uchar (uchar a) = uchar a.
Proof. unfold uchar. apply Z.mod_mod. lia. Qed.

Lemma uchar_schar (a : Z) : uchar (schar a) = uchar a.
Proof.
  rewrite schar_uchar.
  pose proof (Z.mod_pos_bound a 256 ltac:(lia)) as Hb. fold (uchar a) in Hb.
  destruct (uchar a <? 128).
  - apply uchar_uchar.
  - unfold uchar at 1. replace (uchar a - 256) with (uchar a + (-1) * 256) by lia.
    rewrite Z.mod_add by lia. apply uchar_uchar.
Qed.

Lemma uchar_small (a : Z) : 0 <= a < 256 -> uchar a = a.
Proof. intros H. unfold uchar. now apply Z.mod_small. Qed.

Lemma schar_small (a : Z) : 0 <= a < 128 -> schar a = a.
Proof.
  intros H. rewrite schar_uchar, uchar_small by lia.
  destruct (a <? 128) eqn:E; [reflexivity | apply Z.ltb_ge in E; lia].
Qed.

(** A character is a digit for the digit loop (which reads a plain
    [char]) exactly when it is one for the [switch] (which reads an
    [unsigned char]). *)
Lemma schar_digit (a : Z) :
  (schar a <? chr "0") || (schar a >? chr "9") = false ->
  48 <= uchar a <= 57 /\ schar a = uchar a.
Proof.
  change (chr "0") with 48. change (chr "9") with 57.
  rewrite schar_uchar. intros H.
  apply orb_false_iff in H as [H1 H2].
  apply Z.ltb_ge in H1. rewrite Z.gtb_ltb in H2. apply Z.ltb_ge in H2.
  pose proof (Z.mod_pos_bound a 256 ltac:(lia)) as Hb. fold (uchar a) in Hb.
  destruct (uchar a <? 128); lia.
Qed.

Ltac chr_values :=
  repeat match goal with
         | |- context [chr ?a] =>
             let v := eval vm_compute in (chr a) in change (chr a) with v
         | H : context [chr ?a] |- _ =>
             let v := eval vm_compute in (chr a) in change (chr a) with v in H
         end.

Lemma classify_digit (x : Z) :
  48 <= x <= 57 -> classify x = TZero \/ classify x = TDigit.
Proof.
  intros H. unfold classify. chr_values.
  repeat match goal with
         | |- context [?a =? ?b] => destruct (Z.eqb_spec a b); [lia|]
         end.
  destruct (Z.eqb_spec x 48); auto.
  destruct (Z.leb_spec 49 x); [|lia]. destruct (Z.leb_spec x 57); [|lia].
  simpl. auto.
Qed.

Lemma classify_not_digit (x : Z) :
  classify x <> TZero -> classify x <> TDigit -> ~ 48 <= x <= 57.
Proof.
  intros H0 H1 H. destruct (classify_digit x H); contradiction.
Qed.

(** ** Text going through PCHAR *)

Section Lockout.

Context {A : Type}.
Variable func : Z -> A -> A.

Lemma PCHARS_app (a b : list Z) : forall k,
  PCHARS func (a ++ b) k = PCHARS func b (PCHARS func a k).
Proof.
  induction a as [|c a IH]; intros k; simpl; auto.
Qed.

Lemma copy_literal_text (lit rest : list Z) : forall k,
  Forall (fun x => uchar x <> 0 /\ uchar x <> chr "%") lit ->
  copy_literal func false (lit ++ rest) k =
  copy_literal func false rest (PCHARS func (map uchar lit) k).
Proof.
  induction lit as [|c lit IH]; intros k Hlit; simpl; [reflexivity|].
  inversion Hlit as [|? ? [H0 Hp] Hrest]; subst.
  apply Z.eqb_neq in H0, Hp. rewrite H0, Hp. simpl. now apply IH.
Qed.

Lemma copy_literal_stop (rest : list Z) (z : Z) (tail : list Z) : forall k,
  Forall (fun x => uchar x <> 0) rest -> uchar z = 0 ->
  copy_literal func true (rest ++ z :: tail) k =
  LitEnd (PCHARS func (map uchar rest) k).
Proof.
  induction rest as [|c rest IH]; intros k Hrest Hz; simpl.
  - rewrite Hz, orb_true_r. reflexivity.
  - inversion Hrest as [|? ? H0 Hr]; subst.
    apply Z.eqb_neq in H0. rewrite H0, orb_true_r. now apply IH.
Qed.

(** ** An unsupported conversion *)

Lemma skip_stars_digit (a : Z) (flags : list Z) (ap : va_list) :
  48 <= uchar a <= 57 -> skip_stars (a :: flags) ap = skip_stars flags ap.
Proof.
  intros H. simpl. destruct (classify_digit _ H) as [-> | ->]; reflexivity.
Qed.

Lemma scan_number_flags (c : Z) (rest : list Z) (ap : va_list) (flags : list Z) :
  unsupported c ->
  forall n ch,
  exists n' flags',
    scan_number (flags ++ c :: rest) n ch = Done (n', flags' ++ c :: rest)
    /\ (length flags' <= length flags)%nat
    /\ (Forall (fun x => is_modifier x = true) flags ->
        Forall (fun x => is_modifier x = true) flags')
    /\ skip_stars flags' ap = skip_stars flags ap.
Proof.
  intros [Hc Hc0]. induction flags as [|a flags IH]; intros n ch; simpl.
  - destruct ((schar c <? chr "0") || (schar c >? chr "9")) eqn:Hd.
    + exists (s32 (n * 10 + ch - chr "0")), []. simpl. auto.
    + apply schar_digit in Hd as [Hd _].
      destruct (classify_digit _ Hd); congruence.
  - destruct ((schar a <? chr "0") || (schar a >? chr "9")) eqn:Hd.
    + exists (s32 (n * 10 + ch - chr "0")), (a :: flags). simpl. auto.
    + apply schar_digit in Hd as [Hd _].
      destruct (IH (s32 (n * 10 + ch - chr "0")) (schar a))
        as (n' & flags' & Hs & Hlen & Hmod & Hst).
      exists n', flags'. split; [exact Hs|]. split; [lia|]. split.
      * intros Hall. inversion Hall; auto.
      * rewrite Hst. destruct (classify_digit _ Hd) as [-> | ->]; reflexivity.
Qed.

Lemma reswitch_unsupported (radix : Z) (percent : list Z) (c : Z) (rest : list Z) :
  unsupported c ->
  forall fuel flags d ap ap' stored k,
  (length flags < fuel)%nat ->
  Forall (fun x => is_modifier x = true) flags ->
  skip_stars flags ap = Some ap' ->
  reswitch func fuel radix percent (flags ++ c :: rest) d ap stored k =
  Done (mkDir rest ap' true stored
          (PCHARS func
             (map schar (firstn (length percent - length rest) percent)) k)).
Proof.
  intros Hc. induction fuel as [|fuel IH]; intros flags d ap ap' stored k Hlen Hmod Hst;
    [lia|].
  destruct flags as [|a flags].
  - simpl. destruct Hc as [-> _]. simpl in Hst. injection Hst as <-. reflexivity.
  - simpl in Hlen. inversion Hmod as [|? ? Ha Hflags]; subst.
    assert (Hnext : forall d ap ap',
              skip_stars flags ap = Some ap' ->
              reswitch func fuel radix percent (flags ++ c :: rest) d ap stored k =
              Done (mkDir rest ap' true stored
                      (PCHARS func
                         (map schar (firstn (length percent - length rest) percent)) k))).
    { intros. apply IH; auto. lia. }
    assert (Hscan : forall d0,
              skip_stars flags ap = Some ap' ->
              bind (scan_number (flags ++ c :: rest) 0 (uchar a))
                (fun x => let '(n, fmt) := x in
                   reswitch func fuel radix percent fmt
                     (if dot d then set_dwidth n d0 else set_width n d0) ap stored k) =
              Done (mkDir rest ap' true stored
                      (PCHARS func
                         (map schar (firstn (length percent - length rest) percent)) k))).
    { intros d0 Hs.
      destruct (scan_number_flags c rest ap flags Hc 0 (uchar a))
        as (n' & flags' & Hsc & Hl & Hm & Hss).
      rewrite Hsc. simpl. apply IH; auto; [lia | congruence]. }
    simpl app. cbn [reswitch].
    unfold is_modifier in Ha. simpl in Hst.
    destruct (classify (uchar a)) eqn:E; try discriminate; auto.
    + (* star *)
      destruct ap as [|[v| | |] ap1]; try discriminate. simpl.
      destruct (negb (dot d)); [destruct (s32 v <? 0)|]; auto.
    + (* zero *)
      destruct ((uchar a =? chr "0") && negb (dot d)); auto.
    + (* digit *)
      destruct ((uchar a =? chr "0") && negb (dot d)); auto.
    + (* h *)
      destruct (hflag d); auto.
Qed.

End Lockout.

Lemma firstn_prefix {X : Type} (p r : list X) :
  firstn (length (p ++ r) - length r) (p ++ r) = p.
Proof.
  rewrite length_app. replace (length p + length r - length r)%nat with (length p) by lia.
  replace (length p) with (length p + 0)%nat by lia.
  rewrite firstn_app_2. simpl. apply app_nil_r.
Qed.

(** C2.  A format that reaches, not yet locked out, a directive made of
    modifiers [flags] and a conversion character [c] the switch does not
    know: the text before it is rendered, then the directive is emitted as
    it stands, [c] included, and everything behind it up to the terminator
    is copied through, [%] sequences and all, with no further argument
    taken beyond those of the [*] modifiers.  This holds for the loop of
    [kvprintf] entered in any state, hence also behind earlier directives,
    and for [kvprintf] itself; byte for byte the text emitted is the
    format's. *)
Theorem kvprintf_lockout {A : Type} (func : Z -> A -> A) (radix : Z)
    (lit flags : list Z) (c : Z) (rest tail : list Z) (ap ap' : va_list) :
  Forall (fun x => uchar x <> 0 /\ uchar x <> chr "%") lit ->
  Forall (fun x => is_modifier x = true) flags ->
  unsupported c ->
  Forall (fun x => uchar x <> 0) rest ->
  skip_stars flags ap = Some ap' ->
  let fmt := lit ++ chr "%" :: flags ++ c :: rest ++ 0 :: tail in
  let text := map uchar lit ++ map schar (chr "%" :: flags ++ [c]) ++ map uchar rest in
  (forall fuel stored k, (length fmt < fuel)%nat ->
     kvloop func fuel radix fmt ap false stored k =
     Done (stored, PCHARS func text k))
  /\ (forall arg,
        kvprintf func (Some fmt) arg radix ap =
        Done ([], PCHARS func text (mkK arg 0)))
  /\ map uchar text = map uchar (lit ++ chr "%" :: flags ++ c :: rest).
Proof.
  intros Hlit Hflags Hc Hrest Hstars fmt text.
  assert (Hloop : forall radix fuel stored k, (length fmt < fuel)%nat ->
            kvloop func fuel radix fmt ap false stored k =
            Done (stored, PCHARS func text k)).
  { clear radix. intros radix fuel stored k Hfuel. subst fmt text.
    destruct fuel as [|fuel]; [lia|]. cbn [kvloop].
    rewrite copy_literal_text by assumption.
    cbn [copy_literal]. change (uchar (chr "%") =? chr "%") with true.
    cbn [negb orb tl].
    set (R := rest ++ 0 :: tail).
    set (percent := chr "%" :: flags ++ c :: R).
    rewrite (reswitch_unsupported func radix percent c R Hc (length percent) flags
               dstate_init ap ap' stored _)
      by (subst percent; simpl; rewrite ?length_app; simpl; auto; lia).
    cbn [bind d_fmt d_ap d_stop d_stored d_k].
    destruct fuel as [|fuel].
    { rewrite !length_app in Hfuel. simpl in Hfuel. lia. }
    cbn [kvloop]. subst R.
    rewrite copy_literal_stop by (auto; reflexivity).
    f_equal. f_equal.
    rewrite !PCHARS_app. f_equal. f_equal. f_equal.
    subst percent.
    assert (Hp : chr "%" :: flags ++ c :: rest ++ 0 :: tail =
                 (chr "%" :: flags ++ [c]) ++ (rest ++ 0 :: tail)).
    { rewrite <- app_comm_cons, <- app_assoc. reflexivity. }
    rewrite Hp.
    apply firstn_prefix. }
  split; [apply Hloop|]. split.
  - intros arg. unfold kvprintf. apply Hloop. lia.
  - subst text. rewrite !map_app, !map_map.
    rewrite !(map_ext (fun x => uchar (uchar x)) uchar uchar_uchar).
    rewrite (map_ext (fun x => uchar (schar x)) uchar uchar_schar).
    rewrite <- !map_app. f_equal. f_equal.
    rewrite <- app_comm_cons, <- app_assoc. reflexivity.
Qed.

Ltac byte_facts :=
  repeat first
    [ apply Forall_nil
    | apply Forall_cons
    | split
    | reflexivity
    | (intros Hbyte; vm_compute in Hbyte; discriminate Hbyte) ].

Lemma kvprintf_lockout_witness :
  kvprintf keep (Some (str "a%5*qb%dc" ++ [0])) [] 10 [VInt 1; VInt 2]
  = Done ([], mkK (str "a%5*qb%dc") 9).
Proof.
  assert (H1 : Forall (fun x => uchar x <> 0 /\ uchar x <> chr "%") (str "a"))
    by byte_facts.
  assert (H2 : Forall (fun x => is_modifier x = true) (str "5*")) by byte_facts.
  assert (H3 : unsupported (chr "q")) by byte_facts.
  assert (H4 : Forall (fun x => uchar x <> 0) (str "b%dc")) by byte_facts.
  assert (H5 : skip_stars (str "5*") [VInt 1; VInt 2] = Some [VInt 2]) by reflexivity.
  exact (proj1 (proj2 (kvprintf_lockout keep 10 (str "a") (str "5*") (chr "q")
                         (str "b%dc") [] [VInt 1; VInt 2] [VInt 2] H1 H2 H3 H4 H5))
           []).
Defined.

(** ** ksprintn *)

Lemma hex2ascii_char (i : Z) :
  0 <= i < 36 ->
  48 <= hex2ascii i <= 57 \/ 97 <= hex2ascii i <= 122.
Proof.
  intros Hi. unfold hex2ascii.
  assert (Hn : (Z.to_nat i < 36)%nat) by lia.
  revert Hn. generalize (Z.to_nat i) as n. intros n Hn.
  do 36 (destruct n as [|n]; [vm_compute; intuition discriminate|]).
  lia.
Qed.

Lemma toupper_char (c : Z) :
  48 <= c <= 57 \/ 97 <= c <= 122 ->
  48 <= toupper c <= 57 \/ 65 <= toupper c <= 90.
Proof.
  intros H. unfold toupper. chr_values.
  destruct (Z.leb_spec 97 c); destruct (Z.leb_spec c 122); simpl; lia.
Qed.

(** Every character [ksprintn] makes out of a digit is a digit or a
    letter: never a NUL, never the placeholder. *)
Lemma ksprintn_loop_chars (digit next : Z -> Z) (upper : bool) :
  (forall x, 0 <= digit x < 36) ->
  forall cells num,
    Forall (fun c => 48 <= c <= 122 /\ c <> chr "?")
      (ksprintn_loop cells digit next upper num).
Proof.
  intros Hdigit. induction cells as [|cells IH]; intros num; simpl; [constructor|].
  constructor.
  - pose proof (hex2ascii_char _ (Hdigit num)) as Hc.
    pose proof (toupper_char _ Hc) as Hu. chr_values.
    destruct upper; lia.
  - destruct (next num =? 0); [constructor | apply IH].
Qed.

Lemma ksprintn_loop_length (digit next : Z -> Z) (upper : bool) :
  forall cells num,
    (1 <= length (ksprintn_loop (S cells) digit next upper num) <= S cells)%nat.
Proof.
  induction cells as [|cells IH]; intros num.
  - cbn [ksprintn_loop]. destruct (next num =? 0); cbn [length]; lia.
  - change (ksprintn_loop (S (S cells)) digit next upper num)
      with ((if upper then toupper (hex2ascii (digit num)) else hex2ascii (digit num))
            :: (if next num =? 0 then []
                else ksprintn_loop (S cells) digit next upper (next num))).
    cbn [length].
    destruct (next num =? 0); [cbn [length]; lia|].
    specialize (IH (next num)). lia.
Qed.

Lemma land_ones_range (x : Z) (n : Z) :
  0 <= n -> 0 <= Z.land x (Z.ones n) < 2 ^ n.
Proof.
  intros Hn. rewrite Z.land_ones by lia. apply Z.mod_pos_bound.
  apply Z.pow_pos_nonneg; lia.
Qed.

Lemma ksprintn_length (num base : Z) (upper : bool) :
  (1 <= length (ksprintn num base upper) <= 32)%nat.
Proof.
  unfold ksprintn.
  destruct (base =? 10); [apply (ksprintn_loop_length _ _ _ 31)|].
  destruct (base =? 16); [apply (ksprintn_loop_length _ _ _ 31)|].
  destruct (base =? 8); [apply (ksprintn_loop_length _ _ _ 31)|].
  destruct (base =? 2); [apply (ksprintn_loop_length _ _ _ 31)|].
  cbn [length]. lia.
Qed.

Lemma ksprintn_supported (num base : Z) (upper : bool) :
  base = 10 \/ base = 16 \/ base = 8 \/ base = 2 ->
  Forall (fun c => 48 <= c <= 122 /\ c <> chr "?") (ksprintn num base upper).
Proof.
  intros Hb. unfold ksprintn.
  destruct (Z.eqb_spec base 10);
    [|destruct (Z.eqb_spec base 16);
      [|destruct (Z.eqb_spec base 8);
        [|destruct (Z.eqb_spec base 2); [|exfalso; lia]]]];
    apply ksprintn_loop_chars; intros x.
  - pose proof (Z.mod_pos_bound x 10 ltac:(lia)). lia.
  - pose proof (land_ones_range x 4 ltac:(lia)) as H.
    change (Z.ones 4) with 15 in H. change (2 ^ 4) with 16 in H. lia.
  - pose proof (land_ones_range x 3 ltac:(lia)) as H.
    change (Z.ones 3) with 7 in H. change (2 ^ 3) with 8 in H. lia.
  - pose proof (land_ones_range x 1 ltac:(lia)) as H.
    change (Z.ones 1) with 1 in H. change (2 ^ 1) with 2 in H. lia.
Qed.

Lemma ksprintn_unsupported (num base : Z) (upper : bool) :
  base <> 10 -> base <> 16 -> base <> 8 -> base <> 2 ->
  ksprintn num base upper = [chr "?"].
Proof.
  intros H10 H16 H8 H2. unfold ksprintn.
  apply Z.eqb_neq in H10, H16, H8, H2. now rewrite H10, H16, H8, H2.
Qed.

Lemma cstring_all (text : list Z) :
  Forall (fun c => uchar c <> 0) text -> cstring text = text.
Proof.
  induction 1 as [|c text Hc _ IH]; simpl; [reflexivity|].
  apply Z.eqb_neq in Hc. now rewrite Hc, IH.
Qed.

Lemma cstring_rev_ksprintn (num base : Z) (upper : bool) :
  cstring (rev (ksprintn num base upper)) = rev (ksprintn num base upper).
Proof.
  apply cstring_all. apply Forall_rev.
  destruct (Z.eq_dec base 10) as [->|H10];
    [|destruct (Z.eq_dec base 16) as [->|H16];
      [|destruct (Z.eq_dec base 8) as [->|H8];
        [|destruct (Z.eq_dec base 2) as [->|H2]]]].
  5: { rewrite ksprintn_unsupported by assumption.
       constructor; [|constructor]. intros H; vm_compute in H; discriminate. }
  all: eapply Forall_impl; [|apply ksprintn_supported; auto];
    intros c [Hc _]; rewrite uchar_small; lia.
Qed.

(** ** The numeric tail *)

Section Number.

Context {A : Type}.
Variable func : Z -> A -> A.

Lemma PCHAR_n_repeat (cnt : nat) (c : Z) : forall k,
  PCHAR_n func cnt c k = PCHARS func (repeat c cnt) k.
Proof.
  induction cnt as [|cnt IH]; intros k; simpl; auto.
Qed.

Lemma number_text_spec (d : dstate) (q : list Z) (num base : Z) (k : kstate A) :
  number func d false q num base k = Done (PCHARS func (number_text d num base) k).
Proof.
  unfold number, number_text. cbv zeta.
  set (neg := sign d && (s32 num <? 0)).
  set (mag := if neg then u32 (- s32 num) else num).
  set (digits := ksprintn mag base (upper d)).
  set (alt := sharpflag d && negb (mag =? 0)).
  replace (if neg
           then (if alt then if base =? 8 then 0 + 1 else if base =? 16 then 0 + 2 else 0
                 else 0) + 1
           else if alt then if base =? 8 then 0 + 1 else if base =? 16 then 0 + 2 else 0
                else 0)
    with ((if alt then if base =? 8 then 1 else if base =? 16 then 2 else 0 else 0)
          + (if neg then 1 else 0))
    by (destruct neg, alt, (base =? 8), (base =? 16); reflexivity).
  set (tmp := _ + (if neg then 1 else 0)).
  set (dw := if negb (ladjust d) && (padc d =? chr "0") then _ else _).
  set (w := s32 (width d - _)).
  set (dw' := s32 (dw - _)).
  cbn [andb bind].
  unfold space_loop.
  rewrite !PCHARS_app.
  destruct (ladjust d); cbn [negb fst snd bind];
    destruct (w >? 0) eqn:Hw; cbn [fst snd];
    rewrite ?PCHAR_n_repeat;
    try (replace (Z.to_nat w) with O by (rewrite Z.gtb_ltb in Hw; apply Z.ltb_ge in Hw; lia));
    destruct neg, alt; try destruct (base =? 8); try destruct (base =? 16);
    reflexivity.
Qed.

End Number.

Lemma repeat_nonpos {X : Type} (x : X) (z : Z) : z <= 0 -> repeat x (Z.to_nat z) = [].
Proof.
  intros H. replace (Z.to_nat z) with O by lia. reflexivity.
Qed.

Lemma s32_u32 (v : Z) : s32 (u32 v) = s32 v.
Proof.
  unfold s32, u32. rewrite Zplus_mod_idemp_l. reflexivity.
Qed.

(** ** Zero padding of a signed decimal *)

Lemma number_text_zero_pad (d : dstate) (num : Z) :
  sign d = true -> ladjust d = false -> padc d = chr "0" ->
  let neg := s32 num <? 0 in
  let mag := if neg then u32 (- s32 num) else num in
  let digits := rev (ksprintn mag 10 (upper d)) in
  let signlen := if neg then 1 else 0 in
  signlen + Z.of_nat (length digits) < width d <= INT_MAX ->
  number_text d num 10 =
    (if neg then [chr "-"] else [])
    ++ repeat (chr "0") (Z.to_nat (width d - signlen - Z.of_nat (length digits)))
    ++ digits.
Proof.
  intros Hsign Hladj Hpadc neg mag digits signlen Hw.
  unfold number_text. rewrite Hsign, Hladj, Hpadc. cbn [andb negb].
  fold neg. fold mag.
  change (chr "0" =? chr "0") with true. change (10 =? 8) with false.
  change (10 =? 16) with false. cbv iota.
  subst digits. rewrite length_rev in *. rewrite cstring_rev_ksprintn.
  pose proof (ksprintn_length mag 10 (upper d)) as Hn.
  set (n := Z.of_nat (length (ksprintn mag 10 (upper d)))) in *.
  replace ((if sharpflag d && negb (mag =? 0) then 0 else 0) + (if neg then 1 else 0))
    with signlen by (subst signlen; destruct (sharpflag d && negb (mag =? 0)), neg; reflexivity).
  assert (Hs : 0 <= signlen <= 1) by (subst signlen; destruct neg; lia).
  unfold INT_MAX in Hw.
  rewrite (s32_small (width d - signlen)) by (unfold INT_MIN, INT_MAX; lia).
  unfold imax. destruct (Z.gtb_spec (width d - signlen) n); [|lia].
  replace (width d - (signlen + (width d - signlen))) with 0 by lia.
  change (s32 0) with 0. cbn [Z.to_nat repeat app].
  rewrite s32_small by (unfold INT_MIN, INT_MAX; lia).
  replace (if sharpflag d && negb (mag =? 0) then [] else []) with (@nil Z)
    by (destruct (sharpflag d && negb (mag =? 0)); reflexivity).
  cbn [app]. rewrite app_nil_r. reflexivity.
Qed.

Lemma decimal_value_step (ws : list Z) : forall a,
  Forall (fun c => 48 <= c <= 57) ws -> 0 <= a ->
  a <= fold_left (fun acc c => acc * 10 + (c - chr "0")) ws a.
Proof.
  change (chr "0") with 48.
  induction ws as [|c ws IH]; intros a Hws Ha; simpl; [lia|].
  inversion Hws; subst. etransitivity; [|apply IH; auto; lia]. lia.
Qed.

Lemma scan_number_digits (r : Z) (rest : list Z) (ws : list Z) : forall n ch,
  Forall (fun c => 48 <= c <= 57) ws -> 48 <= ch <= 57 -> 0 <= n ->
  fold_left (fun acc c => acc * 10 + (c - chr "0")) ws (n * 10 + (ch - chr "0"))
    <= INT_MAX ->
  (schar r <? chr "0") || (schar r >? chr "9") = true ->
  scan_number (ws ++ r :: rest) n ch =
  Done (fold_left (fun acc c => acc * 10 + (c - chr "0")) ws (n * 10 + (ch - chr "0")),
        r :: rest).
Proof.
  induction ws as [|c ws IH]; intros n ch Hws Hch Hn Hmax Hr.
  - cbn [app scan_number fold_left] in *. rewrite Hr.
    rewrite s32_small; [f_equal; f_equal; lia|].
    change (chr "0") with 48 in *. unfold INT_MIN, INT_MAX in *. lia.
  - inversion Hws as [|? ? Hc Hws']; subst.
    cbn [app scan_number fold_left] in *.
    rewrite (schar_small c) by lia.
    replace ((c <? chr "0") || (c >? chr "9")) with false
      by (change (chr "0") with 48; change (chr "9") with 57;
          destruct (Z.ltb_spec c 48); destruct (Z.gtb_spec c 57); simpl; lia).
    pose proof (decimal_value_step ws _ Hws'
                  ltac:(change (chr "0") with 48; instantiate (1 :=
                          (n * 10 + (ch - chr "0")) * 10 + (c - chr "0"));
                        change (chr "0") with 48; lia)) as Hmono.
    rewrite s32_small.
    + replace (n * 10 + ch - chr "0") with (n * 10 + (ch - chr "0")) by lia.
      apply IH; auto.
      change (chr "0") with 48 in *. lia.
    + change (chr "0") with 48 in *. unfold INT_MIN, INT_MAX in *. lia.
Qed.

Section Directives.

Context {A : Type}.
Variable func : Z -> A -> A.

(** After the zero flag, a width made of the digits [ws] and then [d] or
    [i] lead to [handle_sign] with that width. *)
Lemma reswitch_zero_width (radix : Z) (percent rest : list Z) (conv : Z)
    (ap : va_list) (stored : list (Z * Z)) (k : kstate A) :
  conv = chr "d" \/ conv = chr "i" ->
  forall ws fuel,
  (length ws < fuel)%nat ->
  Forall (fun c => 48 <= c <= 57) ws ->
  decimal_value ws <= INT_MAX ->
  reswitch func fuel radix percent (ws ++ conv :: rest)
    (set_padc (chr "0") dstate_init) ap stored k =
  handle_sign func
    (set_sign true (set_width (decimal_value ws) (set_padc (chr "0") dstate_init)))
    10 rest ap stored k.
Proof.
  intros Hconv.
  assert (Hcl : classify (uchar conv) = Td) by (destruct Hconv; subst; reflexivity).
  assert (Hnd : (schar conv <? chr "0") || (schar conv >? chr "9") = true)
    by (destruct Hconv; subst; reflexivity).
  induction ws as [|c ws IH]; intros fuel Hfuel Hws Hmax.
  - destruct fuel as [|fuel]; [simpl in Hfuel; lia|].
    cbn [app reswitch]. rewrite Hcl. reflexivity.
  - destruct fuel as [|fuel]; [simpl in Hfuel; lia|]. simpl in Hfuel.
    inversion Hws as [|? ? Hc Hws']; subst.
    cbn [app reswitch]. rewrite (uchar_small c) by lia.
    assert (Hbranch :
      (if (c =? chr "0") && negb (dot (set_padc (chr "0") dstate_init))
       then reswitch func fuel radix percent (ws ++ conv :: rest)
              (set_padc (chr "0") (set_padc (chr "0") dstate_init)) ap stored k
       else bind (scan_number (ws ++ conv :: rest) 0 c)
              (fun x => let '(n, fmt) := x in
                 reswitch func fuel radix percent fmt
                   (if dot (set_padc (chr "0") dstate_init)
                    then set_dwidth n (set_padc (chr "0") dstate_init)
                    else set_width n (set_padc (chr "0") dstate_init)) ap stored k)) =
      handle_sign func
        (set_sign true
           (set_width (decimal_value (c :: ws)) (set_padc (chr "0") dstate_init)))
        10 rest ap stored k).
    { change (chr "0") with 48 in *. destruct (Z.eqb_spec c 48) as [->|Hne].
      - cbn [andb negb dot set_padc dstate_init].
        change (decimal_value (48 :: ws)) with (decimal_value ws).
        apply (IH fuel); auto. lia.
      - cbn [andb].
        unfold decimal_value in *. cbn [fold_left] in *.
        rewrite (scan_number_digits conv rest ws 0 c) by (auto; lia).
        cbn [bind dot set_padc dstate_init].
        destruct fuel as [|fuel]; [lia|].
        cbn [reswitch]. rewrite Hcl. reflexivity. }
    destruct (classify_digit c Hc) as [-> | ->]; exact Hbranch.
Qed.

Lemma copy_literal_percent_here (fmt : list Z) (k : kstate A) :
  copy_literal func false (chr "%" :: fmt) k = LitPercent (chr "%" :: fmt) k.
Proof. reflexivity. Qed.

Lemma reswitch_zero_flag (fuel : nat) (radix : Z) (percent fmt : list Z)
    (ap : va_list) (stored : list (Z * Z)) (k : kstate A) :
  reswitch func (S fuel) radix percent (chr "0" :: fmt) dstate_init ap stored k =
  reswitch func fuel radix percent fmt (set_padc (chr "0") dstate_init) ap stored k.
Proof. reflexivity. Qed.


Lemma kvloop_percent_step (fuel : nat) (radix : Z) (fmt : list Z) (ap : va_list)
    (stored : list (Z * Z)) (k : kstate A) :
  kvloop func (S fuel) radix (chr "%" :: fmt) ap false stored k =
  bind (reswitch func (S (length fmt)) radix (chr "%" :: fmt) fmt dstate_init
          ap stored k)
       (fun r => kvloop func fuel radix (d_fmt r) (d_ap r) (d_stop r) (d_stored r)
                   (d_k r)).
Proof. reflexivity. Qed.

Lemma kvloop_terminator (fuel : nat) (radix : Z) (tail : list Z) (ap : va_list)
    (stop : bool) (stored : list (Z * Z)) (k : kstate A) :
  kvloop func (S fuel) radix (0 :: tail) ap stop stored k = Done (stored, k).
Proof.
  cbn [kvloop copy_literal]. destruct stop; reflexivity.
Qed.

Lemma handle_sign_int (d : dstate) (base v : Z) (fmt : list Z) (ap : va_list)
    (stored : list (Z * Z)) (k : kstate A) :
  hflag d = false -> cflag d = false ->
  handle_sign func d base fmt (VInt v :: ap) stored k =
  Done (mkDir fmt ap false stored (PCHARS func (number_text d (u32 v) base) k)).
Proof.
  intros Hh Hc. unfold handle_sign, arg_sign. cbn [va_int bind].
  rewrite Hh, Hc.
  replace (if jflag d then u32 v else if tflag d then u32 v else if lflag d then u32 v
           else if zflag d then u32 v else u32 v) with (u32 v)
    by (destruct (jflag d), (tflag d), (lflag d), (zflag d); reflexivity).
  rewrite number_text_spec. reflexivity.
Qed.

Lemma handle_nosign_int (d : dstate) (base v : Z) (fmt : list Z) (ap : va_list)
    (stored : list (Z * Z)) (k : kstate A) :
  hflag d = false -> cflag d = false ->
  handle_nosign func d false base fmt (VInt v :: ap) stored k =
  Done (mkDir fmt ap false stored
          (PCHARS func (number_text (set_sign false d) (u32 v) base) k)).
Proof.
  intros Hh Hc. unfold handle_nosign, arg_nosign. cbn [va_int bind].
  change (hflag (set_sign false d)) with (hflag d).
  change (cflag (set_sign false d)) with (cflag d).
  rewrite Hh, Hc.
  replace (if jflag (set_sign false d) then u32 v
           else if tflag (set_sign false d) then u32 v
           else if lflag (set_sign false d) then u32 v
           else if zflag (set_sign false d) then u32 v else u32 v) with (u32 v)
    by (destruct (jflag (set_sign false d)), (tflag (set_sign false d)),
                 (lflag (set_sign false d)), (zflag (set_sign false d)); reflexivity).
  rewrite number_text_spec. reflexivity.
Qed.

End Directives.

Lemma number_text_plain (num base : Z) :
  number_text (set_sign false dstate_init) num base = rev (ksprintn num base false).
Proof.
  unfold number_text.
  cbn [sign sharpflag ladjust padc width dwidth upper set_sign dstate_init andb negb].
  change (chr " " =? chr "0") with false. cbv iota.
  pose proof (ksprintn_length num base false) as Hn.
  set (n := Z.of_nat (length (ksprintn num base false))) in *.
  unfold imax. destruct (Z.gtb_spec 0 n); [lia|].
  rewrite !s32_small by (unfold INT_MIN, INT_MAX; lia).
  rewrite !repeat_nonpos by lia.
  rewrite cstring_rev_ksprintn. cbn [app]. apply app_nil_r.
Qed.

(** ** Directives of kvprintf *)

(** C7.  A signed decimal conversion with the zero flag, not left
    justified, and a width larger than sign plus digits renders the sign
    (for a negative value), then zeroes, then the digits, exactly as wide as
    asked; the zero fill never comes before the sign.  First for the code
    from [number:] on, whatever the directive that led there (width literal
    or from [*], any length modifier); then for [kvprintf] on a [%d] or
    [%i] with the zero flag and the literal width [ws]. *)
Theorem kvprintf_zero_pad {A : Type} (func : Z -> A -> A) :
  (forall (d : dstate) (q : list Z) (num : Z) (k : kstate A),
     sign d = true -> ladjust d = false -> padc d = chr "0" ->
     let neg := s32 num <? 0 in
     let digits := rev (ksprintn (if neg then u32 (- s32 num) else num) 10 (upper d)) in
     let signlen := if neg then 1 else 0 in
     signlen + Z.of_nat (length digits) < width d <= INT_MAX ->
     let text := (if neg then [chr "-"] else [])
                 ++ repeat (chr "0")
                      (Z.to_nat (width d - signlen - Z.of_nat (length digits)))
                 ++ digits in
     number func d false q num 10 k = Done (PCHARS func text k)
     /\ Z.of_nat (length text) = width d)
  /\ (forall (arg : A) (radix : Z) (ws : list Z) (conv v : Z),
        Forall (fun c => 48 <= c <= 57) ws ->
        conv = chr "d" \/ conv = chr "i" ->
        let w := decimal_value ws in
        let num := u32 v in
        let neg := s32 num <? 0 in
        let digits := rev (ksprintn (if neg then u32 (- s32 num) else num) 10 false) in
        let signlen := if neg then 1 else 0 in
        signlen + Z.of_nat (length digits) < w <= INT_MAX ->
        let text := (if neg then [chr "-"] else [])
                    ++ repeat (chr "0")
                         (Z.to_nat (w - signlen - Z.of_nat (length digits)))
                    ++ digits in
        kvprintf func (Some (chr "%" :: chr "0" :: ws ++ [conv; 0])) arg radix [VInt v]
          = Done ([], PCHARS func text (mkK arg 0))
        /\ Z.of_nat (length text) = w).
Proof.
  assert (Hlen : forall (neg : bool) (digits : list Z) (w : Z),
            (if neg then 1 else 0) + Z.of_nat (length digits) < w ->
            Z.of_nat
              (length ((if neg then [chr "-"] else [])
                       ++ repeat (chr "0")
                            (Z.to_nat (w - (if neg then 1 else 0)
                                       - Z.of_nat (length digits)))
                       ++ digits)) = w).
  { intros neg digits w Hw. rewrite !length_app, repeat_length.
    destruct neg; cbn [length] in *; lia. }
  split.
  - intros d q num k Hsign Hladj Hpadc neg digits signlen Hw text. split.
    + rewrite number_text_spec, number_text_zero_pad by assumption. reflexivity.
    + apply Hlen. apply Hw.
  - intros arg radix ws conv v Hws Hconv w num neg digits signlen Hw text. split.
    + unfold kvprintf. rewrite kvloop_percent_step. cbn [length].
      rewrite reswitch_zero_flag.
      rewrite (reswitch_zero_width func _ _ [0] conv [VInt v] [] _ Hconv ws)
        by (rewrite ?length_app; simpl; auto; fold w; lia).
      rewrite handle_sign_int by reflexivity.
      cbn [bind d_fmt d_ap d_stop d_stored d_k].
      rewrite kvloop_terminator.
      rewrite number_text_zero_pad by (try reflexivity; exact Hw).
      reflexivity.
    + apply Hlen. apply Hw.
Qed.

Lemma kvprintf_zero_pad_witness :
  kvprintf keep (Some (str "%05d" ++ [0])) [] 10 [VInt (-42)]
  = Done ([], mkK (str "-0042") 5).
Proof.
  assert (Hws : Forall (fun c => 48 <= c <= 57) (str "5"))
    by (repeat constructor; vm_compute; discriminate).
  assert (Hw : 1 + 2 < 5 <= INT_MAX) by (unfold INT_MAX; lia).
  exact (proj1 (proj2 (kvprintf_zero_pad keep) [] 10 (str "5") (chr "d") (-42) Hws
                  (or_introl eq_refl) Hw)).
Defined.

(** C8.  The example of the source: [%b] with the value 3 and the
    encoding "\10\2BITTWO\1BITONE" renders 3<BITTWO,BITONE>, on any sink and
    under any radix; a name whose bit is clear is left out, and a zero
    value gets no brackets at all. *)
Theorem kvprintf_bit_decode {A : Type} (func : Z -> A -> A) (arg : A) (radix : Z) :
  let names := VStr (Some (8 :: 2 :: str "BITTWO" ++ 1 :: str "BITONE" ++ [0])) in
  kvprintf func (Some (str "%b" ++ [0])) arg radix [VInt 3; names]
    = Done ([], PCHARS func (str "3<BITTWO,BITONE>") (mkK arg 0))
  /\ kvprintf func (Some (str "reg=%b" ++ [10; 0])) arg radix [VInt 3; names]
    = Done ([], PCHARS func (str "reg=3<BITTWO,BITONE>" ++ [10]) (mkK arg 0))
  /\ kvprintf func (Some (str "%b" ++ [0])) arg radix [VInt 1; names]
    = Done ([], PCHARS func (str "1<BITONE>") (mkK arg 0))
  /\ kvprintf func (Some (str "%b" ++ [0])) arg radix [VInt 0; names]
    = Done ([], PCHARS func (str "0") (mkK arg 0)).
Proof.
  repeat split; vm_compute; reflexivity.
Qed.

(** C9 (amended).  A NULL format is replaced by "(fmt null)\n" before
    anything is read through it: the call is the call with that text as
    its format, it renders the text and returns its length, which is 11. *)
Theorem kvprintf_null_format {A : Type} (func : Z -> A -> A) (arg : A) (radix : Z)
    (ap : va_list) :
  kvprintf func None arg radix ap = kvprintf func (Some fmt_null) arg radix ap
  /\ kvprintf func None arg radix ap
     = Done ([], PCHARS func (str "(fmt null)" ++ [10]) (mkK arg 0))
  /\ retval (PCHARS func (str "(fmt null)" ++ [10]) (mkK arg 0)) = 11
  /\ Z.of_nat (length (str "(fmt null)" ++ [10])) = 11.
Proof.
  repeat split; vm_compute; reflexivity.
Qed.

(** C9 as stated fails: the value returned for a NULL format is not 12. *)
Lemma kvprintf_null_format_counterexample :
  ~ (exists out stored, render None 10 [] = Done (out, 12, stored)).
Proof.
  intros (out & stored & H). vm_compute in H. discriminate H.
Qed.

(** ** The default radix *)




(** * Further properties of simple_print.c *)

Import SimplePrint SimplePrintNotions.

(** ** Block moves on arrays *)

Lemma skipn_nth_cons (pe : Z) (l : list Z) : forall s,
  (s < length l)%nat -> skipn s l = nth s l pe :: skipn (S s) l.
Proof.
  induction l as [|x l IH]; intros [|s] H; simpl in *; try lia; auto.
  apply IH. lia.
Qed.

Lemma loads_in_range (pe : Z) (l : list Z) (n : nat) : forall s,
  (s + n <= length l)%nat ->
  map (load pe l) (seq s n) = firstn n (skipn s l).
Proof.
  induction n as [|n IH]; intros s H; [reflexivity|].
  cbn [seq map]. rewrite (skipn_nth_cons pe l s) by lia.
  cbn [firstn]. unfold load at 1. f_equal.
  rewrite IH by lia. reflexivity.
Qed.

Lemma memmove_stores (pe : Z) (src : list Z) (n : nat) : forall dst d s,
  memmove pe dst d src s n = stores dst d (map (load pe src) (seq s n)).
Proof.
  induction n as [|n IH]; intros dst d s; [reflexivity|].
  cbn [memmove seq map stores]. apply IH.
Qed.

Lemma stores_front (text l : list Z) :
  (length text <= length l)%nat ->
  stores l 0 text = text ++ skipn (length text) l.
Proof.
  intros H. exact (stores_app_at text [] l H).
Qed.

Lemma skipn_app_exact {X : Type} (l1 l2 : list X) :
  skipn (length l1) (l1 ++ l2) = l2.
Proof.
  induction l1; simpl; auto.
Qed.

Lemma firstn_app_exact {X : Type} (l1 l2 : list X) :
  firstn (length l1) (l1 ++ l2) = l1.
Proof.
  induction l1; simpl; [reflexivity | now f_equal].
Qed.

Lemma length_snoc {X : Type} (l : list X) (n : nat) :
  length l = S n -> exists l' x, l = l' ++ [x] /\ length l' = n.
Proof.
  intros H. destruct (exists_last (l := l)) as (l' & x & ->).
  - intros ->. discriminate.
  - exists l', x. split; [reflexivity|]. rewrite length_app in H. simpl in H. lia.
Qed.

Lemma load_store_other (pe : Z) (l : list Z) : forall i j v,
  i <> j -> load pe (store l i v) j = load pe l j.
Proof.
  unfold load. induction l as [|x l IH]; intros [|i] [|j] v H; simpl; auto;
    try congruence.
Qed.

Lemma cstring_text (text tl : list Z) :
  Forall (fun c => uchar c <> 0) text -> cstring (text ++ 0 :: tl) = text.
Proof.
  induction 1 as [|c text Hc _ IH]; simpl; [reflexivity|].
  apply Z.eqb_neq in Hc. now rewrite Hc, IH.
Qed.

Lemma digit_chars_nonzero (text : list Z) :
  Forall (fun c => 48 <= c <= 57) text -> Forall (fun c => uchar c <> 0) text.
Proof.
  apply Forall_impl. intros c Hc. rewrite uchar_small; lia.
Qed.

(** ** Decimal text *)

Lemma dec_hex_digit (d : Z) : 0 <= d <= 9 -> dec_hex d = chr "0" + d.
Proof.
  intros H. unfold dec_hex.
  assert (Hn : (Z.to_nat d < 10)%nat) by lia.
  replace d with (Z.of_nat (Z.to_nat d)) at 2 by lia.
  revert Hn. generalize (Z.to_nat d). intros n Hn.
  do 10 (destruct n as [|n]; [reflexivity|]). lia.
Qed.

Lemma decimal_digits_chars (fuel : nat) : forall n,
  0 <= n -> Forall (fun c => 48 <= c <= 57) (decimal_digits fuel n).
Proof.
  induction fuel as [|fuel IH]; intros n Hn; cbn [decimal_digits]; [constructor|].
  destruct (n =? 0); [constructor|].
  apply Forall_app. split.
  - apply IH. apply Z.div_pos; lia.
  - constructor; [|constructor]. change (chr "0") with 48.
    pose proof (Z.mod_pos_bound n 10 ltac:(lia)). lia.
Qed.

Lemma decimal_digits_length (fuel : nat) : forall n,
  (length (decimal_digits fuel n) <= fuel)%nat.
Proof.
  induction fuel as [|fuel IH]; intros n; cbn [decimal_digits]; [simpl; lia|].
  destruct (n =? 0); [simpl; lia|].
  rewrite length_app. cbn [length]. specialize (IH (n / 10)). lia.
Qed.

Lemma text_value_snoc (base : Z) (text : list Z) (c : Z) :
  text_value base (text ++ [c]) = text_value base text * base + char_value c.
Proof.
  unfold text_value. rewrite fold_left_app. reflexivity.
Qed.

Lemma char_value_digit (d : Z) : 0 <= d <= 9 -> char_value (chr "0" + d) = d.
Proof.
  intros H. unfold char_value. change (chr "0") with 48. change (chr "9") with 57.
  destruct (Z.leb_spec 48 (48 + d)); [|lia].
  destruct (Z.leb_spec (48 + d) 57); [|lia]. cbn [andb]. lia.
Qed.

Lemma decimal_digits_value (fuel : nat) : forall n,
  0 <= n < 10 ^ Z.of_nat fuel ->
  text_value 10 (decimal_digits fuel n) = n.
Proof.
  induction fuel as [|fuel IH]; intros n Hn.
  - simpl in *. change (text_value 10 []) with 0. lia.
  - cbn [decimal_digits]. destruct (Z.eqb_spec n 0) as [->|Hne]; [reflexivity|].
    rewrite text_value_snoc, char_value_digit
      by (pose proof (Z.mod_pos_bound n 10 ltac:(lia)); lia).
    rewrite IH.
    + pose proof (Z.div_mod n 10 ltac:(lia)). lia.
    + rewrite Nat2Z.inj_succ, Z.pow_succ_r in Hn by lia.
      split; [apply Z.div_pos; lia | apply Z.div_lt_upper_bound; lia].
Qed.

(** A decimal text has no leading zero. *)
Lemma decimal_digits_head (fuel : nat) : forall n,
  0 < n < 10 ^ Z.of_nat fuel ->
  exists c rest, decimal_digits fuel n = c :: rest /\ 49 <= c <= 57.
Proof.
  induction fuel as [|fuel IH]; intros n Hn; [simpl in Hn; lia|].
  cbn [decimal_digits]. destruct (Z.eqb_spec n 0) as [->|Hne]; [lia|].
  pose proof (Z.div_mod n 10 ltac:(lia)) as Hdm.
  pose proof (Z.mod_pos_bound n 10 ltac:(lia)) as Hm.
  destruct (Z.eq_dec (n / 10) 0) as [Hz|Hnz].
  - rewrite Hz. exists (chr "0" + n mod 10), [].
    split; [destruct fuel; reflexivity|]. change (chr "0") with 48. lia.
  - rewrite Nat2Z.inj_succ, Z.pow_succ_r in Hn by lia.
    assert (Hq : 0 < n / 10 < 10 ^ Z.of_nat fuel).
    { split; [pose proof (Z.div_pos n 10 ltac:(lia) ltac:(lia)); lia
             | apply Z.div_lt_upper_bound; lia]. }
    destruct (IH _ Hq) as (c & rest & -> & Hc).
    exists c, (rest ++ [chr "0" + n mod 10]). split; [reflexivity | exact Hc].
Qed.

(** ** uint_to_string *)

Ltac lengths := rewrite ?length_app; cbn [length]; rewrite ?length_app; cbn [length]; lia.

Lemma decimal_digits_S (fuel : nat) (n : Z) :
  decimal_digits (S fuel) n =
  if n =? 0 then [] else decimal_digits fuel (n / 10) ++ [chr "0" + n mod 10].
Proof.
  reflexivity.
Qed.

Lemma store_app_here (l1 l2 : list Z) (x v : Z) (i : nat) :
  length l1 = i -> store (l1 ++ x :: l2) i v = l1 ++ v :: l2.
Proof.
  intros <-. apply store_app_at.
Qed.

Lemma loads_one_more (pe : Z) (l : list Z) (n s : nat) :
  (s + n <= length l)%nat ->
  map (load pe l) (seq s (S n)) = firstn n (skipn s l) ++ [nth (s + n) l pe].
Proof.
  intros H. rewrite seq_S, map_app, loads_in_range by lia. reflexivity.
Qed.

Lemma memmove_length (pe : Z) (src : list Z) (n : nat) : forall dst d s,
  length (memmove pe dst d src s n) = length dst.
Proof.
  induction n as [|n IH]; intros dst d s; [reflexivity|].
  cbn [memmove]. rewrite IH. apply store_length.
Qed.

Lemma uint_to_string_loop_S (pe : Z) (i : nat) (n : Z) (out : list Z) :
  uint_to_string_loop pe (S i) n out =
  if (n =? 0) && (i <? 9)%nat then memmove pe out 0 out (i + 1) (11 - i)
  else uint_to_string_loop pe i (n / 10) (store out i (dec_hex (n mod 10))).
Proof.
  reflexivity.
Qed.

Lemma uint_to_string_loop_length (pe : Z) (cnt : nat) : forall n out,
  length (uint_to_string_loop pe cnt n out) = length out.
Proof.
  induction cnt as [|i IH]; intros n out; [reflexivity|].
  rewrite uint_to_string_loop_S.
  destruct ((n =? 0) && (i <? 9)%nat).
  - apply memmove_length.
  - rewrite IH. apply store_length.
Qed.

(** The realigning move: the text and its terminator come to the front,
    followed by the byte found behind the terminator. *)
Lemma realign (pe : Z) (pre suf rest : list Z) (extra : nat) :
  extra = (length suf + 2)%nat -> (1 <= length pre)%nat ->
  memmove pe (pre ++ suf ++ 0 :: rest) 0 (pre ++ suf ++ 0 :: rest) (length pre) extra =
  suf ++ 0 :: nth 0 rest pe :: skipn extra (pre ++ suf ++ 0 :: rest).
Proof.
  intros -> Hpre. rewrite memmove_stores.
  replace (length suf + 2)%nat with (S (length (suf ++ [0]))) at 1
    by lengths.
  rewrite loads_one_more by lengths.
  rewrite skipn_app_exact.
  replace (suf ++ 0 :: rest) with ((suf ++ [0]) ++ rest)
    by (rewrite <- app_assoc; reflexivity).
  rewrite firstn_app_exact.
  replace (nth (length pre + length (suf ++ [0])) (pre ++ (suf ++ [0]) ++ rest) pe)
    with (nth 0 rest pe).
  2:{ rewrite app_assoc, app_nth2 by lengths.
      f_equal. lengths. }
  rewrite stores_front
    by lengths.
  rewrite <- !app_assoc. cbn [app]. do 3 f_equal.
  rewrite !length_app. cbn [length]. first [reflexivity | f_equal; lia].
Qed.

Lemma uint_to_string_loop_text (pe : Z) (cnt : nat) : forall n pre suf rest,
  length pre = cnt -> (cnt + length suf = 10)%nat -> (cnt <= 9)%nat ->
  0 <= n < 10 ^ Z.of_nat cnt ->
  exists tail,
    uint_to_string_loop pe cnt n (pre ++ suf ++ 0 :: rest) =
      (decimal_digits cnt n ++ suf) ++ 0 :: tail /\
    ((length (decimal_digits cnt n ++ suf) < 10)%nat ->
     exists tail', tail = nth 0 rest pe :: tail').
Proof.
  induction cnt as [|i IH]; intros n pre suf rest Hpre Hsuf Hcnt Hn.
  - destruct pre; [|discriminate]. exists rest. split; [reflexivity|].
    cbn [decimal_digits app]. simpl in Hsuf. lia.
  - rewrite uint_to_string_loop_S, decimal_digits_S.
    assert (Hi : (i <? 9)%nat = true) by (apply Nat.ltb_lt; lia).
    rewrite Hi, andb_true_r.
    destruct (Z.eqb_spec n 0) as [->|Hne].
    + replace (i + 1)%nat with (length pre) by lia.
      rewrite realign by lia.
      eexists. split; [reflexivity|]. intros _. eexists. reflexivity.
    + destruct (length_snoc pre i Hpre) as (pre' & x & -> & Hpre').
      rewrite <- app_assoc. cbn [app]. rewrite <- Hpre', store_app_at, Hpre'.
      pose proof (Z.mod_pos_bound n 10 ltac:(lia)) as Hm.
      rewrite dec_hex_digit by lia.
      destruct (IH (n / 10) pre' ((chr "0" + n mod 10) :: suf) rest)
        as (tail & Heq & Hextra).
      * exact Hpre'.
      * simpl. simpl in Hsuf. lia.
      * lia.
      * rewrite Nat2Z.inj_succ, Z.pow_succ_r in Hn by lia.
        split; [apply Z.div_pos; lia | apply Z.div_lt_upper_bound; lia].
      * exists tail. split.
        -- rewrite <- !app_assoc. cbn [app].
           rewrite <- app_assoc in Heq. cbn [app] in Heq. exact Heq.
        -- intros Hlen. apply Hextra. rewrite <- app_assoc in Hlen. exact Hlen.
Qed.

Lemma uint_to_string_shape (pe : Z) (n : Z) (out : list Z) :
  0 <= n < 4294967296 -> (11 <= length out)%nat ->
  exists tail,
    uint_to_string pe n out = decimal_text n ++ 0 :: tail /\
    ((length (decimal_text n) < 10)%nat ->
     exists tail', tail = nth 11 out pe :: tail').
Proof.
  intros Hn Hlen. unfold uint_to_string. cbv zeta.
  pose proof (firstn_skipn 10 out) as Hsplit.
  assert (H10 : length (firstn 10 out) = 10%nat) by (rewrite length_firstn; lia).
  destruct (skipn 10 out) as [|c10 rest] eqn:Hskip.
  { apply (f_equal (@length Z)) in Hskip. rewrite length_skipn in Hskip.
    simpl in Hskip. lia. }
  clear Hskip.
  destruct (length_snoc (firstn 10 out) 9 H10) as (pre & x & Hpre & Hlpre).
  rewrite Hpre in Hsplit, H10. clear Hpre. subst out.
  rewrite (store_app_here _ _ _ _ _ H10).
  rewrite uint_to_string_loop_S. replace (9 <? 9)%nat with false by reflexivity.
  rewrite andb_false_r.
  rewrite <- app_assoc. cbn [app]. rewrite (store_app_here _ _ _ _ _ Hlpre).
  pose proof (Z.mod_pos_bound n 10 ltac:(lia)) as Hm.
  rewrite dec_hex_digit by lia.
  destruct (uint_to_string_loop_text pe 9 (n / 10) pre [chr "0" + n mod 10] rest)
    as (tail & Heq & Hextra); try (simpl; lia).
  { split; [apply Z.div_pos; lia | apply Z.div_lt_upper_bound; lia]. }
  exists tail. split; [exact Heq|].
  intros Hl. destruct (Hextra Hl) as (tail' & ->). exists tail'.
  f_equal. rewrite app_nth2 by lia. rewrite H10. reflexivity.
Qed.

(** A number below 10^k has at most k digits. *)
Lemma decimal_digits_short (fuel : nat) : forall n,
  0 <= n < 10 ^ Z.of_nat fuel ->
  (length (decimal_digits (S fuel) n) <= fuel)%nat.
Proof.
  induction fuel as [|fuel IH]; intros n Hb.
  - assert (n = 0) by (simpl in Hb; lia). subst n. simpl. lia.
  - rewrite decimal_digits_S. destruct (Z.eqb_spec n 0); [simpl; lia|].
    rewrite length_app. cbn [length].
    rewrite Nat2Z.inj_succ, Z.pow_succ_r in Hb by lia.
    assert (Hq : 0 <= n / 10 < 10 ^ Z.of_nat fuel)
      by (split; [apply Z.div_pos; lia | apply Z.div_lt_upper_bound; lia]).
    specialize (IH _ Hq). lia.
Qed.

Lemma decimal_text_chars (n : Z) :
  0 <= n -> Forall (fun c => 48 <= c <= 57) (decimal_text n).
Proof.
  intros Hn. unfold decimal_text. apply Forall_app. split.
  - apply decimal_digits_chars. apply Z.div_pos; lia.
  - constructor; [|constructor]. change (chr "0") with 48.
    pose proof (Z.mod_pos_bound n 10 ltac:(lia)). lia.
Qed.

Lemma decimal_text_value (n : Z) :
  0 <= n < 10 ^ 10 -> text_value 10 (decimal_text n) = n.
Proof.
  intros Hn. unfold decimal_text.
  pose proof (Z.mod_pos_bound n 10 ltac:(lia)) as Hm.
  rewrite text_value_snoc, char_value_digit by lia.
  rewrite decimal_digits_value.
  - pose proof (Z.div_mod n 10 ltac:(lia)). lia.
  - split; [apply Z.div_pos; lia | apply Z.div_lt_upper_bound; lia].
Qed.

Lemma decimal_text_length (n : Z) :
  (1 <= length (decimal_text n) <= 10)%nat.
Proof.
  unfold decimal_text. rewrite length_app. cbn [length].
  pose proof (decimal_digits_length 9 (n / 10)). lia.
Qed.

(** No leading zero, except for the number zero itself. *)
Lemma decimal_text_head (n : Z) :
  0 < n < 10 ^ 10 ->
  exists c rest, decimal_text n = c :: rest /\ 49 <= c <= 57.
Proof.
  intros Hn. unfold decimal_text.
  pose proof (Z.div_mod n 10 ltac:(lia)) as Hdm.
  pose proof (Z.mod_pos_bound n 10 ltac:(lia)) as Hm.
  destruct (Z.eq_dec (n / 10) 0) as [Hz|Hnz].
  - rewrite Hz. exists (chr "0" + n mod 10), []. split; [reflexivity|].
    change (chr "0") with 48. lia.
  - destruct (decimal_digits_head 9 (n / 10)) as (c & rest & -> & Hc).
    + split; [pose proof (Z.div_pos n 10 ltac:(lia) ltac:(lia)); lia
             | apply Z.div_lt_upper_bound; lia].
    + exists c, (rest ++ [chr "0" + n mod 10]). split; [reflexivity | exact Hc].
Qed.

(** X1. [uint_to_string] writes the decimal text of the number: between
    one and ten decimal digits, then the terminator; read back as a
    decimal number the digits give the number, and only the number zero
    starts with the digit 0.  The array keeps its length. *)
Theorem uint_to_string_round_trip (past_end : Z) (in_number : Z) (out_string : list Z) :
  0 <= in_number < 4294967296 -> (11 <= length out_string)%nat ->
  let result := uint_to_string past_end in_number out_string in
  let text := cstring result in
  (1 <= length text <= 10)%nat /\
  Forall (fun c => chr "0" <= c <= chr "9") text /\
  text_value 10 text = in_number /\
  (in_number <> 0 -> hd 0 text <> chr "0") /\
  nth (length text) result 1 = 0 /\
  length result = length out_string.
Proof.
  intros Hn Hlen result text.
  destruct (uint_to_string_shape past_end in_number out_string Hn Hlen)
    as (tail & Heq & _).
  assert (Htext : text = decimal_text in_number).
  { unfold text, result. rewrite Heq. apply cstring_text.
    apply digit_chars_nonzero, decimal_text_chars. lia. }
  split; [rewrite Htext; apply decimal_text_length|].
  split; [rewrite Htext; apply decimal_text_chars; lia|].
  split; [rewrite Htext; apply decimal_text_value; lia|].
  split.
  { intros Hne. rewrite Htext.
    destruct (decimal_text_head in_number) as (c & rest & -> & Hc); [lia|].
    cbn [hd]. change (chr "0") with 48. lia. }
  split.
  { rewrite Htext. unfold result. rewrite Heq.
    rewrite app_nth2 by lia. rewrite Nat.sub_diag. reflexivity. }
  unfold result, uint_to_string. cbv zeta.
  rewrite uint_to_string_loop_length. apply store_length.
Qed.

Lemma uint_to_string_round_trip_witness :
  let text := cstring (uint_to_string 0 4294967295 (repeat 7 11)) in
  text = str "4294967295" /\ text_value 10 text = 4294967295.
Proof.
  destruct (uint_to_string_round_trip 0 4294967295 (repeat 7 11))
    as (_ & _ & Hv & _); [lia | simpl; lia |].
  split; [reflexivity | exact Hv].
Defined.

(** X2. With a number below 10^9 the realigning block move of
    [uint_to_string] copies one byte more than the digits and their
    terminator: the cell behind the terminator of the result holds what
    was at index 11 of the array, which is outside an array of the eleven
    bytes the function asks for. *)
Theorem uint_to_string_reads_past_end (past_end : Z) (in_number : Z) (out_string : list Z) :
  0 <= in_number < 1000000000 -> length out_string = 11%nat ->
  let result := uint_to_string past_end in_number out_string in
  nth (S (length (cstring result))) result 0 = past_end.
Proof.
  intros Hn Hlen result.
  destruct (uint_to_string_shape past_end in_number out_string) as (tail & Heq & Hextra);
    [lia | lia |].
  assert (Htext : cstring result = decimal_text in_number).
  { unfold result. rewrite Heq. apply cstring_text.
    apply digit_chars_nonzero, decimal_text_chars. lia. }
  assert (Hshort : (length (decimal_text in_number) < 10)%nat).
  { unfold decimal_text. rewrite length_app. cbn [length].
    assert (Hq : 0 <= in_number / 10 < 10 ^ Z.of_nat 8).
    { change (10 ^ Z.of_nat 8) with 100000000.
      split; [apply Z.div_pos; lia | apply Z.div_lt_upper_bound; lia]. }
    pose proof (decimal_digits_short 8 _ Hq). lia. }
  destruct (Hextra Hshort) as (tail' & ->).
  rewrite Htext. unfold result. rewrite Heq.
  rewrite app_nth2 by lia.
  replace (S (length (decimal_text in_number)) - length (decimal_text in_number))%nat
    with 1%nat by lia.
  cbn [nth]. apply nth_overflow. lia.
Qed.

Lemma uint_to_string_reads_past_end_witness :
  nth 5 (uint_to_string 33 1024 (repeat 7 11)) 0 = 33.
Proof.
  exact (uint_to_string_reads_past_end 33 1024 (repeat 7 11)
           ltac:(lia) ltac:(reflexivity)).
Defined.

(** ** int_to_string *)

Lemma decimal_digits_zero (fuel : nat) : decimal_digits fuel 0 = [].
Proof.
  destruct fuel; reflexivity.
Qed.

(** More fuel than digits changes nothing. *)
Lemma decimal_digits_fuel (fuel : nat) : forall n,
  0 <= n < 10 ^ Z.of_nat fuel ->
  decimal_digits (S fuel) n = decimal_digits fuel n.
Proof.
  induction fuel as [|fuel IH]; intros n Hn.
  - assert (n = 0) by (simpl in Hn; lia). subst n. reflexivity.
  - rewrite (decimal_digits_S (S fuel) n), (decimal_digits_S fuel n).
    destruct (Z.eqb_spec n 0); [reflexivity|].
    rewrite IH; [reflexivity|].
    rewrite Nat2Z.inj_succ, Z.pow_succ_r in Hn by lia.
    split; [apply Z.div_pos; lia | apply Z.div_lt_upper_bound; lia].
Qed.

(** The digit index of [int_to_string], in terms of the magnitude. *)
Lemma int_digit_index_abs (neg : bool) (m : Z) :
  0 <= m ->
  int_digit_index neg (if neg then - m else m) = m mod 10.
Proof.
  intros Hm. unfold int_digit_index.
  pose proof (Z.mod_pos_bound m 10 ltac:(lia)) as Hb.
  destruct neg.
  - rewrite Z.rem_opp_l, Z.rem_mod_nonneg by lia.
    rewrite Z.opp_involutive. apply s32_small. unfold INT_MIN, INT_MAX. lia.
  - apply Z.rem_mod_nonneg; lia.
Qed.

Lemma quot_abs (neg : bool) (m : Z) :
  0 <= m ->
  Z.quot (if neg then - m else m) 10 = if neg then - (m / 10) else m / 10.
Proof.
  intros Hm. destruct neg.
  - rewrite Z.quot_opp_l, Z.quot_div_nonneg by lia. reflexivity.
  - apply Z.quot_div_nonneg; lia.
Qed.

Lemma zero_abs (neg : bool) (m : Z) :
  ((if neg then - m else m) =? 0) = (m =? 0).
Proof.
  destruct neg; [|reflexivity].
  destruct (Z.eqb_spec m 0), (Z.eqb_spec (- m) 0); try reflexivity; lia.
Qed.

Lemma int_to_string_loop_S (pe : Z) (i : nat) (n : Z) (need_neg neg : bool)
    (out : list Z) :
  int_to_string_loop pe (S i) n need_neg neg out =
  if need_neg && (n =? 0) && (i <? 10)%nat then
    int_to_string_loop pe i (Z.quot n 10) false neg (store out i (chr "-"))
  else if (n =? 0) && (i <? 10)%nat then
    memmove pe out 0 out (i + 1) (12 - i)
  else
    int_to_string_loop pe i (Z.quot n 10) need_neg neg
      (store out i (dec_hex (int_digit_index neg n))).
Proof.
  reflexivity.
Qed.

Lemma int_to_string_loop_length (pe : Z) (cnt : nat) : forall n need_neg neg out,
  length (int_to_string_loop pe cnt n need_neg neg out) = length out.
Proof.
  induction cnt as [|i IH]; intros n need_neg neg out; [reflexivity|].
  rewrite int_to_string_loop_S.
  destruct (need_neg && (n =? 0) && (i <? 10)%nat).
  - rewrite IH. apply store_length.
  - destruct ((n =? 0) && (i <? 10)%nat).
    + apply memmove_length.
    + rewrite IH. apply store_length.
Qed.

Lemma int_to_string_loop_text (pe : Z) (cnt : nat) :
  forall (m : Z) (need_neg neg : bool) (pre suf rest : list Z),
  length pre = cnt -> (cnt + length suf = 11)%nat -> (cnt <= 10)%nat ->
  0 <= m ->
  (if need_neg then (1 <= cnt)%nat /\ m < 10 ^ (Z.of_nat cnt - 1)
   else m < 10 ^ Z.of_nat cnt) ->
  exists tail,
    int_to_string_loop pe cnt (if neg then - m else m) need_neg neg
      (pre ++ suf ++ 0 :: rest) =
      ((if need_neg then [chr "-"] else []) ++ decimal_digits cnt m ++ suf)
      ++ 0 :: tail /\
    ((length ((if need_neg then [chr "-"] else []) ++ decimal_digits cnt m ++ suf)
      < 11)%nat ->
     exists tail', tail = nth 0 rest pe :: tail').
Proof.
  induction cnt as [|i IH]; intros m need_neg neg pre suf rest Hpre Hsuf Hcnt Hm Hb.
  - destruct pre; [|discriminate]. destruct need_neg; [lia|].
    exists rest. split; [reflexivity|]. cbn [decimal_digits app]. simpl in Hsuf. lia.
  - rewrite int_to_string_loop_S.
    assert (Hi : (i <? 10)%nat = true) by (apply Nat.ltb_lt; lia).
    rewrite Hi, !andb_true_r, zero_abs.
    destruct (length_snoc pre i Hpre) as (pre' & x & Hpre' & Hlpre').
    destruct (Z.eqb_spec m 0) as [->|Hne].
    + rewrite decimal_digits_zero. destruct need_neg; cbn [andb].
      * subst pre. rewrite <- app_assoc. cbn [app].
        rewrite (store_app_here _ _ _ _ _ Hlpre').
        replace (Z.quot (if neg then - 0 else 0) 10) with (if neg then - 0 else 0)
          by (destruct neg; reflexivity).
        destruct (IH 0 false neg pre' (chr "-" :: suf) rest)
          as (tail & Heq & Hextra);
          [ exact Hlpre' | cbn [length]; lia | lia | lia
          | apply Z.pow_pos_nonneg; lia | ].
        rewrite decimal_digits_zero in Heq, Hextra.
        exists tail. split; [exact Heq | exact Hextra].
      * replace (i + 1)%nat with (length pre) by lia.
        rewrite realign by lia.
        eexists. split; [reflexivity|]. intros _. eexists. reflexivity.
    + replace (need_neg && false) with false by (destruct need_neg; reflexivity).
      subst pre. rewrite <- app_assoc. cbn [app].
      rewrite (store_app_here _ _ _ _ _ Hlpre').
      rewrite int_digit_index_abs, quot_abs by lia.
      pose proof (Z.mod_pos_bound m 10 ltac:(lia)) as Hmod.
      rewrite dec_hex_digit by lia.
      rewrite decimal_digits_S.
      destruct (Z.eqb_spec m 0) as [|_]; [contradiction|].
      destruct (IH (m / 10) need_neg neg pre' ((chr "0" + m mod 10) :: suf) rest)
        as (tail & Heq & Hextra).
      * exact Hlpre'.
      * cbn [length]. lia.
      * lia.
      * apply Z.div_pos; lia.
      * destruct need_neg.
        -- destruct Hb as [_ Hb].
           replace (Z.of_nat (S i) - 1) with (Z.of_nat i) in Hb by lia.
           destruct i as [|i].
           { simpl in Hb. lia. }
           split; [lia|].
           replace (Z.of_nat (S i) - 1) with (Z.of_nat i) by lia.
           rewrite Nat2Z.inj_succ, Z.pow_succ_r in Hb by lia.
           apply Z.div_lt_upper_bound; lia.
        -- rewrite Nat2Z.inj_succ, Z.pow_succ_r in Hb by lia.
           apply Z.div_lt_upper_bound; lia.
      * exists tail. split.
        -- rewrite <- !app_assoc. rewrite <- !app_assoc in Heq. exact Heq.
        -- intros Hlen. apply Hextra. rewrite <- !app_assoc in Hlen.
           exact Hlen.
Qed.

Lemma int_to_string_shape (pe : Z) (v : Z) (out : list Z) :
  INT_MIN <= v <= INT_MAX -> (12 <= length out)%nat ->
  exists tail,
    int_to_string pe v out = signed_text v ++ 0 :: tail /\
    ((length (signed_text v) < 11)%nat ->
     exists tail', tail = nth 12 out pe :: tail').
Proof.
  unfold INT_MIN, INT_MAX. intros Hv Hlen. unfold int_to_string. cbv zeta.
  pose proof (firstn_skipn 11 out) as Hsplit.
  assert (H11 : length (firstn 11 out) = 11%nat) by (rewrite length_firstn; lia).
  destruct (skipn 11 out) as [|c11 rest] eqn:Hskip.
  { apply (f_equal (@length Z)) in Hskip. rewrite length_skipn in Hskip.
    simpl in Hskip. lia. }
  clear Hskip.
  destruct (length_snoc (firstn 11 out) 10 H11) as (pre & x & Hpre & Hlpre).
  rewrite Hpre in Hsplit, H11. clear Hpre. subst out.
  rewrite (store_app_here _ _ _ _ _ H11).
  assert (Htext : (if v <? 0 then [chr "-"] else []) ++
                  decimal_digits 10 (Z.abs v / 10) ++ [chr "0" + Z.abs v mod 10] =
                  signed_text v).
  { unfold signed_text, decimal_text. f_equal. f_equal.
    apply decimal_digits_fuel. change (10 ^ Z.of_nat 9) with 1000000000.
    split; [apply Z.div_pos; lia | apply Z.div_lt_upper_bound; lia]. }
  rewrite <- Htext. clear Htext.
  assert (Hv' : v = if v <? 0 then - Z.abs v else Z.abs v)
    by (destruct (Z.ltb_spec v 0); lia).
  assert (Habs : 0 <= Z.abs v <= 2147483648) by lia.
  revert Hv' Habs. generalize (Z.abs v) as m. generalize (v <? 0) as neg.
  intros neg m -> Habs. clear Hv.
  rewrite int_to_string_loop_S. replace (10 <? 10)%nat with false by reflexivity.
  rewrite !andb_false_r.
  rewrite <- app_assoc. cbn [app]. rewrite (store_app_here _ _ _ _ _ Hlpre).
  rewrite int_digit_index_abs, quot_abs by lia.
  pose proof (Z.mod_pos_bound m 10 ltac:(lia)) as Hm.
  rewrite dec_hex_digit by lia.
  destruct (int_to_string_loop_text pe 10 (m / 10) neg neg pre
              [chr "0" + m mod 10] rest)
    as (tail & Heq & Hextra).
  { exact Hlpre. }
  { reflexivity. }
  { lia. }
  { apply Z.div_pos; lia. }
  { assert (m / 10 < 1000000000) by (apply Z.div_lt_upper_bound; lia).
    change (10 ^ (Z.of_nat 10 - 1)) with 1000000000.
    change (10 ^ Z.of_nat 10) with 10000000000.
    destruct neg; [split|]; lia. }
  exists tail. split; [exact Heq|].
  intros Hl. destruct (Hextra Hl) as (tail' & ->). exists tail'.
  f_equal. rewrite app_nth2 by lia. rewrite H11. reflexivity.
Qed.

Lemma read_digits_text (text : list Z) : forall acc cnt,
  Forall (fun c => 48 <= c <= 57) text ->
  read_digits text acc cnt =
  (fold_left (fun a c => a * 10 + char_value c) text acc,
   (cnt + length text)%nat, []).
Proof.
  induction text as [|c text IH]; intros acc cnt H.
  - cbn [read_digits fold_left length]. rewrite Nat.add_0_r. reflexivity.
  - inversion H as [|? ? Hc Ht]; subst. cbn [read_digits fold_left length].
    change (chr "0") with 48. change (chr "9") with 57.
    destruct (Z.leb_spec 48 c); [|lia]. destruct (Z.leb_spec c 57); [|lia].
    cbn [andb]. rewrite IH by exact Ht.
    replace (char_value c) with (c - 48).
    + f_equal. f_equal. lia.
    + replace c with (chr "0" + (c - 48)) at 2 by (change (chr "0") with 48; lia).
      rewrite char_value_digit; lia.
Qed.

Lemma signed_text_chars (v : Z) :
  Forall (fun c => uchar c <> 0) (signed_text v).
Proof.
  unfold signed_text. apply Forall_app. split.
  - destruct (v <? 0); constructor; [|constructor]. discriminate.
  - apply digit_chars_nonzero, decimal_text_chars. lia.
Qed.

(** X3. [int_to_string] writes a minus sign for a negative number and then
    the digits [uint_to_string] writes for its magnitude; reading the text
    back as a signed decimal number gives the number and leaves nothing
    over.  This holds for every [int], the smallest one included. *)
Theorem int_to_string_round_trip (past_end : Z) (in_number : Z)
    (out_string scratch11 : list Z) :
  INT_MIN <= in_number <= INT_MAX ->
  (12 <= length out_string)%nat -> (11 <= length scratch11)%nat ->
  let result := int_to_string past_end in_number out_string in
  let text := cstring result in
  text = (if in_number <? 0 then [chr "-"] else []) ++
         cstring (uint_to_string past_end (Z.abs in_number) scratch11) /\
  fst (fst (read_signed text)) = in_number /\
  snd (read_signed text) = [] /\
  (length text <= 11)%nat /\
  length result = length out_string.
Proof.
  intros Hv Hlen Hlen' result text.
  destruct (int_to_string_shape past_end in_number out_string Hv Hlen)
    as (tail & Heq & _).
  unfold INT_MIN, INT_MAX in Hv.
  assert (Htext : text = signed_text in_number).
  { unfold text, result. rewrite Heq. apply cstring_text, signed_text_chars. }
  destruct (uint_to_string_shape past_end (Z.abs in_number) scratch11)
    as (tail' & Heq' & _); [lia | lia |].
  assert (Hu : cstring (uint_to_string past_end (Z.abs in_number) scratch11) =
               decimal_text (Z.abs in_number)).
  { rewrite Heq'. apply cstring_text, digit_chars_nonzero, decimal_text_chars. lia. }
  pose proof (decimal_text_chars (Z.abs in_number) ltac:(lia)) as Hchars.
  pose proof (decimal_text_value (Z.abs in_number) ltac:(lia)) as Hval.
  pose proof (decimal_text_length (Z.abs in_number)) as Hdl.
  unfold text_value in Hval.
  split; [rewrite Htext, Hu; reflexivity|].
  assert (Hread : read_signed (signed_text in_number) =
                  (in_number, length (decimal_text (Z.abs in_number)), [])).
  { unfold signed_text. destruct (Z.ltb_spec in_number 0) as [Hneg|Hpos].
    - cbn [app read_signed]. rewrite Z.eqb_refl.
      rewrite read_digits_text by exact Hchars. rewrite Hval.
      f_equal. f_equal. lia.
    - cbn [app].
      destruct (decimal_text (Z.abs in_number)) as [|c rest] eqn:Hd;
        [simpl in Hdl; lia|].
      cbn [read_signed].
      assert (Hc : 48 <= c <= 57) by (inversion Hchars; assumption).
      destruct (Z.eqb_spec c (chr "-")) as [Hm|_];
        [change (chr "-") with 45 in Hm; lia|].
      rewrite read_digits_text by exact Hchars. rewrite Hval.
      f_equal. f_equal. lia. }
  rewrite Htext, Hread. cbn [fst snd].
  split; [reflexivity|]. split; [reflexivity|].
  split.
  { unfold signed_text. rewrite length_app.
    destruct (in_number <? 0); cbn [length]; lia. }
  unfold result, int_to_string. cbv zeta.
  rewrite int_to_string_loop_length. apply store_length.
Qed.

Lemma int_to_string_round_trip_witness :
  let text := cstring (int_to_string 0 (-2147483648) (repeat 7 12)) in
  text = str "-2147483648" /\ fst (fst (read_signed text)) = -2147483648.
Proof.
  destruct (int_to_string_round_trip 0 (-2147483648) (repeat 7 12) (repeat 7 11))
    as (_ & Hv & _); [unfold INT_MIN, INT_MAX; lia | simpl; lia | simpl; lia |].
  split; [reflexivity | exact Hv].
Defined.

(** X4. With a number of fewer than ten digits (eleven characters with the
    sign) the realigning block move of [int_to_string] copies one byte more
    than the text and its terminator: the cell behind the terminator of the
    result holds what was at index 12 of the array, which is outside an
    array of the twelve bytes the function asks for. *)
Theorem int_to_string_reads_past_end (past_end : Z) (in_number : Z)
    (out_string : list Z) :
  -1000000000 < in_number < 1000000000 -> length out_string = 12%nat ->
  let result := int_to_string past_end in_number out_string in
  nth (S (length (cstring result))) result 0 = past_end.
Proof.
  intros Hn Hlen result.
  destruct (int_to_string_shape past_end in_number out_string)
    as (tail & Heq & Hextra); [unfold INT_MIN, INT_MAX; lia | lia |].
  assert (Htext : cstring result = signed_text in_number).
  { unfold result. rewrite Heq. apply cstring_text, signed_text_chars. }
  assert (Hshort : (length (signed_text in_number) < 11)%nat).
  { unfold signed_text, decimal_text. rewrite !length_app. cbn [length].
    assert (Hq : 0 <= Z.abs in_number / 10 < 10 ^ Z.of_nat 8).
    { change (10 ^ Z.of_nat 8) with 100000000.
      split; [apply Z.div_pos; lia | apply Z.div_lt_upper_bound; lia]. }
    pose proof (decimal_digits_short 8 _ Hq).
    destruct (in_number <? 0); cbn [length]; lia. }
  destruct (Hextra Hshort) as (tail' & ->).
  rewrite Htext. unfold result. rewrite Heq.
  rewrite app_nth2 by lia.
  replace (S (length (signed_text in_number)) - length (signed_text in_number))%nat
    with 1%nat by lia.
  cbn [nth]. apply nth_overflow. lia.
Qed.

Lemma int_to_string_reads_past_end_witness :
  nth 4 (int_to_string 33 (-17) (repeat 7 12)) 0 = 33.
Proof.
  exact (int_to_string_reads_past_end 33 (-17) (repeat 7 12)
           ltac:(lia) ltac:(reflexivity)).
Defined.

(** ** hex_to_string *)

Lemma hex_to_string_loop_S (c : nat) (n : Z) (out : list Z) :
  hex_to_string_loop (S c) n out =
  hex_to_string_loop c (Z.shiftr n 4) (store out (c + 2) (dec_hex (Z.land n 15))).
Proof.
  reflexivity.
Qed.

Lemma dec_hex_value (d : Z) :
  0 <= d < 16 ->
  char_value (dec_hex d) = d /\
  (chr "0" <= dec_hex d <= chr "9" \/ chr "a" <= dec_hex d <= chr "f").
Proof.
  intros H.
  assert (Hd : d = 0 \/ d = 1 \/ d = 2 \/ d = 3 \/ d = 4 \/ d = 5 \/ d = 6 \/ d = 7 \/
               d = 8 \/ d = 9 \/ d = 10 \/ d = 11 \/ d = 12 \/ d = 13 \/ d = 14 \/
               d = 15) by lia.
  repeat (destruct Hd as [->|Hd]; [vm_compute; split; [reflexivity|]; intuition discriminate|]).
  subst d. vm_compute. split; [reflexivity|]. intuition discriminate.
Qed.

Lemma hex_to_string_loop_text (cnt : nat) : forall n pre mid rest,
  length pre = 2%nat -> length mid = cnt -> 0 <= n ->
  exists text,
    length text = cnt /\
    Forall (fun c => chr "0" <= c <= chr "9" \/ chr "a" <= c <= chr "f") text /\
    text_value 16 text = n mod 16 ^ Z.of_nat cnt /\
    hex_to_string_loop cnt n (pre ++ mid ++ rest) = pre ++ text ++ rest.
Proof.
  induction cnt as [|c IH]; intros n pre mid rest Hpre Hmid Hn.
  - destruct mid; [|discriminate]. exists []. split; [reflexivity|].
    split; [constructor|]. split; [|reflexivity].
    change (16 ^ Z.of_nat 0) with 1. rewrite Z.mod_1_r. reflexivity.
  - destruct (length_snoc mid c Hmid) as (mid' & x & -> & Hmid').
    rewrite hex_to_string_loop_S.
    rewrite <- app_assoc. cbn [app]. rewrite app_assoc.
    rewrite (store_app_here (pre ++ mid') rest x _ (c + 2))
      by (rewrite length_app; lia).
    rewrite <- app_assoc.
    change 15 with (Z.ones 4). rewrite Z.land_ones by lia.
    rewrite Z.shiftr_div_pow2 by lia. change (2 ^ 4) with 16.
    pose proof (Z.mod_pos_bound n 16 ltac:(lia)) as Hm.
    destruct (dec_hex_value (n mod 16) Hm) as [Hval Hchr].
    destruct (IH (n / 16) pre mid' (dec_hex (n mod 16) :: rest) Hpre Hmid')
      as (text & Hlen & Hchars & Hvalue & Heq).
    { apply Z.div_pos; lia. }
    exists (text ++ [dec_hex (n mod 16)]).
    split; [rewrite length_app; cbn [length]; lia|].
    split; [apply Forall_app; split; [exact Hchars | constructor; [exact Hchr | constructor]]|].
    split.
    + rewrite text_value_snoc, Hvalue, Hval.
      rewrite Nat2Z.inj_succ, Z.pow_succ_r by lia.
      rewrite (Z.rem_mul_r n 16 (16 ^ Z.of_nat c)) by lia. lia.
    + rewrite Heq, <- app_assoc. reflexivity.
Qed.

(** X5. [hex_to_string] writes "0x", exactly eight lower-case hexadecimal
    digits and the terminator, and touches nothing behind them; read back
    in base 16 the eight digits give the number. *)
Theorem hex_to_string_round_trip (in_number : Z) (out_string : list Z) :
  0 <= in_number < 4294967296 -> (11 <= length out_string)%nat ->
  exists digits,
    hex_to_string in_number out_string =
      str "0x" ++ digits ++ 0 :: skipn 11 out_string /\
    length digits = 8%nat /\
    Forall (fun c => chr "0" <= c <= chr "9" \/ chr "a" <= c <= chr "f") digits /\
    text_value 16 digits = in_number.
Proof.
  intros Hn Hlen. unfold hex_to_string. cbv zeta.
  destruct out_string as [|c0 [|c1 out]]; [simpl in Hlen; lia | simpl in Hlen; lia |].
  cbn [store].
  pose proof (firstn_skipn 8 out) as Hsplit.
  assert (H8 : length (firstn 8 out) = 8%nat)
    by (rewrite length_firstn; simpl in Hlen; lia).
  destruct (skipn 8 out) as [|c10 rest] eqn:Hskip.
  { apply (f_equal (@length Z)) in Hskip. rewrite length_skipn in Hskip.
    simpl in Hskip, Hlen. lia. }
  assert (Hrest : skipn 11 (c0 :: c1 :: out) = rest).
  { change (skipn 11 (c0 :: c1 :: out)) with (skipn (1 + 8) out).
    rewrite <- skipn_skipn, Hskip. reflexivity. }
  rewrite Hrest. clear Hrest Hskip.
  revert Hsplit H8. generalize (firstn 8 out) as mid. intros mid <- H8.
  rewrite (store_app_here mid rest c10 0 8 H8).
  destruct (hex_to_string_loop_text 8 in_number [chr "0"; chr "x"] mid (0 :: rest))
    as (text & Hl & Hchars & Hvalue & Heq); [reflexivity | exact H8 | lia |].
  exists text. split; [exact Heq|]. split; [exact Hl|]. split; [exact Hchars|].
  rewrite Hvalue. change (16 ^ Z.of_nat 8) with 4294967296.
  apply Z.mod_small. lia.
Qed.

Lemma hex_to_string_round_trip_witness :
  exists digits,
    hex_to_string 1024 (repeat 7 12) = str "0x" ++ digits ++ [0; 7] /\
    text_value 16 digits = 1024.
Proof.
  destruct (hex_to_string_round_trip 1024 (repeat 7 12))
    as (digits & Heq & _ & _ & Hv); [lia | simpl; lia |].
  exists digits. split; [exact Heq | exact Hv].
Defined.

(** ** append_string *)

Lemma cstring_firstn (s : list Z) : cstring s = firstn (stringlength s) s.
Proof.
  induction s as [|c s IH]; [reflexivity|].
  cbn [cstring stringlength]. destruct (uchar c =? 0); [reflexivity|].
  cbn [firstn]. now rewrite IH.
Qed.

Lemma cstring_length (s : list Z) : length (cstring s) = stringlength s.
Proof.
  induction s as [|c s IH]; [reflexivity|].
  cbn [cstring stringlength]. destruct (uchar c =? 0); [reflexivity|].
  cbn [length]. now rewrite IH.
Qed.

Lemma stringlength_bound (s : list Z) : (stringlength s <= length s)%nat.
Proof.
  induction s as [|c s IH]; [simpl; lia|].
  cbn [stringlength length]. destruct (uchar c =? 0); lia.
Qed.

(** The byte a terminated string ends at is a zero byte. *)
Lemma terminator_zero (s : list Z) (d : Z) :
  (stringlength s < length s)%nat -> uchar (nth (stringlength s) s d) = 0.
Proof.
  induction s as [|c s IH]; [simpl; lia|].
  cbn [stringlength length]. destruct (Z.eqb_spec (uchar c) 0) as [Hz|Hnz].
  - intros _. exact Hz.
  - intros H. cbn [nth]. apply IH. lia.
Qed.

Lemma cstring_nonzero (s : list Z) : Forall (fun c => uchar c <> 0) (cstring s).
Proof.
  induction s as [|c s IH]; [constructor|].
  cbn [cstring]. destruct (Z.eqb_spec (uchar c) 0); [constructor|].
  constructor; assumption.
Qed.

Lemma cstring_stop (text tl : list Z) (z : Z) :
  Forall (fun c => uchar c <> 0) text -> uchar z = 0 ->
  cstring (text ++ z :: tl) = text.
Proof.
  intros H Hz. induction H as [|c text Hc _ IH]; cbn [app cstring].
  - now rewrite Hz.
  - apply Z.eqb_neq in Hc. now rewrite Hc, IH.
Qed.

Lemma firstn_S_nth (d : Z) (l : list Z) : forall k,
  (k < length l)%nat -> firstn (S k) l = firstn k l ++ [nth k l d].
Proof.
  induction l as [|x l IH]; intros [|k] H; simpl in H; try lia; [reflexivity|].
  cbn [firstn nth app]. f_equal. apply IH. lia.
Qed.

Lemma append_string_shape (pe : Z) (string1 string2 out : list Z) :
  (stringlength string2 < length string2)%nat ->
  (stringlength string1 + stringlength string2 + 1 <= length out)%nat ->
  append_string pe string1 string2 out =
  cstring string1 ++ cstring string2 ++
  nth (stringlength string2) string2 pe ::
  skipn (stringlength string1 + stringlength string2 + 1) out.
Proof.
  intros H2 Hout. unfold append_string. cbv zeta.
  pose proof (stringlength_bound string1) as H1.
  rewrite !memmove_stores.
  rewrite !loads_in_range by (cbn [Nat.add]; lia).
  cbn [skipn]. rewrite <- cstring_firstn.
  rewrite (firstn_S_nth pe) by exact H2. rewrite <- cstring_firstn.
  rewrite stores_front by (rewrite cstring_length; lia).
  rewrite <- (cstring_length string1) at 1.
  rewrite stores_app_at
    by (rewrite length_app, length_skipn, !cstring_length; cbn [length]; lia).
  rewrite <- app_assoc. cbn [app]. do 3 f_equal.
  rewrite skipn_skipn, length_app, !cstring_length. cbn [length]. f_equal. lia.
Qed.

Lemma append_string_frame (past_end : Z) (string1 string2 out_string : list Z) :
  (stringlength string2 < length string2)%nat ->
  (stringlength string1 + stringlength string2 + 1 <= length out_string)%nat ->
  let result := append_string past_end string1 string2 out_string in
  let total := (stringlength string1 + stringlength string2)%nat in
  cstring result = cstring string1 ++ cstring string2 /\
  stringlength result = total /\
  skipn (total + 1) result = skipn (total + 1) out_string /\
  length result = length out_string.
Proof.
  intros H2 Hout result total.
  assert (Heq : result = (cstring string1 ++ cstring string2) ++
                nth (stringlength string2) string2 past_end ::
                skipn (total + 1) out_string).
  { unfold result. rewrite append_string_shape by assumption.
    rewrite <- app_assoc. reflexivity. }
  assert (Htext : cstring result = cstring string1 ++ cstring string2).
  { rewrite Heq. apply cstring_stop.
    - apply Forall_app. split; apply cstring_nonzero.
    - apply terminator_zero. exact H2. }
  assert (Hlen : length (cstring string1 ++ cstring string2) = total)
    by (rewrite length_app, !cstring_length; reflexivity).
  split; [exact Htext|].
  split; [rewrite <- cstring_length, Htext; exact Hlen|].
  split.
  - rewrite Heq at 1.
    replace (total + 1)%nat with
      (length ((cstring string1 ++ cstring string2) ++
               [nth (stringlength string2) string2 past_end])) at 1
      by (rewrite length_app, Hlen; reflexivity).
    replace ((cstring string1 ++ cstring string2) ++
             nth (stringlength string2) string2 past_end ::
             skipn (total + 1) out_string)
      with (((cstring string1 ++ cstring string2) ++
             [nth (stringlength string2) string2 past_end]) ++
            skipn (total + 1) out_string)
      by (rewrite <- app_assoc; reflexivity).
    apply skipn_app_exact.
  - unfold result, append_string. cbv zeta. rewrite !memmove_length. reflexivity.
Qed.


(** X6. [append_string] puts the text of the first string, the text of
    the second and one terminator into the output and writes nothing
    behind that terminator.  Both strings must be terminated inside their
    arrays and the output must have room for the two texts and the
    terminator. *)
Theorem append_string_concat (past_end : Z) (string1 string2 out_string : list Z) :
  (stringlength string1 < length string1)%nat ->
  (stringlength string2 < length string2)%nat ->
  (stringlength string1 + stringlength string2 + 1 <= length out_string)%nat ->
  let result := append_string past_end string1 string2 out_string in
  let total := (stringlength string1 + stringlength string2)%nat in
  cstring result = cstring string1 ++ cstring string2 /\
  stringlength result = total /\
  skipn (total + 1) result = skipn (total + 1) out_string /\
  length result = length out_string.
Proof.
  intros _ H2 Hout. apply append_string_frame; assumption.
Qed.

Lemma append_string_concat_witness :
  cstring (append_string 0 (str "1.5x2^" ++ [0; 9]) (str "-3" ++ [0]) (repeat 7 12))
  = str "1.5x2^" ++ str "-3".
Proof.
  destruct (append_string_concat 0 (str "1.5x2^" ++ [0; 9]) (str "-3" ++ [0])
              (repeat 7 12)) as (H & _); [simpl; lia | simpl; lia | simpl; lia |].
  exact H.
Defined.

(** ** mantissa_to_string and float_to_string *)

Lemma all_zeroes_text (cnt : nat) : forall pre mid rest,
  length mid = cnt ->
  all_zeroes cnt (length pre) (pre ++ mid ++ rest) =
  pre ++ repeat (chr "0") cnt ++ rest.
Proof.
  induction cnt as [|j IH]; intros pre mid rest Hmid.
  - destruct mid; [reflexivity | discriminate].
  - destruct (length_snoc mid j Hmid) as (mid' & x & -> & Hmid').
    cbn [all_zeroes]. rewrite <- app_assoc. cbn [app]. rewrite app_assoc.
    rewrite (store_app_here (pre ++ mid') rest x _ (length pre + j))
      by (rewrite length_app; lia).
    rewrite <- app_assoc, IH by exact Hmid'.
    cbn [repeat]. rewrite repeat_cons, <- app_assoc. reflexivity.
Qed.

(** The digits of the final loop do not depend on where they are written. *)
Lemma mantissa_digits_text (cnt : nat) : forall digit_bound temp_output,
  exists digits,
    length digits = cnt /\
    Forall (fun c => 48 <= c <= 57) digits /\
    forall pre mid rest, length mid = cnt ->
      mantissa_digits cnt digit_bound temp_output (length pre) (pre ++ mid ++ rest) =
      pre ++ digits ++ rest.
Proof.
  induction cnt as [|j IH]; intros digit_bound temp_output.
  - exists []. split; [reflexivity|]. split; [constructor|].
    intros pre mid rest Hmid. destruct mid; [reflexivity | discriminate].
  - destruct (IH digit_bound (temp_output / 10)) as (digits & Hlen & Hchars & Heq).
    set (c := if (temp_output =? 0) && (Z.of_nat j <? digit_bound) then chr "0"
              else dec_hex (temp_output mod 10)).
    assert (Hc : 48 <= c <= 57).
    { unfold c. destruct ((temp_output =? 0) && (Z.of_nat j <? digit_bound)).
      - change (chr "0") with 48. lia.
      - pose proof (Z.mod_pos_bound temp_output 10 ltac:(lia)).
        rewrite dec_hex_digit by lia. change (chr "0") with 48. lia. }
    exists (digits ++ [c]).
    split; [rewrite length_app; cbn [length]; lia|].
    split; [apply Forall_app; split; [exact Hchars | constructor; [exact Hc | constructor]]|].
    intros pre mid rest Hmid.
    destruct (length_snoc mid j Hmid) as (mid' & x & -> & Hmid').
    cbn [mantissa_digits].
    assert (Hst : forall v, store (pre ++ (mid' ++ [x]) ++ rest) (length pre + j) v =
                            pre ++ mid' ++ v :: rest).
    { intros v. rewrite <- app_assoc. cbn [app]. rewrite app_assoc.
      rewrite (store_app_here (pre ++ mid') rest x _ (length pre + j))
        by (rewrite length_app; lia).
      rewrite <- app_assoc. reflexivity. }
    replace (if (temp_output =? 0) && (Z.of_nat j <? digit_bound)
             then store (pre ++ (mid' ++ [x]) ++ rest) (length pre + j) (chr "0")
             else store (pre ++ (mid' ++ [x]) ++ rest) (length pre + j)
                    (dec_hex (temp_output mod 10)))
      with (pre ++ mid' ++ c :: rest).
    2:{ unfold c. destruct ((temp_output =? 0) && (Z.of_nat j <? digit_bound));
          rewrite Hst; reflexivity. }
    rewrite Heq by exact Hmid'. rewrite <- app_assoc. reflexivity.
Qed.

(** [mantissa_to_string]: a carry of 0 or 1, as many decimal digits as
    asked for, and a terminator behind them. *)
Lemma mantissa_to_string_text (m d : Z) :
  0 <= d <= INT_MAX ->
  exists carry digits,
    (carry = 0 \/ carry = 1 /\ digits = repeat (chr "0") (Z.to_nat d)) /\
    length digits = Z.to_nat d /\
    Forall (fun c => 48 <= c <= 57) digits /\
    forall pre mid x rest, length mid = Z.to_nat d ->
      mantissa_to_string m d 0 (pre ++ mid ++ x :: rest) (length pre) =
      (carry, pre ++ digits ++ 0 :: rest).
Proof.
  intros Hd. unfold mantissa_to_string. cbv zeta.
  rewrite s32_small by (unfold INT_MIN; unfold INT_MAX in *; lia).
  replace (d - 1 + 1) with d by lia.
  assert (Hst : forall pre mid x rest, length mid = Z.to_nat d ->
            store (pre ++ mid ++ x :: rest) (length pre + Z.to_nat d) 0 =
            pre ++ mid ++ 0 :: rest).
  { intros pre mid x rest Hmid. rewrite app_assoc.
    rewrite (store_app_here (pre ++ mid) rest x 0 (length pre + Z.to_nat d))
      by (rewrite length_app; lia).
    rewrite <- app_assoc. reflexivity. }
  destruct (Z.eqb_spec d 0) as [Hz|Hnz].
  { exists 0, []. split; [left; reflexivity|]. subst d.
    split; [reflexivity|]. split; [constructor|].
    intros pre mid x rest Hmid. rewrite Hst by exact Hmid.
    destruct mid; [|discriminate]. cbn [app].
    rewrite (store_app_here pre rest 0 0 (length pre) eq_refl). reflexivity. }
  destruct (m =? 0).
  { exists 0, (repeat (chr "0") (Z.to_nat d)). split; [left; reflexivity|].
    split; [apply repeat_length|].
    split; [apply Forall_forall; intros c Hc; apply repeat_spec in Hc; subst c;
            change (chr "0") with 48; lia|].
    intros pre mid x rest Hmid. rewrite Hst by exact Hmid.
    rewrite all_zeroes_text by exact Hmid. reflexivity. }
  match goal with
  | |- context [if ?c then (1, _) else _] => destruct c
  end.
  { exists 1, (repeat (chr "0") (Z.to_nat d)). split; [right; split; reflexivity|].
    split; [apply repeat_length|].
    split; [apply Forall_forall; intros c Hc; apply repeat_spec in Hc; subst c;
            change (chr "0") with 48; lia|].
    intros pre mid x rest Hmid. rewrite Hst by exact Hmid.
    rewrite all_zeroes_text by exact Hmid. reflexivity. }
  match goal with
  | |- context [mantissa_digits _ ?db ?t _ _] =>
      destruct (mantissa_digits_text (Z.to_nat d) db t) as (digits & Hlen & Hchars & Heq)
  end.
  exists 0, digits. split; [left; reflexivity|]. split; [exact Hlen|].
  split; [exact Hchars|].
  intros pre mid x rest Hmid. rewrite Hst by exact Hmid.
  rewrite Heq by exact Hmid. reflexivity.
Qed.

(** The carry does not depend on the array. *)
Lemma mantissa_to_string_carry (m d ea : Z) (arr arr' : list Z) (off off' : nat) :
  fst (mantissa_to_string m d ea arr off) = fst (mantissa_to_string m d ea arr' off').
Proof.
  unfold mantissa_to_string. cbv zeta.
  destruct (d =? 0); [reflexivity|]. destruct (m =? 0); [reflexivity|].
  match goal with
  | |- context [if ?c then (1, _) else _] => destruct c
  end; reflexivity.
Qed.

Lemma stringlength_text (text tl : list Z) :
  Forall (fun c => uchar c <> 0) text -> stringlength (text ++ 0 :: tl) = length text.
Proof.
  intros H. rewrite <- cstring_length, cstring_text by exact H. reflexivity.
Qed.

Lemma stores_over (text pre l : list Z) :
  length text = length pre -> stores (pre ++ l) 0 text = text ++ l.
Proof.
  intros H. rewrite stores_front by (rewrite length_app; lia).
  rewrite H, skipn_app_exact. reflexivity.
Qed.

Lemma split_at (n : nat) (l : list Z) :
  (n <= length l)%nat ->
  exists pre rest, l = pre ++ rest /\ length pre = n.
Proof.
  intros H. exists (firstn n l), (skipn n l).
  split; [symmetry; apply firstn_skipn | rewrite length_firstn; lia].
Qed.

Lemma signed_text_short (v : Z) :
  -1000 < v < 1000 -> (length (signed_text v) <= 4)%nat.
Proof.
  intros Hv. unfold signed_text, decimal_text. rewrite !length_app. cbn [length].
  assert (Hq : 0 <= Z.abs v / 10 < 10 ^ Z.of_nat 2).
  { change (10 ^ Z.of_nat 2) with 100.
    split; [apply Z.div_pos; lia | apply Z.div_lt_upper_bound; lia]. }
  pose proof (decimal_digits_short 2 _ Hq) as H3.
  assert (Hf : decimal_digits 9 (Z.abs v / 10) = decimal_digits 3 (Z.abs v / 10)).
  { assert (Hb : forall k, 0 <= Z.abs v / 10 < 10 ^ Z.of_nat (3 + k)).
    { intros k. split; [lia|]. rewrite Nat2Z.inj_add, Z.pow_add_r by lia.
      change (10 ^ Z.of_nat 3) with 1000.
      pose proof (Z.pow_pos_nonneg 10 (Z.of_nat k) ltac:(lia) ltac:(lia)).
      change (10 ^ Z.of_nat 2) with 100 in Hq. nia. }
    rewrite (decimal_digits_fuel 8) by exact (Hb 5%nat).
    rewrite (decimal_digits_fuel 7) by exact (Hb 4%nat).
    rewrite (decimal_digits_fuel 6) by exact (Hb 3%nat).
    rewrite (decimal_digits_fuel 5) by exact (Hb 2%nat).
    rewrite (decimal_digits_fuel 4) by exact (Hb 1%nat).
    rewrite (decimal_digits_fuel 3) by exact (Hb 0%nat).
    reflexivity. }
  rewrite Hf. destruct (v <? 0); cbn [length]; lia.
Qed.

(** What [float_to_string] writes for a number that is neither NaN, zero
    nor infinite, given the carry and the digits of its mantissa. *)
Lemma float_to_string_text (pe : Z) (f : FLOAT_FORMAT_STRUCT) (d : Z)
    (st : scratch) (out : list Z) (carry : Z) (digits : list Z) :
  (forall pre mid x rest, length mid = Z.to_nat d ->
     mantissa_to_string (mantissa f) d 0 (pre ++ mid ++ x :: rest) (length pre) =
     (carry, pre ++ digits ++ 0 :: rest)) ->
  length digits = Z.to_nat d ->
  Forall (fun c => 48 <= c <= 57) digits ->
  carry = 0 \/ carry = 1 ->
  0 <= exponent f < 255 -> float_is_zero f = false -> 0 <= d <= 4 ->
  length (temp_buffer_mant st) = 11%nat -> length (temp_buffer_exp st) = 12%nat ->
  (11 + Z.to_nat d <= length out)%nat ->
  let etext := if exponent f =? 0 then str "-126"
               else signed_text (exponent f - 127 + carry) in
  let text := (if SimplePrint.sign f =? 0 then [] else [chr "-"]) ++
              (if (exponent f =? 0) && (carry =? 0) then chr "0" else chr "1") ::
              chr "." :: digits ++ str "x2^" ++ etext in
  let result := snd (float_to_string pe f d st out) in
  cstring result = text /\
  (length text <= 10 + Z.to_nat d)%nat /\
  skipn (length text + 1) result = skipn (length text + 1) out /\
  length result = length out.
Proof.
  intros Hmts Hlen Hchars Hcarry He Hzero Hd Hbm Hbe Hout etext text result.
  set (lead := if (exponent f =? 0) && (carry =? 0) then chr "0" else chr "1").
  set (head := (if SimplePrint.sign f =? 0 then [] else [chr "-"]) ++ [lead; chr "."]).
  assert (Hhead : Forall (fun c => uchar c <> 0) head).
  { unfold head, lead. apply Forall_app. split.
    - destruct (SimplePrint.sign f =? 0); constructor; [discriminate | constructor].
    - destruct ((exponent f =? 0) && (carry =? 0));
        constructor; try discriminate; constructor; try discriminate; constructor. }
  assert (Hhl : (2 <= length head <= 3)%nat).
  { unfold head. rewrite length_app. destruct (SimplePrint.sign f =? 0); cbn [length]; lia. }
  (* the coefficient *)
  assert (Hcoef : exists tail,
    (3 <= length tail)%nat /\
    (let '(exponent_add_1, mant) :=
      if negb (SimplePrint.sign f =? 0) then
        let '(ea, mant) :=
          mantissa_to_string (mantissa f) d 0 (temp_buffer_mant st) 3 in
        if (exponent f =? 0) && (ea =? 0)
        then (ea, stores mant 0 (str "-0."))
        else (ea, stores mant 0 (str "-1."))
      else
        let '(ea, mant) :=
          mantissa_to_string (mantissa f) d 0 (temp_buffer_mant st) 2 in
        if (exponent f =? 0) && (ea =? 0)
        then (ea, stores mant 0 (str "0."))
        else (ea, stores mant 0 (str "1.")) in
     (exponent_add_1, mant)) = (carry, head ++ digits ++ 0 :: tail)).
  { destruct (split_at (length head) (temp_buffer_mant st)) as (pre & l & Hsplit & Hpre);
      [lia|].
    rewrite Hsplit in Hbm |- *. rewrite length_app in Hbm.
    destruct (split_at (Z.to_nat d) l) as (mid & l' & -> & Hmid); [lia|].
    rewrite length_app in Hbm.
    destruct l' as [|x tail]; [simpl in Hbm; lia|]. cbn [length] in Hbm.
    exists tail. split; [lia|].
    unfold head in Hpre |- *. unfold lead.
    destruct (SimplePrint.sign f =? 0); cbn [negb app length] in Hpre |- *.
    - rewrite <- Hpre, Hmts by exact Hmid.
      destruct ((exponent f =? 0) && (carry =? 0));
        rewrite stores_over by (rewrite Hpre; reflexivity); reflexivity.
    - rewrite <- Hpre, Hmts by exact Hmid.
      destruct ((exponent f =? 0) && (carry =? 0));
        rewrite stores_over by (rewrite Hpre; reflexivity); reflexivity. }
  destruct Hcoef as (tail & Htail & Hcoef).
  (* the exponent *)
  assert (Hexp : exists etail,
    (if exponent f =? 0 then stores (temp_buffer_exp st) 0 (str "-126" ++ [0])
     else int_to_string pe (s32 (uchar (exponent f) - 127 + carry)) (temp_buffer_exp st))
    = etext ++ 0 :: etail).
  { unfold etext. destruct (Z.eqb_spec (exponent f) 0) as [Hz|Hnz].
    - exists (skipn 5 (temp_buffer_exp st)).
      rewrite stores_front by (cbn [length str app]; lia). reflexivity.
    - rewrite uchar_small by lia.
      rewrite s32_small by (unfold INT_MIN, INT_MAX; lia).
      destruct (int_to_string_shape pe (exponent f - 127 + carry) (temp_buffer_exp st))
        as (etail & Heq & _); [unfold INT_MIN, INT_MAX; lia | lia |].
      exists etail. exact Heq. }
  destruct Hexp as (etail & Hexp).
  assert (Hetext : Forall (fun c => uchar c <> 0) etext).
  { unfold etext. destruct (exponent f =? 0); [|apply signed_text_chars].
    repeat (constructor; [discriminate|]). constructor. }
  assert (Helen : (length etext <= 4)%nat).
  { unfold etext. destruct (exponent f =? 0); [cbn [length str]; lia|].
    apply signed_text_short. lia. }
  (* the whole *)
  assert (Hres : result =
    snd (carry,
         append_string pe ((head ++ digits ++ str "x2^") ++ 0 :: skipn 3 tail)
           (etext ++ 0 :: etail) out)).
  { unfold result, float_to_string, compare_isnan.
    replace (exponent f =? 255) with false by (symmetry; apply Z.eqb_neq; lia).
    rewrite Hzero, andb_false_r. cbn [andb]. cbv zeta.
    revert Hcoef.
    match goal with
    | |- (let '(_, _) := ?c in _) = _ -> _ => destruct c as [ea mant]
    end.
    intros Hc. injection Hc as -> ->. rewrite Hexp. cbn [snd].
    f_equal.
    replace (head ++ digits ++ 0 :: tail) with ((head ++ digits) ++ 0 :: tail)
      by (rewrite <- app_assoc; reflexivity).
    assert (Hall : Forall (fun c => uchar c <> 0) (head ++ digits)).
    { apply Forall_app. split; [exact Hhead | apply digit_chars_nonzero, Hchars]. }
    rewrite stringlength_text by exact Hall.
    rewrite stores_app_at by (cbn [length str app]; lia).
    rewrite <- !app_assoc. reflexivity. }
  cbn [snd] in Hres.
  assert (Hmtext : Forall (fun c => uchar c <> 0) (head ++ digits ++ str "x2^")).
  { apply Forall_app. split; [exact Hhead|]. apply Forall_app. split.
    - apply digit_chars_nonzero, Hchars.
    - repeat (constructor; [discriminate|]). constructor. }
  assert (Htext : text = (head ++ digits ++ str "x2^") ++ etext).
  { unfold text, head. fold lead. rewrite <- !app_assoc. reflexivity. }
  assert (Hl1 : stringlength ((head ++ digits ++ str "x2^") ++ 0 :: skipn 3 tail) =
                length (head ++ digits ++ str "x2^"))
    by (apply stringlength_text, Hmtext).
  assert (Hl2 : stringlength (etext ++ 0 :: etail) = length etext)
    by (apply stringlength_text, Hetext).
  assert (Hml : (length (head ++ digits ++ str "x2^") <= 6 + Z.to_nat d)%nat).
  { rewrite !length_app, Hlen. cbn [length str]. lia. }
  destruct (append_string_frame pe ((head ++ digits ++ str "x2^") ++ 0 :: skipn 3 tail)
              (etext ++ 0 :: etail) out) as (Hc & Hsl & Hframe & Hlength).
  { rewrite Hl2, length_app. cbn [length]. lia. }
  { rewrite Hl1, Hl2. lia. }
  rewrite Hl1, Hl2 in Hframe.
  assert (Htl : length text = (length (head ++ digits ++ str "x2^") + length etext)%nat)
    by (rewrite Htext, length_app; reflexivity).
  rewrite Hres. split.
  { rewrite Hc, !cstring_text by assumption. symmetry. exact Htext. }
  split; [lia|]. split; [|exact Hlength].
  rewrite Htl. exact Hframe.
Qed.

Lemma digit_chars_named (text : list Z) :
  Forall (fun c => 48 <= c <= 57) text ->
  Forall (fun c => chr "0" <= c <= chr "9") text.
Proof.
  apply Forall_impl. intros c H. change (chr "0") with 48. change (chr "9") with 57.
  exact H.
Qed.

Lemma int_to_string_text (pe : Z) (v : Z) (out : list Z) :
  INT_MIN <= v <= INT_MAX -> (12 <= length out)%nat ->
  cstring (int_to_string pe v out) = signed_text v.
Proof.
  intros Hv Hlen.
  destruct (int_to_string_shape pe v out Hv Hlen) as (tail & -> & _).
  apply cstring_text, signed_text_chars.
Qed.

(** X7. For a number that is neither NaN, zero nor infinite and up to
    four decimals, [float_to_string] writes: a minus sign if the sign bit is
    set; the digit 1, or 0 for a subnormal whose mantissa does not round up
    to a carry; a point; exactly [decimal_point_digits] decimal digits;
    "x2^"; and the exponent, which is "-126" for a subnormal and otherwise
    what [int_to_string] writes for the biased exponent minus 127 plus the
    carry.  When the mantissa rounds up to a carry all the decimals are 0. *)
Theorem float_to_string_format (past_end : Z) (in_float : FLOAT_FORMAT_STRUCT)
    (decimal_point_digits : Z) (st : scratch) (out_string : list Z) :
  0 <= exponent in_float < 255 -> float_is_zero in_float = false ->
  0 <= decimal_point_digits <= 4 ->
  length (temp_buffer_mant st) = 11%nat -> length (temp_buffer_exp st) = 12%nat ->
  (11 + Z.to_nat decimal_point_digits <= length out_string)%nat ->
  let carry := carry_flag (mantissa in_float) decimal_point_digits in
  exists digits,
    length digits = Z.to_nat decimal_point_digits /\
    Forall (fun c => chr "0" <= c <= chr "9") digits /\
    (carry = 0 \/
     carry = 1 /\ digits = repeat (chr "0") (Z.to_nat decimal_point_digits)) /\
    cstring (snd (float_to_string past_end in_float decimal_point_digits st out_string)) =
      (if SimplePrint.sign in_float =? 0 then [] else [chr "-"]) ++
      (if (exponent in_float =? 0) && (carry =? 0) then chr "0" else chr "1") ::
      chr "." :: digits ++ str "x2^" ++
      (if exponent in_float =? 0 then str "-126"
       else cstring (int_to_string past_end (exponent in_float - 127 + carry)
                       (temp_buffer_exp st))).
Proof.
  intros He Hzero Hd Hbm Hbe Hout carry.
  destruct (mantissa_to_string_text (mantissa in_float) decimal_point_digits)
    as (c & digits & Hcarry & Hlen & Hchars & Heq); [unfold INT_MAX; lia|].
  assert (Hc : carry = c).
  { unfold carry, carry_flag.
    rewrite (mantissa_to_string_carry (mantissa in_float) decimal_point_digits 0
               (repeat 0 11)
               ([] ++ repeat 0 (Z.to_nat decimal_point_digits) ++ 0 :: []) 2
               (length (@nil Z))).
    rewrite Heq by apply repeat_length. reflexivity. }
  exists digits. split; [exact Hlen|]. split; [apply digit_chars_named, Hchars|].
  split; [rewrite Hc; exact Hcarry|].
  destruct (float_to_string_text past_end in_float decimal_point_digits st out_string
              c digits) as (Htext & _); try assumption.
  { destruct Hcarry as [->|[-> _]]; [left | right]; reflexivity. }
  rewrite Htext, Hc.
  destruct (Z.eqb_spec (exponent in_float) 0) as [Hz|Hnz]; [reflexivity|].
  rewrite int_to_string_text; [reflexivity | | lia].
  unfold INT_MIN, INT_MAX. destruct Hcarry as [->|[-> _]]; lia.
Qed.

Lemma float_to_string_format_witness :
  exists digits,
    length digits = 3%nat /\
    cstring (snd (float_to_string 0 (float_of_bits 0xC0A00000) 3 scratch_init
                    (repeat 7 14)))
    = str "-1." ++ digits ++ str "x2^2".
Proof.
  destruct (float_to_string_format 0 (float_of_bits 0xC0A00000) 3 scratch_init
              (repeat 7 14)) as (digits & Hl & _ & _ & H);
    [vm_compute; split; [discriminate | reflexivity] | reflexivity | lia
    | reflexivity | reflexivity | simpl; lia |].
  exists digits. split; [exact Hl | exact H].
Defined.

Lemma stores_front_frame (text out : list Z) (n : nat) :
  (length text <= n)%nat -> (length text <= length out)%nat ->
  skipn n (stores out 0 text) = skipn n out /\
  length (stores out 0 text) = length out.
Proof.
  intros Hn Hl. rewrite stores_front by exact Hl. split.
  - replace n with ((n - length text) + length text)%nat at 1 by lia.
    rewrite <- skipn_skipn, skipn_app_exact, skipn_skipn. f_equal. lia.
  - rewrite length_app, length_skipn. lia.
Qed.

(** X8. The buffer size the header asks for is enough: for every float
    and up to four decimals the text [float_to_string] writes has at most
    [10 + decimal_point_digits] characters, and nothing is written at or
    behind index [11 + decimal_point_digits] of the output. *)
Theorem float_to_string_fits (past_end : Z) (in_float : FLOAT_FORMAT_STRUCT)
    (decimal_point_digits : Z) (st : scratch) (out_string : list Z) :
  0 <= exponent in_float <= 255 ->
  0 <= decimal_point_digits <= 4 ->
  length (temp_buffer_mant st) = 11%nat -> length (temp_buffer_exp st) = 12%nat ->
  (11 + Z.to_nat decimal_point_digits <= length out_string)%nat ->
  let result :=
    snd (float_to_string past_end in_float decimal_point_digits st out_string) in
  (length (cstring result) <= 10 + Z.to_nat decimal_point_digits)%nat /\
  skipn (11 + Z.to_nat decimal_point_digits) result =
    skipn (11 + Z.to_nat decimal_point_digits) out_string /\
  length result = length out_string.
Proof.
  intros He Hd Hbm Hbe Hout result.
  assert (Hspecial : forall text,
            (length text <= 4)%nat ->
            Forall (fun c => uchar c <> 0) text ->
            result = stores out_string 0 (text ++ [0]) ->
            (length (cstring result) <= 10 + Z.to_nat decimal_point_digits)%nat /\
            skipn (11 + Z.to_nat decimal_point_digits) result =
              skipn (11 + Z.to_nat decimal_point_digits) out_string /\
            length result = length out_string).
  { intros text Ht Hnz ->.
    assert (Hl : length (text ++ [0]) = S (length text))
      by (rewrite length_app; cbn [length]; lia).
    destruct (stores_front_frame (text ++ [0]) out_string
                (11 + Z.to_nat decimal_point_digits)) as (Hf & Hlen); [lia | lia |].
    split; [|split; [exact Hf | exact Hlen]].
    rewrite stores_front by lia. rewrite <- app_assoc. cbn [app].
    rewrite cstring_text by exact Hnz. lia. }
  assert (Hnz : forall s, forallb (fun c => negb (uchar c =? 0)) (str s) = true ->
            Forall (fun c => uchar c <> 0) (str s)).
  { intros s H. apply Forall_forall. intros c Hc.
    rewrite forallb_forall in H. specialize (H c Hc).
    apply negb_true_iff, Z.eqb_neq in H. exact H. }
  destruct (compare_isnan in_float) eqn:Hnan.
  { apply (Hspecial (str "NaN")); [cbn [length str]; lia | apply Hnz; reflexivity |].
    unfold result, float_to_string. rewrite Hnan. reflexivity. }
  destruct (float_is_zero in_float) eqn:Hzero.
  { apply (Hspecial (str "0.0")); [cbn [length str]; lia | apply Hnz; reflexivity |].
    unfold result, float_to_string. rewrite Hnan, Hzero. reflexivity. }
  destruct (Z.eqb_spec (exponent in_float) 255) as [Hinf|Hfin].
  { destruct (SimplePrint.sign in_float =? 0) eqn:Hsign.
    - apply (Hspecial (str "Inf")); [cbn [length str]; lia | apply Hnz; reflexivity |].
      unfold result, float_to_string. rewrite Hnan, Hzero. cbv zeta.
      rewrite Hsign, Hinf. reflexivity.
    - apply (Hspecial (str "-Inf")); [cbn [length str]; lia | apply Hnz; reflexivity |].
      unfold result, float_to_string. rewrite Hnan, Hzero. cbv zeta.
      rewrite Hsign, Hinf. reflexivity. }
  clear Hspecial Hnz.
  destruct (mantissa_to_string_text (mantissa in_float) decimal_point_digits)
    as (c & digits & Hcarry & Hlen & Hdig & Heq); [unfold INT_MAX; lia|].
  destruct (float_to_string_text past_end in_float decimal_point_digits st out_string
              c digits) as (Htext & Hbound & Hframe & Hlength);
    [ exact Heq | exact Hlen | exact Hdig
    | destruct Hcarry as [->|[-> _]]; [left | right]; reflexivity
    | lia | exact Hzero | exact Hd | exact Hbm | exact Hbe | exact Hout | ].
  unfold result.
  split; [rewrite Htext; exact Hbound|]. split; [|exact Hlength].
  match type of Hframe with
  | skipn (?k + 1) ?r = skipn _ ?o =>
      replace (11 + Z.to_nat decimal_point_digits)%nat
        with ((11 + Z.to_nat decimal_point_digits - (k + 1)) + (k + 1))%nat by lia;
      rewrite <- (skipn_skipn (11 + Z.to_nat decimal_point_digits - (k + 1)) (k + 1) r),
              <- (skipn_skipn (11 + Z.to_nat decimal_point_digits - (k + 1)) (k + 1) o),
              Hframe; reflexivity
  end.
Qed.

Lemma float_to_string_fits_witness :
  let result := snd (float_to_string 0 (float_of_bits 0x80800000) 3 scratch_init
                       (repeat 7 16)) in
  (length (cstring result) <= 13)%nat /\ skipn 14 result = [7; 7].
Proof.
  destruct (float_to_string_fits 0 (float_of_bits 0x80800000) 3 scratch_init
              (repeat 7 16)) as (Hl & Hf & _);
    [vm_compute; split; discriminate | lia | reflexivity | reflexivity | simpl; lia |].
  split; [exact Hl | exact Hf].
Defined.

(** X9. The sign bit only adds the minus sign: for a number that is
    neither NaN, zero nor infinite, the text of the float with the sign
    bit set is a minus sign followed by the text of the float with the
    sign bit clear.  Nor does the text depend on what earlier calls left in
    the two static scratch arrays or in the output. *)
Theorem float_to_string_sign (past_end past_end' : Z) (m e : Z)
    (decimal_point_digits : Z) (st st' : scratch) (out_string out_string' : list Z) :
  0 <= e < 255 -> (e <> 0 \/ m <> 0) ->
  0 <= decimal_point_digits <= 4 ->
  length (temp_buffer_mant st) = 11%nat -> length (temp_buffer_exp st) = 12%nat ->
  length (temp_buffer_mant st') = 11%nat -> length (temp_buffer_exp st') = 12%nat ->
  (11 + Z.to_nat decimal_point_digits <= length out_string)%nat ->
  (11 + Z.to_nat decimal_point_digits <= length out_string')%nat ->
  cstring (snd (float_to_string past_end (mkFloat m e 1) decimal_point_digits
                  st out_string)) =
  chr "-" ::
  cstring (snd (float_to_string past_end' (mkFloat m e 0) decimal_point_digits
                  st' out_string')).
Proof.
  intros He Hnz Hd Hbm Hbe Hbm' Hbe' Hout Hout'.
  destruct (mantissa_to_string_text m decimal_point_digits)
    as (c & digits & Hcarry & Hlen & Hdig & Heq); [unfold INT_MAX; lia|].
  assert (Hc : c = 0 \/ c = 1) by (destruct Hcarry as [->|[-> _]]; [left | right]; reflexivity).
  assert (Hzero : forall s, float_is_zero (mkFloat m e s) = false).
  { intros s. unfold float_is_zero. cbn [exponent mantissa].
    destruct (Z.eqb_spec e 0), (Z.eqb_spec m 0); try reflexivity. lia. }
  destruct (float_to_string_text past_end (mkFloat m e 1) decimal_point_digits st
              out_string c digits) as (H1 & _); try assumption; try apply Hzero.
  destruct (float_to_string_text past_end' (mkFloat m e 0) decimal_point_digits st'
              out_string' c digits) as (H0 & _); try assumption; try apply Hzero.
  rewrite H1, H0. reflexivity.
Qed.

Lemma float_to_string_sign_witness :
  cstring (snd (float_to_string 0 (mkFloat 2097152 129 1) 2 scratch_init (repeat 7 13))) =
  chr "-" ::
  cstring (snd (float_to_string 5 (mkFloat 2097152 129 0) 2
                  (mkScratch (repeat 9 12) (repeat 9 11)) (repeat 3 20))).
Proof.
  apply (float_to_string_sign 0 5 2097152 129 2 scratch_init
           (mkScratch (repeat 9 12) (repeat 9 11)) (repeat 7 13) (repeat 3 20));
    try reflexivity; try lia; try (simpl; lia).
Defined.

(** ** Accuracy of the decimals *)

Lemma mantissa_check_all (d : Z) :
  d = 1 \/ d = 2 \/ d = 3 ->
  forallb (mantissa_check d) (map Z.of_nat (seq 0 512)) = true.
Proof.
  intros [-> | [-> | ->]]; vm_compute; reflexivity.
Qed.

Lemma mantissa_value_top9 (m d : Z) :
  m <> 0 -> 0 <= m ->
  mantissa_value m d = mantissa_value (Z.lor (Z.shiftl (Z.shiftr m 14) 14) 1) d.
Proof.
  intros Hm Hpos. unfold mantissa_value.
  rewrite <- mantissa_to_string_top9 by assumption. reflexivity.
Qed.

(** X10. With one to three decimals the number [mantissa_to_string]
    writes (the carry as integer part, then the decimals) is never above
    the exact fraction [mantissa / 2^23] by more than half a unit of the
    last decimal, and is below it by less than 1/512 plus half a unit of
    the last decimal: only the nine leading bits of the mantissa are read. *)
Theorem mantissa_to_string_accuracy (mantissa decimal_point_digits : Z) :
  0 <= mantissa < 8388608 -> 1 <= decimal_point_digits <= 3 ->
  let scale := 10 ^ decimal_point_digits in
  let written := mantissa_value mantissa decimal_point_digits in
  2 * (written * 8388608 - mantissa * scale) <= 8388608 /\
  2 * (mantissa * scale - written * 8388608) < 8388608 + 2 * 16384 * scale.
Proof.
  intros Hm Hd scale written.
  assert (Hd' : decimal_point_digits = 1 \/ decimal_point_digits = 2 \/
                decimal_point_digits = 3) by lia.
  destruct (Z.eq_dec mantissa 0) as [->|Hnz].
  { unfold written, scale.
    destruct Hd' as [-> | [-> | ->]];
      (vm_compute; split; [discriminate | reflexivity]). }
  pose proof (proj1 (forallb_forall _ _) (mantissa_check_all _ Hd') _
                (in_range_512 _ (top9_range mantissa Hm))) as H.
  unfold mantissa_check in H. cbv zeta in H.
  rewrite <- mantissa_value_top9 in H by lia.
  fold written in H. apply Z.leb_le in H.
  pose proof (top9_range mantissa Hm) as Ht.
  rewrite Z.shiftr_div_pow2 in H, Ht by lia. change (2 ^ 14) with 16384 in H, Ht.
  pose proof (Z.div_mod mantissa 16384 ltac:(lia)) as Hdm.
  pose proof (Z.mod_pos_bound mantissa 16384 ltac:(lia)) as Hr.
  fold scale in H.
  assert (Hs : scale = 10 \/ scale = 100 \/ scale = 1000).
  { unfold scale. destruct Hd' as [-> | [-> | ->]]; [left | right; left | right; right];
      reflexivity. }
  clearbody scale written.
  destruct Hs as [-> | [-> | ->]]; lia.
Qed.

Lemma mantissa_to_string_accuracy_witness :
  mantissa_value 2097152 3 = 250 /\
  2 * (mantissa_value 2097152 3 * 8388608 - 2097152 * 1000) <= 8388608.
Proof.
  split; [reflexivity|].
  apply (mantissa_to_string_accuracy 2097152 3); lia.
Defined.

(** * Further properties of print.c *)

Import Print PrintNotions.

(** ** ksprintn *)

Lemma in_range_36 (d : Z) : 0 <= d < 36 -> In d (map Z.of_nat (seq 0 36)).
Proof.
  intros Hd. apply in_map_iff. exists (Z.to_nat d). split; [lia|].
  apply in_seq. lia.
Qed.

(** Reading a digit character back gives the digit, in either case. *)
Lemma hex2ascii_value (d : Z) (upper : bool) :
  0 <= d < 36 ->
  char_value (if upper then toupper (hex2ascii d) else hex2ascii d) = d.
Proof.
  intros Hd.
  assert (H : forallb (fun d => (char_value (toupper (hex2ascii d)) =? d)
                                && (char_value (hex2ascii d) =? d))
                (map Z.of_nat (seq 0 36)) = true) by (vm_compute; reflexivity).
  rewrite forallb_forall in H. specialize (H d (in_range_36 d Hd)).
  apply andb_true_iff in H as [Hu Hl]. apply Z.eqb_eq in Hu, Hl.
  destruct upper; assumption.
Qed.

Lemma ksprintn_loop_S (cells : nat) (digit next : Z -> Z) (upper : bool) (num : Z) :
  ksprintn_loop (S cells) digit next upper num =
  (if upper then toupper (hex2ascii (digit num)) else hex2ascii (digit num))
  :: (if next num =? 0 then [] else ksprintn_loop cells digit next upper (next num)).
Proof.
  reflexivity.
Qed.

Section Digits.

Variable b : Z.
Variables digit next : Z -> Z.
Variable upper : bool.
Hypothesis b_range : 2 <= b <= 36.
Hypothesis digit_mod : forall n, 0 <= n -> digit n = n mod b.
Hypothesis next_div : forall n, 0 <= n -> next n = n / b.

Lemma ksprintn_loop_value (cells : nat) : forall num,
  0 <= num < b ^ Z.of_nat (S cells) ->
  text_value b (rev (ksprintn_loop (S cells) digit next upper num)) = num.
Proof.
  induction cells as [|cells IH]; intros num Hnum.
  - rewrite ksprintn_loop_S, digit_mod, next_div by lia.
    change (b ^ Z.of_nat 1) with (b ^ 1) in Hnum. rewrite Z.pow_1_r in Hnum.
    rewrite Z.div_small, Z.mod_small by lia. cbn [Z.eqb rev app].
    unfold text_value. cbn [fold_left]. rewrite hex2ascii_value by lia. lia.
  - rewrite ksprintn_loop_S, digit_mod, next_div by lia.
    pose proof (Z.mod_pos_bound num b ltac:(lia)) as Hm.
    pose proof (Z.div_mod num b ltac:(lia)) as Hdm.
    cbn [rev]. rewrite text_value_snoc, hex2ascii_value by lia.
    destruct (Z.eqb_spec (num / b) 0) as [Hz|Hnz].
    + change (text_value b (rev [])) with 0. lia.
    + rewrite IH; [lia|].
      rewrite Nat2Z.inj_succ, Z.pow_succ_r in Hnum by lia.
      split; [apply Z.div_pos; lia | apply Z.div_lt_upper_bound; lia].
Qed.

(** The digit written last, the most significant one, is not a zero. *)
Lemma ksprintn_loop_last (cells : nat) : forall num,
  0 < num < b ^ Z.of_nat (S cells) ->
  last (ksprintn_loop (S cells) digit next upper num) 0 <> chr "0".
Proof.
  assert (Hzero : forall d, 0 < d < 36 ->
            (if upper then toupper (hex2ascii d) else hex2ascii d) <> chr "0").
  { intros d Hd Heq. pose proof (hex2ascii_value d upper ltac:(lia)) as Hv.
    rewrite Heq in Hv. change (char_value (chr "0")) with 0 in Hv. lia. }
  induction cells as [|cells IH]; intros num Hnum.
  - rewrite ksprintn_loop_S, digit_mod, next_div by lia.
    change (b ^ Z.of_nat 1) with (b ^ 1) in Hnum. rewrite Z.pow_1_r in Hnum.
    rewrite Z.div_small, Z.mod_small by lia. cbn [Z.eqb last].
    apply Hzero. lia.
  - rewrite ksprintn_loop_S, digit_mod, next_div by lia.
    pose proof (Z.mod_pos_bound num b ltac:(lia)) as Hm.
    pose proof (Z.div_mod num b ltac:(lia)) as Hdm.
    destruct (Z.eqb_spec (num / b) 0) as [Hz|Hnz].
    + cbn [last]. apply Hzero. lia.
    + assert (Hq : 0 < num / b < b ^ Z.of_nat (S cells)).
      { rewrite Nat2Z.inj_succ, Z.pow_succ_r in Hnum by lia.
        split; [pose proof (Z.div_pos num b ltac:(lia) ltac:(lia)); lia
               | apply Z.div_lt_upper_bound; lia]. }
      specialize (IH _ Hq).
      destruct (ksprintn_loop (S cells) digit next upper (num / b)) as [|c l] eqn:Hl.
      { pose proof (ksprintn_loop_length digit next upper cells (num / b)) as Hlen.
        rewrite Hl in Hlen. simpl in Hlen. lia. }
      exact IH.
Qed.

End Digits.

Lemma land_mask (n k : Z) : 0 <= k -> Z.land n (Z.ones k) = n mod 2 ^ k.
Proof.
  intros Hk. apply Z.land_ones. exact Hk.
Qed.

Lemma ksprintn_digits_value (num base : Z) (upper : bool) :
  0 <= num < 4294967296 ->
  base = 2 \/ base = 8 \/ base = 10 \/ base = 16 ->
  text_value base (rev (ksprintn num base upper)) = num /\
  (num <> 0 -> last (ksprintn num base upper) 0 <> chr "0").
Proof.
  intros Hnum Hbase. unfold ksprintn.
  assert (Hpow : forall b, 2 <= b -> 4294967296 <= b ^ Z.of_nat 32).
  { intros b Hb. change 4294967296 with (2 ^ Z.of_nat 32).
    apply Z.pow_le_mono_l. lia. }
  destruct Hbase as [-> | [-> | [-> | ->]]]; cbn [Z.eqb Pos.eqb].
  - pose proof (Hpow 2 ltac:(lia)).
    split; [apply (ksprintn_loop_value 2) | intros Hnz; apply (ksprintn_loop_last 2)];
      try lia; intros n Hn.
    all: try (change 1 with (Z.ones 1); rewrite land_mask by lia; reflexivity).
    all: rewrite Z.shiftr_div_pow2 by lia; reflexivity.
  - pose proof (Hpow 8 ltac:(lia)).
    split; [apply (ksprintn_loop_value 8) | intros Hnz; apply (ksprintn_loop_last 8)];
      try lia; intros n Hn.
    all: try (change 7 with (Z.ones 3); rewrite land_mask by lia; reflexivity).
    all: rewrite Z.shiftr_div_pow2 by lia; reflexivity.
  - pose proof (Hpow 10 ltac:(lia)).
    split; [apply (ksprintn_loop_value 10) | intros Hnz; apply (ksprintn_loop_last 10)];
      try lia; intros n Hn; reflexivity.
  - pose proof (Hpow 16 ltac:(lia)).
    split; [apply (ksprintn_loop_value 16) | intros Hnz; apply (ksprintn_loop_last 16)];
      try lia; intros n Hn.
    all: try (change 15 with (Z.ones 4); rewrite land_mask by lia; reflexivity).
    all: rewrite Z.shiftr_div_pow2 by lia; reflexivity.
Qed.


(** X11. The digits [ksprintn] writes for a 32-bit number in base 2, 8,
    10 or 16, read in the order they are printed (the reverse of the order
    they are written in), give the number back, in upper or lower case; and
    the leading digit of a number other than zero is not a zero. *)
Theorem ksprintn_round_trip (num base : Z) (upper : bool) :
  0 <= num < 4294967296 ->
  base = 2 \/ base = 8 \/ base = 10 \/ base = 16 ->
  text_value base (rev (ksprintn num base upper)) = num /\
  (num <> 0 -> last (ksprintn num base upper) 0 <> chr "0").
Proof.
  apply ksprintn_digits_value.
Qed.

Lemma ksprintn_round_trip_witness :
  rev (ksprintn 48879 16 true) = str "BEEF" /\
  text_value 16 (rev (ksprintn 48879 16 true)) = 48879.
Proof.
  split; [reflexivity|].
  apply (ksprintn_round_trip 48879 16 true); [lia | right; right; right; reflexivity].
Defined.

(** ** The decimal conversions agree with simple_print.c *)

Lemma decimal_digits_more (extra : nat) : forall fuel n,
  0 <= n < 10 ^ Z.of_nat fuel ->
  decimal_digits (extra + fuel) n = decimal_digits fuel n.
Proof.
  induction extra as [|extra IH]; intros fuel n Hn; [reflexivity|].
  cbn [Nat.add]. rewrite decimal_digits_fuel; [apply IH; exact Hn|].
  split; [lia|]. destruct Hn as [_ Hn]. eapply Z.lt_le_trans; [exact Hn|].
  apply Z.pow_le_mono_r; lia.
Qed.

(** The digits of [ksprintn] in base 10, in printing order, are the
    decimal digits. *)
Lemma ksprintn_loop_decimal (cells : nat) : forall m,
  0 <= m ->
  rev (if m =? 0 then []
       else ksprintn_loop cells (fun n => n mod 10) (fun n => n / 10) false m) =
  decimal_digits cells m.
Proof.
  induction cells as [|cells IH]; intros m Hm.
  - destruct (m =? 0); reflexivity.
  - rewrite decimal_digits_S. destruct (Z.eqb_spec m 0) as [Hz|Hnz]; [reflexivity|].
    rewrite ksprintn_loop_S. cbn [rev]. rewrite IH by (apply Z.div_pos; lia).
    pose proof (Z.mod_pos_bound m 10 ltac:(lia)) as Hmod.
    f_equal. f_equal. unfold hex2ascii.
    assert (Hd : m mod 10 = 0 \/ m mod 10 = 1 \/ m mod 10 = 2 \/ m mod 10 = 3 \/
                 m mod 10 = 4 \/ m mod 10 = 5 \/ m mod 10 = 6 \/ m mod 10 = 7 \/
                 m mod 10 = 8 \/ m mod 10 = 9) by lia.
    repeat (destruct Hd as [->|Hd]; [reflexivity|]). rewrite Hd. reflexivity.
Qed.

Lemma ksprintn_decimal (n : Z) :
  0 <= n < 4294967296 -> rev (ksprintn n 10 false) = decimal_text n.
Proof.
  intros Hn. unfold ksprintn, decimal_text. cbn [Z.eqb Pos.eqb].
  rewrite ksprintn_loop_S. cbn [rev].
  rewrite (ksprintn_loop_decimal 31) by (apply Z.div_pos; lia).
  rewrite (decimal_digits_more 22 9).
  - pose proof (Z.mod_pos_bound n 10 ltac:(lia)) as Hmod.
    f_equal. f_equal. unfold hex2ascii.
    assert (Hd : n mod 10 = 0 \/ n mod 10 = 1 \/ n mod 10 = 2 \/ n mod 10 = 3 \/
                 n mod 10 = 4 \/ n mod 10 = 5 \/ n mod 10 = 6 \/ n mod 10 = 7 \/
                 n mod 10 = 8 \/ n mod 10 = 9) by lia.
    repeat (destruct Hd as [->|Hd]; [reflexivity|]). rewrite Hd. reflexivity.
  - change (10 ^ Z.of_nat 9) with 1000000000.
    split; [apply Z.div_pos; lia | apply Z.div_lt_upper_bound; lia].
Qed.

Lemma u32_small (v : Z) : 0 <= v < 4294967296 -> u32 v = v.
Proof.
  intros H. unfold u32. apply Z.mod_small. exact H.
Qed.

Lemma u32_range (v : Z) : 0 <= u32 v < 4294967296.
Proof.
  unfold u32. apply Z.mod_pos_bound. lia.
Qed.

(** A signed decimal conversion without flags, width or precision. *)
Lemma number_text_signed (v : Z) :
  INT_MIN <= v <= INT_MAX ->
  number_text (set_sign true dstate_init) (u32 v) 10 = signed_text v.
Proof.
  unfold INT_MIN, INT_MAX. intros Hv. unfold number_text, signed_text.
  cbn [sign sharpflag ladjust padc width dwidth upper set_sign dstate_init andb negb].
  change (chr " " =? chr "0") with false. cbv iota.
  rewrite !s32_u32. rewrite !(s32_small v) by (unfold INT_MIN, INT_MAX; lia).
  assert (Hmag : (if v <? 0 then u32 (- v) else u32 v) = Z.abs v).
  { destruct (Z.ltb_spec v 0); rewrite u32_small; lia. }
  rewrite Hmag.
  pose proof (ksprintn_length (Z.abs v) 10 false) as Hn.
  set (n := Z.of_nat (length (ksprintn (Z.abs v) 10 false))) in *.
  assert (Htmp : 0 <= 0 + (if v <? 0 then 1 else 0) <= 1) by (destruct (v <? 0); lia).
  unfold imax. destruct (Z.gtb_spec 0 n); [lia|].
  rewrite !s32_small by (unfold INT_MIN, INT_MAX; lia).
  rewrite !repeat_nonpos by lia.
  rewrite cstring_rev_ksprintn, ksprintn_decimal by lia.
  cbn [app]. rewrite app_nil_r. reflexivity.
Qed.

Section Conversions.

Context {A : Type}.
Variable func : Z -> A -> A.

Lemma reswitch_d (fuel : nat) (radix : Z) (percent fmt : list Z) (d : dstate)
    (ap : va_list) (stored : list (Z * Z)) (k : kstate A) (conv : Z) :
  conv = chr "d" \/ conv = chr "i" ->
  reswitch func (S fuel) radix percent (conv :: fmt) d ap stored k =
  handle_sign func (set_sign true d) 10 fmt ap stored k.
Proof.
  intros [-> | ->]; reflexivity.
Qed.

Lemma reswitch_u (fuel : nat) (radix : Z) (percent fmt : list Z) (d : dstate)
    (ap : va_list) (stored : list (Z * Z)) (k : kstate A) :
  reswitch func (S fuel) radix percent (chr "u" :: fmt) d ap stored k =
  handle_nosign func d false 10 fmt ap stored k.
Proof.
  reflexivity.
Qed.

End Conversions.

(** X12. [%d] and [%i] print what [int_to_string] writes: for every [int]
    the text of the conversion is the string [int_to_string] leaves in its
    buffer, on any sink and under any radix. *)
Theorem kvprintf_d_int_to_string {A : Type} (func : Z -> A -> A) (arg : A)
    (radix conv v past_end : Z) (out_string : list Z) :
  conv = chr "d" \/ conv = chr "i" ->
  INT_MIN <= v <= INT_MAX -> (12 <= length out_string)%nat ->
  kvprintf func (Some [chr "%"; conv; 0]) arg radix [VInt v] =
  Done ([], PCHARS func (cstring (SimplePrint.int_to_string past_end v out_string))
              (mkK arg 0)).
Proof.
  intros Hconv Hv Hlen. unfold kvprintf.
  rewrite kvloop_percent_step. cbn [length].
  rewrite reswitch_d by exact Hconv.
  rewrite handle_sign_int by reflexivity.
  cbn [bind d_fmt d_ap d_stop d_stored d_k].
  rewrite kvloop_terminator, number_text_signed by exact Hv.
  rewrite int_to_string_text by assumption. reflexivity.
Qed.

Lemma kvprintf_d_int_to_string_witness :
  kvprintf keep (Some (str "%d" ++ [0])) [] 10 [VInt (-2147483648)] =
  Done ([], mkK (str "-2147483648") 11).
Proof.
  exact (kvprintf_d_int_to_string keep [] 10 (chr "d") (-2147483648) 0 (repeat 0 12)
           (or_introl eq_refl) ltac:(unfold INT_MIN, INT_MAX; lia) ltac:(simpl; lia)).
Defined.

(** X13. [%u] prints what [uint_to_string] writes for the argument taken
    as an unsigned number, that is modulo 2^32. *)
Theorem kvprintf_u_uint_to_string {A : Type} (func : Z -> A -> A) (arg : A)
    (radix v past_end : Z) (out_string : list Z) :
  (11 <= length out_string)%nat ->
  kvprintf func (Some (str "%u" ++ [0])) arg radix [VInt v] =
  Done ([], PCHARS func
              (cstring (SimplePrint.uint_to_string past_end (u32 v) out_string))
              (mkK arg 0)).
Proof.
  intros Hlen. unfold kvprintf.
  change (str "%u" ++ [0]) with (chr "%" :: chr "u" :: [0]).
  rewrite kvloop_percent_step. cbn [length].
  rewrite reswitch_u.
  rewrite handle_nosign_int by reflexivity.
  cbn [bind d_fmt d_ap d_stop d_stored d_k].
  rewrite kvloop_terminator, number_text_plain.
  pose proof (u32_range v) as Hu.
  rewrite ksprintn_decimal by exact Hu.
  destruct (uint_to_string_shape past_end (u32 v) out_string Hu Hlen)
    as (tail & -> & _).
  rewrite cstring_text by (apply digit_chars_nonzero, decimal_text_chars; lia).
  reflexivity.
Qed.

Lemma kvprintf_u_uint_to_string_witness :
  kvprintf keep (Some (str "%u" ++ [0])) [] 10 [VInt (-1)] =
  Done ([], mkK (str "4294967295") 10).
Proof.
  exact (kvprintf_u_uint_to_string keep [] 10 (-1) 0 (repeat 0 11) ltac:(simpl; lia)).
Defined.

(** ** Plain text and the percent sign *)

Section Literal.

Context {A : Type}.
Variable func : Z -> A -> A.

Lemma kvloop_S (fuel : nat) (radix : Z) (fmt : list Z) (ap : va_list)
    (stop : bool) (stored : list (Z * Z)) (k : kstate A) :
  kvloop func (S fuel) radix fmt ap stop stored k =
  match copy_literal func stop fmt k with
  | LitUndefined => Undefined
  | LitEnd k => Done (stored, k)
  | LitPercent percent k =>
      bind (reswitch func (length percent) radix percent (tl percent)
              dstate_init ap stored k)
        (fun r => kvloop func fuel radix (d_fmt r) (d_ap r) (d_stop r) (d_stored r)
                    (d_k r))
  end.
Proof.
  reflexivity.
Qed.

Lemma copy_literal_end (z : Z) (tail : list Z) (k : kstate A) :
  uchar z = 0 -> copy_literal func false (z :: tail) k = LitEnd k.
Proof.
  intros Hz. cbn [copy_literal]. rewrite Hz. reflexivity.
Qed.

Lemma kvloop_literal (fuel : nat) (radix : Z) (lit : list Z) (z : Z) (tail : list Z)
    (ap : va_list) (stored : list (Z * Z)) (k : kstate A) :
  Forall (fun x => uchar x <> 0 /\ uchar x <> chr "%") lit -> uchar z = 0 ->
  kvloop func (S fuel) radix (lit ++ z :: tail) ap false stored k =
  Done (stored, PCHARS func (map uchar lit) k).
Proof.
  intros Hlit Hz. rewrite kvloop_S, copy_literal_text by exact Hlit.
  rewrite copy_literal_end by exact Hz. reflexivity.
Qed.

Lemma kvloop_percent_percent (fuel : nat) (radix : Z) (lit rest : list Z)
    (ap : va_list) (stored : list (Z * Z)) (k : kstate A) :
  Forall (fun x => uchar x <> 0 /\ uchar x <> chr "%") lit ->
  kvloop func (S fuel) radix (lit ++ chr "%" :: chr "%" :: rest) ap false stored k =
  kvloop func fuel radix rest ap false stored
    (PCHAR func (chr "%") (PCHARS func (map uchar lit) k)).
Proof.
  intros Hlit. rewrite kvloop_S, copy_literal_text by exact Hlit.
  rewrite copy_literal_percent_here. reflexivity.
Qed.

End Literal.

(** X14. Text without a percent sign is copied as it stands, up to the
    terminator, and [%%] stands for one percent sign; in both cases no
    argument is looked at, nothing behind the terminator is read and the
    call cannot fail. *)
Theorem kvprintf_literal {A : Type} (func : Z -> A -> A) (arg : A) (radix : Z)
    (lit lit' : list Z) (z : Z) (tail : list Z) (ap : va_list) :
  Forall (fun x => uchar x <> 0 /\ uchar x <> chr "%") lit ->
  Forall (fun x => uchar x <> 0 /\ uchar x <> chr "%") lit' ->
  uchar z = 0 ->
  kvprintf func (Some (lit ++ z :: tail)) arg radix ap =
    Done ([], PCHARS func (map uchar lit) (mkK arg 0)) /\
  kvprintf func (Some (lit ++ str "%%" ++ lit' ++ z :: tail)) arg radix ap =
    Done ([], PCHARS func (map uchar lit ++ chr "%" :: map uchar lit') (mkK arg 0)).
Proof.
  intros Hlit Hlit' Hz. unfold kvprintf. split.
  - apply kvloop_literal; assumption.
  - change (str "%%" ++ lit' ++ z :: tail) with (chr "%" :: chr "%" :: lit' ++ z :: tail).
    replace (length (lit ++ chr "%" :: chr "%" :: lit' ++ z :: tail))
      with (S (length lit + S (length lit' + S (length tail))))
      by (rewrite !length_app; cbn [length]; rewrite length_app; cbn [length]; lia).
    rewrite kvloop_percent_percent by exact Hlit.
    rewrite kvloop_literal by assumption.
    rewrite PCHARS_app. reflexivity.
Qed.

Lemma kvprintf_literal_witness :
  kvprintf keep (Some (str "100%% sure" ++ [0])) [] 10 [VInt 7] =
  Done ([], mkK (str "100% sure") 9).
Proof.
  assert (H1 : Forall (fun x => uchar x <> 0 /\ uchar x <> chr "%") (str "100"))
    by (repeat constructor; discriminate).
  assert (H2 : Forall (fun x => uchar x <> 0 /\ uchar x <> chr "%") (str " sure"))
    by (repeat constructor; discriminate).
  exact (proj2 (kvprintf_literal keep [] 10 (str "100") (str " sure") 0 [] [VInt 7]
                  H1 H2 eq_refl)).
Defined.

(** ** The sinks *)

Lemma pushed_snprintf_func_full (out : list Z) (info : snprintf_arg) :
  remain info < 2 -> pushed snprintf_func out info = info.
Proof.
  intros Hr. unfold pushed. induction out as [|c out IH]; [reflexivity|].
  cbn [fold_left]. unfold snprintf_func at 2.
  destruct (Z.geb_spec (remain info) 2); [lia | exact IH].
Qed.

(** X15. With a size of 0 [vsnprintf], [snprintf] and [vsnrprintf] write nothing at
    all, not even a terminator, whatever the destination is, and still
    return the length of the text the format renders: the way to ask for the
    size of a formatted string. *)
Theorem vsnprintf_size_zero (str : list Z) (radix : Z) (format : option (list Z))
    (ap : va_list) :
  match render format radix ap with
  | Done (out, ret, stored) =>
      ret = s32 (Z.of_nat (length out)) /\
      vsnrprintf str 0 radix format ap = Done (str, ret, stored) /\
      (radix = 10 -> vsnprintf str 0 format ap = Done (str, ret, stored) /\
                     snprintf str 0 format ap = Done (str, ret, stored))
  | Undefined =>
      vsnrprintf str 0 radix format ap = Undefined /\
      (radix = 10 -> vsnprintf str 0 format ap = Undefined /\
                     snprintf str 0 format ap = Undefined)
  | OutOfFuel => False
  end.
Proof.
  pose proof (kvprintf_any_sink snprintf_func format radix ap (mkArg str 0 0)) as Hsim.
  pose proof (kvprintf_keep_count format radix ap) as Hcount.
  pose proof (kvprintf_ends keep format [] radix ap) as Hends.
  assert (Hsame : radix = 10 ->
            vsnprintf str 0 format ap = vsnrprintf str 0 radix format ap)
    by (intros ->; reflexivity).
  unfold snprintf. unfold render. unfold vsnrprintf in *.
  destruct (kvprintf keep format [] radix ap) as [[stored k]| |];
    destruct (kvprintf snprintf_func format (mkArg str 0 0) radix ap)
      as [[stored' k']| |]; cbn [agree] in Hsim; try contradiction;
    cbn [bind] in *;
    try (split; [reflexivity | intros H10; split; exact (Hsame H10)]).
  destruct Hsim as [Hst [Hsink Hret]]. cbn [fst snd] in Hst, Hsink, Hret.
  subst stored'. specialize (Hcount _ _ eq_refl).
  rewrite pushed_snprintf_func_full in Hsink by (cbn [remain]; lia).
  assert (Hres : Done (if remain (sink k') >=? 1
                       then store (buf (sink k')) (pos (sink k')) 0
                       else buf (sink k'), retval k', stored) =
                 Done (str, retval k, stored)).
  { rewrite Hsink, Hret. reflexivity. }
  split; [exact Hcount|]. split; [exact Hres|].
  intros H10. rewrite Hsame by exact H10. split; exact Hres.
Qed.

Lemma vsnprintf_size_zero_witness :
  vsnprintf [] 0 (Some (str "%d items" ++ [0])) [VInt 12] = Done ([], 8, []).
Proof.
  pose proof (vsnprintf_size_zero [] 10 (Some (str "%d items" ++ [0])) [VInt 12]) as H.
  set (r := render _ _ _) in H. vm_compute in r. subst r. cbv beta iota zeta in H.
  exact (proj1 (proj2 (proj2 H) eq_refl)).
Defined.

Lemma vsprintf_all (cfmt : option (list Z)) (ap : va_list) :
  match render cfmt 10 ap with
  | Done (out, ret, stored) =>
      Z.of_nat (length out) <= INT_MAX ->
      vsprintf cfmt ap = Done (map schar out ++ [0], Z.of_nat (length out), stored)
  | Undefined => vsprintf cfmt ap = Undefined
  | OutOfFuel => False
  end.
Proof.
  pose proof (kvprintf_any_sink raw_store cfmt 10 ap []) as Hsim.
  pose proof (kvprintf_keep_count cfmt 10 ap) as Hcount.
  pose proof (kvprintf_ends keep cfmt [] 10 ap) as Hends.
  unfold render, vsprintf.
  destruct (kvprintf keep cfmt [] 10 ap) as [[stored k]| |];
    destruct (kvprintf raw_store cfmt [] 10 ap)
      as [[stored' k']| |]; cbn [agree] in Hsim; try contradiction;
    cbn [bind]; auto.
  destruct Hsim as [Hst [Hsink Hret]]. cbn [fst snd] in Hst, Hsink, Hret.
  subst stored'. specialize (Hcount _ _ eq_refl). intros Hmax.
  assert (Hpush : forall out acc, pushed raw_store out acc = acc ++ map schar out).
  { unfold pushed, raw_store. induction out as [|c out IH]; intros acc; cbn [fold_left map].
    - symmetry. apply app_nil_r.
    - rewrite IH, <- app_assoc. reflexivity. }
  rewrite Hpush in Hsink. cbn [app] in Hsink.
  rewrite Hret, Hcount, s32_small by (unfold INT_MIN; lia).
  rewrite Hsink, Nat2Z.id.
  rewrite <- (length_map schar (sink k)), firstn_all. reflexivity.
Qed.


(** X16. [vsprintf] and [sprintf] store the whole rendered text, each
    character as a [char], and one terminator behind it, and return the
    length of the text; there is no bound on what is stored. *)
Theorem vsprintf_stores_all (cfmt : option (list Z)) (ap : va_list) :
  sprintf cfmt ap = vsprintf cfmt ap /\
  match render cfmt 10 ap with
  | Done (out, ret, stored) =>
      Z.of_nat (length out) <= INT_MAX ->
      vsprintf cfmt ap = Done (map schar out ++ [0], Z.of_nat (length out), stored)
  | Undefined => vsprintf cfmt ap = Undefined
  | OutOfFuel => False
  end.
Proof.
  split; [reflexivity | apply vsprintf_all].
Qed.

Lemma vsprintf_stores_all_witness :
  vsprintf (Some (str "%s=%x" ++ [0])) [VStr (Some (str "key" ++ [0])); VInt 255] =
  Done (str "key=ff" ++ [0], 6, []).
Proof.
  destruct (vsprintf_stores_all (Some (str "%s=%x" ++ [0]))
              [VStr (Some (str "key" ++ [0])); VInt 255]) as [_ H].
  set (r := render _ _ _) in H. vm_compute in r. subst r. cbv beta iota zeta in H.
  apply H. vm_compute. discriminate.
Defined.

(** X17. [printf] and [vprintf] hand one write to descriptor 1: the
    rendered text and, since the count is the value returned plus one, the
    terminator behind it; they return the length of the text.  The text
    must leave room for the terminator in the 1024 bytes of [print_buffer]:
    a longer one is stored past the end of the buffer. *)
Theorem printf_writes_terminator (fmt : option (list Z)) (ap : va_list) :
  printf fmt ap = vprintf fmt ap /\
  match render fmt 10 ap with
  | Done (out, ret, stored) =>
      (Z.of_nat (length out) < PRINT_BUFFER_SIZE ->
       vprintf fmt ap =
       Done (mkCall DCLOAD_WRITE 1 (map schar out ++ [0]),
             Z.of_nat (length out), stored)) /\
      (PRINT_BUFFER_SIZE <= Z.of_nat (length out) <= INT_MAX ->
       vprintf fmt ap = Undefined)
  | Undefined => vprintf fmt ap = Undefined
  | OutOfFuel => False
  end.
Proof.
  split; [reflexivity|].
  pose proof (vsprintf_all fmt ap) as H. unfold vprintf.
  destruct (render fmt 10 ap) as [[[out ret] stored]| |]; [|rewrite H; reflexivity|exact H].
  unfold PRINT_BUFFER_SIZE, INT_MAX in *. split.
  - intros Hl. rewrite H by lia. cbn [bind].
    assert (Hb : length (map schar out ++ [0]) = S (length out))
      by (rewrite length_app, length_map; cbn [length]; lia).
    rewrite Hb. destruct (Z.gtb_spec (Z.of_nat (S (length out))) 1024); [lia|].
    replace (Z.to_nat (Z.of_nat (length out) + 1)) with (S (length out)) by lia.
    rewrite <- Hb, firstn_all. reflexivity.
  - intros Hl. rewrite H by lia. cbn [bind].
    assert (Hb : length (map schar out ++ [0]) = S (length out))
      by (rewrite length_app, length_map; cbn [length]; lia).
    rewrite Hb. destruct (Z.gtb_spec (Z.of_nat (S (length out))) 1024); [reflexivity | lia].
Qed.

Lemma printf_writes_terminator_witness :
  printf (Some (str "ok %d" ++ [10; 0])) [VInt 3] =
  Done (mkCall DCLOAD_WRITE 1 (str "ok 3" ++ [10; 0]), 5, []).
Proof.
  destruct (printf_writes_terminator (Some (str "ok %d" ++ [10; 0])) [VInt 3])
    as [_ H].
  set (r := render _ _ _) in H. vm_compute in r. subst r. cbv beta iota zeta in H.
  apply (proj1 H). reflexivity.
Defined.

(** ** One step of the switch *)

Section Steps.

Context {A : Type}.
Variable func : Z -> A -> A.

Lemma reswitch_s (fuel : nat) (radix : Z) (percent fmt : list Z) (d : dstate)
    (ap : va_list) (stored : list (Z * Z)) (k : kstate A) :
  reswitch func (S fuel) radix percent (chr "s" :: fmt) d ap stored k =
  bind (conv_s func d ap k) (fun x => let '(ap, k) := x in
                                      Done (mkDir fmt ap false stored k)).
Proof.
  reflexivity.
Qed.

Lemma reswitch_dot (fuel : nat) (radix : Z) (percent fmt : list Z) (d : dstate)
    (ap : va_list) (stored : list (Z * Z)) (k : kstate A) :
  reswitch func (S fuel) radix percent (chr "." :: fmt) d ap stored k =
  reswitch func fuel radix percent fmt (set_dot true d) ap stored k.
Proof.
  reflexivity.
Qed.

Lemma reswitch_minus (fuel : nat) (radix : Z) (percent fmt : list Z) (d : dstate)
    (ap : va_list) (stored : list (Z * Z)) (k : kstate A) :
  reswitch func (S fuel) radix percent (chr "-" :: fmt) d ap stored k =
  reswitch func fuel radix percent fmt (set_ladjust true d) ap stored k.
Proof.
  reflexivity.
Qed.

Lemma reswitch_sharp (fuel : nat) (radix : Z) (percent fmt : list Z) (d : dstate)
    (ap : va_list) (stored : list (Z * Z)) (k : kstate A) :
  reswitch func (S fuel) radix percent (chr "#" :: fmt) d ap stored k =
  reswitch func fuel radix percent fmt (set_sharpflag true d) ap stored k.
Proof.
  reflexivity.
Qed.

Lemma reswitch_zero (fuel : nat) (radix : Z) (percent fmt : list Z) (d : dstate)
    (ap : va_list) (stored : list (Z * Z)) (k : kstate A) :
  dot d = false ->
  reswitch func (S fuel) radix percent (chr "0" :: fmt) d ap stored k =
  reswitch func fuel radix percent fmt (set_padc (chr "0") d) ap stored k.
Proof.
  intros Hd. cbn [reswitch].
  change (classify (uchar (chr "0"))) with TZero. cbv iota.
  change (uchar (chr "0") =? chr "0") with true. rewrite Hd. reflexivity.
Qed.

Lemma reswitch_star (fuel : nat) (radix : Z) (percent fmt : list Z) (d : dstate)
    (v : Z) (ap : va_list) (stored : list (Z * Z)) (k : kstate A) :
  reswitch func (S fuel) radix percent (chr "*" :: fmt) d (VInt v :: ap) stored k =
  if negb (dot d) then
    if s32 v <? 0
    then reswitch func fuel radix percent fmt
           (set_width (s32 (- s32 v)) (set_ladjust (negb (ladjust d)) d)) ap stored k
    else reswitch func fuel radix percent fmt (set_width (s32 v) d) ap stored k
  else reswitch func fuel radix percent fmt (set_dwidth (s32 v) d) ap stored k.
Proof.
  reflexivity.
Qed.

Lemma reswitch_x (fuel : nat) (radix : Z) (percent fmt : list Z) (d : dstate)
    (ap : va_list) (stored : list (Z * Z)) (k : kstate A) :
  reswitch func (S fuel) radix percent (chr "x" :: fmt) d ap stored k =
  handle_nosign func d false 16 fmt ap stored k.
Proof.
  reflexivity.
Qed.

Lemma reswitch_n (fuel : nat) (radix : Z) (percent fmt : list Z) (d : dstate)
    (loc : Z) (ap : va_list) (stored : list (Z * Z)) (k : kstate A) :
  reswitch func (S fuel) radix percent (chr "n" :: fmt) d (VRef loc :: ap) stored k =
  Done (mkDir fmt ap false ((loc, count_stored d (retval k)) :: stored) k).
Proof.
  reflexivity.
Qed.

Lemma reswitch_D (fuel : nat) (radix : Z) (percent fmt : list Z) (d : dstate)
    (ap : va_list) (stored : list (Z * Z)) (k : kstate A) :
  reswitch func (S fuel) radix percent (chr "D" :: fmt) d ap stored k =
  bind (conv_D func d ap k) (fun x => let '(ap, k) := x in
                                      Done (mkDir fmt ap false stored k)).
Proof.
  reflexivity.
Qed.

Lemma retval_PCHARS (text : list Z) : forall (k : kstate A) (r : Z),
  retval k = s32 r ->
  retval (PCHARS func text k) = s32 (r + Z.of_nat (length text)).
Proof.
  induction text as [|c text IH]; intros k r Hk.
  - cbn [PCHARS length]. rewrite Z.add_0_r. exact Hk.
  - cbn [PCHARS length]. rewrite (IH _ (r + 1)).
    + f_equal. lia.
    + cbn [PCHAR retval]. rewrite Hk. apply s32_add_l.
Qed.

End Steps.

(** ** Strings *)

Lemma strlen_text (text : list Z) (z : Z) (tail : list Z) :
  Forall (fun c => uchar c <> 0) text -> uchar z = 0 ->
  strlen (text ++ z :: tail) = Done (Z.of_nat (length text)).
Proof.
  intros Htext Hz. induction Htext as [|c text Hc _ IH].
  - cbn [app strlen]. rewrite Hz. reflexivity.
  - cbn [app strlen]. apply Z.eqb_neq in Hc. rewrite Hc, IH. cbn [bind length].
    f_equal. lia.
Qed.

Lemma strlen_unterminated (s : list Z) :
  Forall (fun c => uchar c <> 0) s -> strlen s = Undefined.
Proof.
  induction 1 as [|c s Hc _ IH]; [reflexivity|].
  cbn [strlen]. apply Z.eqb_neq in Hc. rewrite Hc, IH. reflexivity.
Qed.

Lemma strnlen_done (p : list Z) (n dwidth : Z) :
  dwidth <= n -> strnlen p n dwidth = Done n.
Proof.
  intros H. destruct p; cbn [strnlen];
    (destruct (Z.ltb_spec n dwidth); [lia | reflexivity]).
Qed.

Lemma strnlen_bound (rest : list Z) (dwidth : Z) (text : list Z) : forall n,
  Forall (fun c => uchar c <> 0) text ->
  n <= dwidth <= n + Z.of_nat (length text) ->
  strnlen (text ++ rest) n dwidth = Done dwidth.
Proof.
  induction text as [|c text IH]; intros n Htext Hn.
  - cbn [length] in Hn. assert (dwidth = n) by lia. subst dwidth.
    apply strnlen_done. lia.
  - inversion Htext as [|? ? Hc Ht]; subst.
    destruct (Z.eq_dec n dwidth) as [->|Hne]; [apply strnlen_done; lia|].
    cbn [app strnlen]. destruct (Z.ltb_spec n dwidth); [|lia].
    apply Z.eqb_neq in Hc. rewrite Hc. apply IH; [exact Ht|].
    cbn [length] in Hn. lia.
Qed.

Lemma strnlen_stop (z : Z) (tail : list Z) (dwidth : Z) (text : list Z) : forall n,
  Forall (fun c => uchar c <> 0) text -> uchar z = 0 ->
  n + Z.of_nat (length text) < dwidth ->
  strnlen (text ++ z :: tail) n dwidth = Done (n + Z.of_nat (length text)).
Proof.
  induction text as [|c text IH]; intros n Htext Hz Hn.
  - cbn [app strnlen length] in *. destruct (Z.ltb_spec n dwidth); [|lia].
    rewrite Hz. cbn [Z.eqb]. f_equal. lia.
  - inversion Htext as [|? ? Hc Ht]; subst.
    cbn [app strnlen]. cbn [length] in Hn. destruct (Z.ltb_spec n dwidth); [|lia].
    apply Z.eqb_neq in Hc. rewrite Hc. rewrite IH by (try assumption; lia).
    f_equal. cbn [length]. lia.
Qed.

Section Strings.

Context {A : Type}.
Variable func : Z -> A -> A.

(** [%s] without a width: the characters counted are emitted, with no
    padding. *)
Lemma conv_s_plain (d : dstate) (p : list Z) (ap : va_list) (k : kstate A) (n : Z) :
  width d = 0 -> 0 <= n <= INT_MAX ->
  (if negb (dot d) then bind (strlen p) (fun n => Done (s32 n))
   else strnlen p 0 (dwidth d)) = Done n ->
  conv_s func d (VStr (Some p) :: ap) k =
  Done (ap, PCHARS func (map schar (firstn (Z.to_nat n) p)) k).
Proof.
  intros Hw Hn Hcount. unfold conv_s. cbn [va_str bind]. rewrite Hcount. cbn [bind].
  rewrite Hw. unfold INT_MAX in Hn.
  rewrite s32_small by (unfold INT_MIN, INT_MAX; lia).
  destruct (Z.gtb_spec (0 - n) 0); [lia|]. rewrite !andb_false_r. reflexivity.
Qed.

End Strings.

(** X18. [%s] prints the characters of its string up to the terminator;
    for a NULL pointer it prints "(null)"; and an array without a
    terminator is read past its end. *)
Theorem kvprintf_s {A : Type} (func : Z -> A -> A) (arg : A) (radix : Z)
    (text : list Z) (z : Z) (tail : list Z) :
  Forall (fun c => uchar c <> 0) text -> uchar z = 0 ->
  Z.of_nat (length text) <= INT_MAX ->
  kvprintf func (Some (str "%s" ++ [0])) arg radix [VStr (Some (text ++ z :: tail))] =
    Done ([], PCHARS func (map schar text) (mkK arg 0)) /\
  kvprintf func (Some (str "%s" ++ [0])) arg radix [VStr None] =
    Done ([], PCHARS func (str "(null)") (mkK arg 0)) /\
  kvprintf func (Some (str "%s" ++ [0])) arg radix [VStr (Some text)] = Undefined.
Proof.
  intros Htext Hz Hlen.
  split; [|split; [reflexivity|]].
  - unfold kvprintf. change (str "%s" ++ [0]) with (chr "%" :: chr "s" :: [0]).
    rewrite kvloop_percent_step. cbn [length]. rewrite reswitch_s.
    rewrite (conv_s_plain func dstate_init _ _ _ (Z.of_nat (length text)));
      [| reflexivity | lia |].
    + cbn [bind d_fmt d_ap d_stop d_stored d_k]. rewrite kvloop_terminator.
      rewrite Nat2Z.id, firstn_app_exact. reflexivity.
    + cbn [dot dstate_init negb]. rewrite strlen_text by assumption. cbn [bind].
      rewrite s32_small by (unfold INT_MIN; lia). reflexivity.
  - unfold kvprintf. change (str "%s" ++ [0]) with (chr "%" :: chr "s" :: [0]).
    rewrite kvloop_percent_step. cbn [length]. rewrite reswitch_s.
    unfold conv_s. cbn [va_str bind dot dstate_init negb].
    rewrite strlen_unterminated by exact Htext. reflexivity.
Qed.

Lemma kvprintf_s_witness :
  kvprintf keep (Some (str "%s" ++ [0])) [] 10 [VStr (Some (str "abc" ++ [0; 120]))] =
  Done ([], mkK (str "abc") 3).
Proof.
  assert (H : Forall (fun c => uchar c <> 0) (str "abc"))
    by (repeat constructor; discriminate).
  exact (proj1 (kvprintf_s keep [] 10 (str "abc") 0 [120] H eq_refl
                  ltac:(unfold INT_MAX; simpl; lia))).
Defined.

(** X19. With a precision, [%.*s] prints at most that many characters and
    reads no further: an array of [n] characters needs no terminator for
    the precision [n]; a string that ends before the precision is printed
    up to its terminator; and a precision of zero or less prints nothing
    and reads nothing. *)
Theorem kvprintf_s_precision {A : Type} (func : Z -> A -> A) (arg : A) (radix : Z)
    (n : Z) (text rest : list Z) :
  Forall (fun c => uchar c <> 0) text ->
  INT_MIN <= n <= INT_MAX ->
  let call p := kvprintf func (Some (str "%.*s" ++ [0])) arg radix
                  [VInt n; VStr (Some p)] in
  (n = Z.of_nat (length text) ->
     call (text ++ rest) = Done ([], PCHARS func (map schar text) (mkK arg 0))) /\
  (Z.of_nat (length text) < n -> forall z tail, uchar z = 0 ->
     call (text ++ z :: tail) = Done ([], PCHARS func (map schar text) (mkK arg 0))) /\
  (n <= 0 -> call rest = Done ([], mkK arg 0)).
Proof.
  intros Htext Hn call.
  assert (Hstep : forall p m, 0 <= m <= INT_MAX ->
            strnlen p 0 n = Done m ->
            call p = Done ([], PCHARS func (map schar (firstn (Z.to_nat m) p))
                                 (mkK arg 0))).
  { intros p m Hm Hcount. unfold call, kvprintf.
    change (str "%.*s" ++ [0]) with (chr "%" :: chr "." :: chr "*" :: chr "s" :: [0]).
    rewrite kvloop_percent_step. cbn [length].
    rewrite reswitch_dot, reswitch_star. cbn [dot set_dot negb].
    rewrite reswitch_s.
    rewrite (conv_s_plain func _ _ _ _ m); [| reflexivity | exact Hm |].
    - cbn [bind d_fmt d_ap d_stop d_stored d_k]. rewrite kvloop_terminator. reflexivity.
    - cbn [dot set_dwidth set_dot negb dwidth]. rewrite s32_small by exact Hn.
      exact Hcount. }
  unfold INT_MIN, INT_MAX in *. split; [|split].
  - intros Heq. rewrite (Hstep _ n) by (try apply strnlen_bound; try assumption; lia).
    rewrite Heq, Nat2Z.id, firstn_app_exact. reflexivity.
  - intros Hlt z tail Hz.
    rewrite (Hstep _ (Z.of_nat (length text))).
    + rewrite Nat2Z.id, firstn_app_exact. reflexivity.
    + lia.
    + rewrite strnlen_stop by (try assumption; lia). reflexivity.
  - intros Hle. rewrite (Hstep _ 0) by (try apply strnlen_done; lia). reflexivity.
Qed.

Lemma kvprintf_s_precision_witness :
  kvprintf keep (Some (str "%.*s" ++ [0])) [] 10 [VInt 3; VStr (Some (str "abc"))] =
  Done ([], mkK (str "abc") 3).
Proof.
  assert (H : Forall (fun c => uchar c <> 0) (str "abc"))
    by (repeat constructor; discriminate).
  pose proof (app_nil_r (str "abc")) as Hnil.
  destruct (kvprintf_s_precision keep [] 10 3 (str "abc") [] H
              ltac:(unfold INT_MIN, INT_MAX; lia)) as (Hexact & _).
  exact (Hexact eq_refl).
Defined.

(** ** A width taken from the arguments *)

(** X20. A negative width taken by [*] does not set left justification,
    it toggles it: [%*d] with the width [-w] is [%-*d] with the width [w],
    and [%-*d] with the width [-w] is the right-justified [%*d] with the
    width [w]. *)
Theorem kvprintf_star_width {A : Type} (func : Z -> A -> A) (arg : A) (radix : Z)
    (w v : Z) :
  0 < w <= INT_MAX ->
  let rjust := kvprintf func (Some (str "%*d" ++ [0])) arg radix [VInt w; VInt v] in
  let ljust := kvprintf func (Some (str "%-*d" ++ [0])) arg radix [VInt w; VInt v] in
  kvprintf func (Some (str "%*d" ++ [0])) arg radix [VInt (- w); VInt v] = ljust /\
  kvprintf func (Some (str "%-*d" ++ [0])) arg radix [VInt (- w); VInt v] = rjust /\
  (exists text, rjust = Done ([], PCHARS func text (mkK arg 0))) /\
  (exists text, ljust = Done ([], PCHARS func text (mkK arg 0))).
Proof.
  intros Hw rjust ljust. unfold INT_MAX in Hw.
  assert (Hpos : s32 w = w) by (apply s32_small; unfold INT_MIN, INT_MAX; lia).
  assert (Hneg : s32 (- w) = - w) by (apply s32_small; unfold INT_MIN, INT_MAX; lia).
  assert (Hright : rjust =
            Done ([], PCHARS func
                        (number_text (set_sign true (set_width w dstate_init)) (u32 v) 10)
                        (mkK arg 0))).
  { unfold rjust, kvprintf.
    change (str "%*d" ++ [0]) with (chr "%" :: chr "*" :: chr "d" :: [0]).
    rewrite kvloop_percent_step. cbn [length].
    rewrite reswitch_star. cbn [dot dstate_init negb]. rewrite Hpos.
    destruct (Z.ltb_spec w 0); [lia|].
    rewrite reswitch_d by (left; reflexivity).
    rewrite handle_sign_int by reflexivity.
    cbn [bind d_fmt d_ap d_stop d_stored d_k]. rewrite kvloop_terminator. reflexivity. }
  assert (Hleft : ljust =
            Done ([], PCHARS func
                        (number_text
                           (set_sign true (set_width w (set_ladjust true dstate_init)))
                           (u32 v) 10)
                        (mkK arg 0))).
  { unfold ljust, kvprintf.
    change (str "%-*d" ++ [0]) with (chr "%" :: chr "-" :: chr "*" :: chr "d" :: [0]).
    rewrite kvloop_percent_step. cbn [length].
    rewrite reswitch_minus, reswitch_star. cbn [dot dstate_init set_ladjust negb].
    rewrite Hpos. destruct (Z.ltb_spec w 0); [lia|].
    rewrite reswitch_d by (left; reflexivity).
    rewrite handle_sign_int by reflexivity.
    cbn [bind d_fmt d_ap d_stop d_stored d_k]. rewrite kvloop_terminator. reflexivity. }
  split; [|split; [|split; [eexists; exact Hright | eexists; exact Hleft]]].
  - rewrite Hleft. unfold kvprintf.
    change (str "%*d" ++ [0]) with (chr "%" :: chr "*" :: chr "d" :: [0]).
    rewrite kvloop_percent_step. cbn [length].
    rewrite reswitch_star. cbn [dot dstate_init negb]. rewrite Hneg.
    destruct (Z.ltb_spec (- w) 0); [|lia].
    replace (- - w) with w by lia. rewrite Hpos.
    rewrite reswitch_d by (left; reflexivity).
    rewrite handle_sign_int by reflexivity.
    cbn [bind d_fmt d_ap d_stop d_stored d_k]. rewrite kvloop_terminator. reflexivity.
  - rewrite Hright. unfold kvprintf.
    change (str "%-*d" ++ [0]) with (chr "%" :: chr "-" :: chr "*" :: chr "d" :: [0]).
    rewrite kvloop_percent_step. cbn [length].
    rewrite reswitch_minus, reswitch_star. cbn [dot dstate_init set_ladjust negb].
    rewrite Hneg. destruct (Z.ltb_spec (- w) 0); [|lia].
    replace (- - w) with w by lia. rewrite Hpos.
    rewrite reswitch_d by (left; reflexivity).
    rewrite handle_sign_int by reflexivity.
    cbn [bind d_fmt d_ap d_stop d_stored d_k]. rewrite kvloop_terminator. reflexivity.
Qed.

Lemma kvprintf_star_width_witness :
  kvprintf keep (Some (str "%-*d" ++ [0])) [] 10 [VInt (-4); VInt 7] =
  Done ([], mkK (str "   7") 4).
Proof.
  destruct (kvprintf_star_width keep [] 10 4 7 ltac:(unfold INT_MAX; lia))
    as (_ & H & _).
  refine (eq_trans H _). reflexivity.
Defined.

(** ** The alternate form with zero padding *)

Lemma number_text_sharp_zero_pad (d : dstate) (num : Z) :
  sign d = false -> ladjust d = false -> padc d = chr "0" -> sharpflag d = true ->
  let digits := rev (ksprintn num 16 (upper d)) in
  let tmp := if num =? 0 then 0 else 2 in
  tmp + Z.of_nat (length digits) <= width d <= INT_MAX ->
  number_text d num 16 =
    (if num =? 0 then [] else [chr "0"; chr "x"])
    ++ repeat (chr "0") (Z.to_nat (width d - tmp - Z.of_nat (length digits)))
    ++ digits.
Proof.
  intros Hsign Hladj Hpadc Hsharp digits tmp Hw.
  unfold number_text. rewrite Hsign, Hladj, Hpadc, Hsharp. cbn [andb negb].
  change (chr "0" =? chr "0") with true. change (16 =? 8) with false.
  change (16 =? 16) with true. cbv iota.
  subst digits. rewrite length_rev in *. rewrite cstring_rev_ksprintn.
  pose proof (ksprintn_length num 16 (upper d)) as Hn.
  set (n := Z.of_nat (length (ksprintn num 16 (upper d)))) in *.
  replace ((if negb (num =? 0) then 2 else 0) + 0) with tmp
    by (subst tmp; destruct (num =? 0); reflexivity).
  assert (Hs : 0 <= tmp <= 2) by (subst tmp; destruct (num =? 0); lia).
  unfold INT_MAX in Hw.
  rewrite (s32_small (width d - tmp)) by (unfold INT_MIN, INT_MAX; lia).
  unfold imax. destruct (Z.gtb_spec (width d - tmp) n).
  - replace (width d - (tmp + (width d - tmp))) with 0 by lia.
    change (s32 0) with 0. cbn [Z.to_nat repeat app].
    rewrite s32_small by (unfold INT_MIN, INT_MAX; lia).
    destruct (num =? 0); cbn [negb app]; rewrite app_nil_r; reflexivity.
  - assert (Heq : width d - tmp = n) by lia.
    replace (width d - (tmp + n)) with 0 by lia.
    change (s32 0) with 0. cbn [Z.to_nat repeat app].
    rewrite s32_small by (unfold INT_MIN, INT_MAX; lia).
    destruct (num =? 0); cbn [negb app]; rewrite app_nil_r; reflexivity.
Qed.

(** X21. The quirk the source warns of: with [#], the zero flag and a
    width, a hexadecimal conversion fills the width in both cases, but a
    number other than zero gets "0x" and [width - 2] digits, while zero gets
    no "0x" and [width] zeroes. *)
Theorem kvprintf_sharp_zero_pad {A : Type} (func : Z -> A -> A) (arg : A) (radix : Z)
    (w v : Z) :
  let num := u32 v in
  let digits := rev (ksprintn num 16 false) in
  let n := Z.of_nat (length digits) in
  2 + n <= w <= INT_MAX ->
  let text := if num =? 0 then repeat (chr "0") (Z.to_nat w)
              else str "0x" ++ repeat (chr "0") (Z.to_nat (w - 2 - n)) ++ digits in
  kvprintf func (Some (str "%#0*x" ++ [0])) arg radix [VInt w; VInt v] =
    Done ([], PCHARS func text (mkK arg 0)) /\
  Z.of_nat (length text) = w.
Proof.
  intros num digits n Hw text. unfold INT_MAX in Hw.
  pose proof (ksprintn_length num 16 false) as Hn.
  assert (Hnn : n = Z.of_nat (length (ksprintn num 16 false)))
    by (unfold n, digits; rewrite length_rev; reflexivity).
  assert (Hpos : s32 w = w) by (apply s32_small; unfold INT_MIN, INT_MAX; lia).
  split.
  - unfold kvprintf.
    change (str "%#0*x" ++ [0])
      with (chr "%" :: chr "#" :: chr "0" :: chr "*" :: chr "x" :: [0]).
    rewrite kvloop_percent_step. cbn [length].
    rewrite reswitch_sharp, reswitch_zero by reflexivity.
    rewrite reswitch_star. cbn [dot set_padc set_sharpflag dstate_init negb].
    rewrite Hpos. destruct (Z.ltb_spec w 0); [lia|].
    rewrite reswitch_x, handle_nosign_int by reflexivity.
    cbn [bind d_fmt d_ap d_stop d_stored d_k]. rewrite kvloop_terminator.
    rewrite number_text_sharp_zero_pad; try reflexivity.
    + cbn [width set_sign set_width set_padc set_sharpflag dstate_init upper].
      fold num. fold digits. fold n. unfold text.
      destruct (Z.eqb_spec num 0) as [Hz|Hnz]; [|reflexivity].
      cbn [app]. rewrite Z.sub_0_r.
      assert (Hd : digits = [chr "0"]) by (unfold digits; rewrite Hz; reflexivity).
      assert (Hn1 : n = 1) by (unfold n; rewrite Hd; reflexivity).
      rewrite Hd, Hn1.
      replace (Z.to_nat w) with (S (Z.to_nat (w - 1))) by lia.
      cbn [repeat]. rewrite repeat_cons. reflexivity.
    + cbn [width set_sign set_width set_padc set_sharpflag dstate_init upper].
      fold num. fold digits. fold n. unfold INT_MAX. destruct (num =? 0); lia.
  - unfold text. destruct (num =? 0).
    + rewrite repeat_length. lia.
    + rewrite !length_app, repeat_length. fold n. cbn [length str]. lia.
Qed.

Lemma kvprintf_sharp_zero_pad_witness :
  kvprintf keep (Some (str "%#0*x" ++ [0])) [] 10 [VInt 6; VInt 0] =
    Done ([], mkK (str "000000") 6) /\
  kvprintf keep (Some (str "%#0*x" ++ [0])) [] 10 [VInt 6; VInt 255] =
    Done ([], mkK (str "0x00ff") 6).
Proof.
  split.
  - exact (proj1 (kvprintf_sharp_zero_pad keep [] 10 6 0
                    ltac:(unfold INT_MAX; simpl; lia))).
  - exact (proj1 (kvprintf_sharp_zero_pad keep [] 10 6 255
                    ltac:(unfold INT_MAX; simpl; lia))).
Defined.

(** ** The count so far *)

(** X22. [%n] prints nothing and stores, through its pointer argument, the
    number of characters printed before it. *)
Theorem kvprintf_n {A : Type} (func : Z -> A -> A) (arg : A) (radix : Z)
    (lit lit' : list Z) (z : Z) (tail : list Z) (loc : Z) (ap : va_list) :
  Forall (fun x => uchar x <> 0 /\ uchar x <> chr "%") lit ->
  Forall (fun x => uchar x <> 0 /\ uchar x <> chr "%") lit' ->
  uchar z = 0 ->
  Z.of_nat (length lit) <= INT_MAX ->
  kvprintf func (Some (lit ++ str "%n" ++ lit' ++ z :: tail)) arg radix
    (VRef loc :: ap) =
  Done ([(loc, Z.of_nat (length lit))],
        PCHARS func (map uchar lit ++ map uchar lit') (mkK arg 0)).
Proof.
  intros Hlit Hlit' Hz Hlen. unfold kvprintf.
  change (str "%n" ++ lit' ++ z :: tail) with (chr "%" :: chr "n" :: lit' ++ z :: tail).
  replace (length (lit ++ chr "%" :: chr "n" :: lit' ++ z :: tail))
    with (S (length lit + S (length lit' + S (length tail))))
    by (rewrite !length_app; cbn [length]; rewrite length_app; cbn [length]; lia).
  rewrite kvloop_S, copy_literal_text by exact Hlit.
  rewrite copy_literal_percent_here. cbn [length tl].
  rewrite reswitch_n. cbn [bind d_fmt d_ap d_stop d_stored d_k].
  rewrite kvloop_literal by assumption.
  rewrite PCHARS_app. unfold count_stored. cbn [jflag lflag zflag hflag cflag dstate_init].
  rewrite (retval_PCHARS func _ _ 0) by reflexivity.
  rewrite length_map, s32_small by (unfold INT_MIN; lia). reflexivity.
Qed.

Lemma kvprintf_n_witness :
  kvprintf keep (Some (str "abc%nde" ++ [0])) [] 10 [VRef 64] =
  Done ([(64, 3)], mkK (str "abcde") 5).
Proof.
  assert (H1 : Forall (fun x => uchar x <> 0 /\ uchar x <> chr "%") (str "abc"))
    by (repeat constructor; discriminate).
  assert (H2 : Forall (fun x => uchar x <> 0 /\ uchar x <> chr "%") (str "de"))
    by (repeat constructor; discriminate).
  exact (kvprintf_n keep [] 10 (str "abc") (str "de") 0 [] 64 [] H1 H2 eq_refl
           ltac:(unfold INT_MAX; simpl; lia)).
Defined.

(** ** The hexdump *)

Section Hexdump.

Context {A : Type}.
Variable func : Z -> A -> A.

Lemma hexdump_S (cnt : nat) (b : Z) (up : list Z) (p : option (list Z)) (k : kstate A) :
  hexdump func (S cnt) (Some (b :: up)) p k =
  let k := PCHAR func (hex2ascii (Z.shiftr (uchar b) 4)) k in
  let k := PCHAR func (hex2ascii (Z.land (uchar b) 15)) k in
  match cnt with
  | O => hexdump func cnt (Some up) p k
  | S _ =>
      match p with
      | Some sep =>
          bind (strlen sep)
            (fun n => hexdump func cnt (Some up) p
                        (PCHARS func (map schar (firstn (Z.to_nat n) sep)) k))
      | None => Undefined
      end
  end.
Proof.
  reflexivity.
Qed.

Lemma hexdump_text_spec (sep : list Z) (z : Z) (tail : list Z) :
  Forall (fun c => uchar c <> 0) sep -> uchar z = 0 ->
  forall bytes rest k,
    hexdump func (length bytes) (Some (bytes ++ rest)) (Some (sep ++ z :: tail)) k =
    Done (PCHARS func (hexdump_text bytes (map schar sep)) k).
Proof.
  intros Hsep Hz. induction bytes as [|b bytes IH]; intros rest k; [reflexivity|].
  cbn [length app]. rewrite hexdump_S. cbv zeta.
  pose proof (Z.mod_pos_bound (uchar b) 16 ltac:(lia)) as Hm.
  rewrite Z.shiftr_div_pow2 by lia. change (2 ^ 4) with 16.
  change 15 with (Z.ones 4). rewrite Z.land_ones by lia. change (2 ^ 4) with 16.
  destruct bytes as [|b' bytes].
  - reflexivity.
  - cbn [length]. rewrite strlen_text by assumption. cbn [bind].
    rewrite Nat2Z.id, firstn_app_exact.
    change (S (length bytes)) with (length (b' :: bytes)). rewrite IH.
    cbn [hexdump_text PCHARS]. rewrite PCHARS_app. reflexivity.
Qed.

Lemma hexdump_short (sep : list Z) (z : Z) (tail : list Z) :
  Forall (fun c => uchar c <> 0) sep -> uchar z = 0 ->
  forall bytes cnt k,
    (length bytes < cnt)%nat ->
    hexdump func cnt (Some bytes) (Some (sep ++ z :: tail)) k = Undefined.
Proof.
  intros Hsep Hz. induction bytes as [|b bytes IH]; intros cnt k Hcnt.
  - destruct cnt; [simpl in Hcnt; lia | reflexivity].
  - destruct cnt as [|cnt]; [simpl in Hcnt; lia|]. cbn [length] in Hcnt.
    rewrite hexdump_S. cbv zeta.
    destruct cnt as [|cnt]; [lia|].
    rewrite strlen_text by assumption. cbn [bind]. apply IH. lia.
Qed.

End Hexdump.

(** X23. [%D] prints two lower-case hexadecimal digits for each byte and
    the separator string between one byte and the next, never behind the
    last; the width is the number of bytes, 16 when none is given; and an
    array with fewer bytes than the width is read past its end. *)
Theorem kvprintf_hexdump {A : Type} (func : Z -> A -> A) (arg : A) (radix : Z)
    (bytes rest sep : list Z) (z : Z) (tail : list Z) :
  Forall (fun c => uchar c <> 0) sep -> uchar z = 0 ->
  let n := Z.of_nat (length bytes) in
  let septext := VStr (Some (sep ++ z :: tail)) in
  let dump := Done ([], PCHARS func (hexdump_text bytes (map schar sep)) (mkK arg 0)) in
  (0 < n <= INT_MAX ->
     kvprintf func (Some (str "%*D" ++ [0])) arg radix
       [VInt n; VStr (Some (bytes ++ rest)); septext] = dump) /\
  (n = 16 ->
     kvprintf func (Some (str "%D" ++ [0])) arg radix
       [VStr (Some (bytes ++ rest)); septext] = dump) /\
  (forall w, n < w <= INT_MAX ->
     kvprintf func (Some (str "%*D" ++ [0])) arg radix
       [VInt w; VStr (Some bytes); septext] = Undefined).
Proof.
  intros Hsep Hz n septext dump. unfold INT_MAX.
  split; [|split].
  - intros Hn. unfold kvprintf.
    change (str "%*D" ++ [0]) with (chr "%" :: chr "*" :: chr "D" :: [0]).
    rewrite kvloop_percent_step. cbn [length].
    rewrite reswitch_star. cbn [dot dstate_init negb].
    rewrite s32_small by (unfold INT_MIN, INT_MAX; lia).
    destruct (Z.ltb_spec n 0); [lia|].
    rewrite reswitch_D. unfold conv_D, septext. cbn [va_str bind width set_width].
    destruct (Z.eqb_spec n 0); [lia|].
    rewrite u32_small by lia. unfold n at 1. rewrite Nat2Z.id.
    rewrite hexdump_text_spec by assumption.
    cbn [bind d_fmt d_ap d_stop d_stored d_k]. rewrite kvloop_terminator. reflexivity.
  - intros Hn. unfold kvprintf.
    change (str "%D" ++ [0]) with (chr "%" :: chr "D" :: [0]).
    rewrite kvloop_percent_step. cbn [length].
    rewrite reswitch_D. unfold conv_D, septext.
    cbn [va_str bind width dstate_init Z.eqb].
    change (Z.to_nat (u32 16)) with 16%nat.
    replace 16%nat with (length bytes) by lia.
    rewrite hexdump_text_spec by assumption.
    cbn [bind d_fmt d_ap d_stop d_stored d_k]. rewrite kvloop_terminator. reflexivity.
  - intros w Hw. unfold kvprintf.
    change (str "%*D" ++ [0]) with (chr "%" :: chr "*" :: chr "D" :: [0]).
    rewrite kvloop_percent_step. cbn [length].
    rewrite reswitch_star. cbn [dot dstate_init negb].
    rewrite s32_small by (unfold INT_MIN, INT_MAX; lia).
    destruct (Z.ltb_spec w 0); [lia|].
    rewrite reswitch_D. unfold conv_D, septext. cbn [va_str bind width set_width].
    destruct (Z.eqb_spec w 0); [lia|].
    rewrite u32_small by lia.
    rewrite hexdump_short by (try assumption; lia). reflexivity.
Qed.

Lemma kvprintf_hexdump_witness :
  kvprintf keep (Some (str "%*D" ++ [0])) [] 10
    [VInt 3; VStr (Some [222; 173; 190; 239]); VStr (Some (str ":" ++ [0]))] =
  Done ([], mkK (str "de:ad:be") 8).
Proof.
  assert (H : Forall (fun c => uchar c <> 0) (str ":"))
    by (repeat constructor; discriminate).
  destruct (kvprintf_hexdump keep [] 10 [222; 173; 190] [239] (str ":") 0 [] H eq_refl)
    as (Hdump & _).
  exact (Hdump ltac:(unfold INT_MAX; simpl; lia)).
Defined.

(** ** Unsigned conversions and pointers *)

Section Unsigned.

Context {A : Type}.
Variable func : Z -> A -> A.

Lemma reswitch_o (fuel : nat) (radix : Z) (percent fmt : list Z) (d : dstate)
    (ap : va_list) (stored : list (Z * Z)) (k : kstate A) :
  reswitch func (S fuel) radix percent (chr "o" :: fmt) d ap stored k =
  handle_nosign func d false 8 fmt ap stored k.
Proof.
  reflexivity.
Qed.

Lemma reswitch_X (fuel : nat) (radix : Z) (percent fmt : list Z) (d : dstate)
    (ap : va_list) (stored : list (Z * Z)) (k : kstate A) :
  reswitch func (S fuel) radix percent (chr "X" :: fmt) d ap stored k =
  handle_nosign func (set_upper true d) false 16 fmt ap stored k.
Proof.
  reflexivity.
Qed.

Lemma reswitch_p (fuel : nat) (radix : Z) (percent fmt : list Z) (d : dstate)
    (a : Z) (ap : va_list) (stored : list (Z * Z)) (k : kstate A) :
  reswitch func (S fuel) radix percent (chr "p" :: fmt) d (VPtr a :: ap) stored k =
  Done (mkDir fmt ap false stored
          (PCHARS func
             (number_text (set_sign false (set_sharpflag (width d =? 0) d)) (u32 a) 16)
             k)).
Proof.
  cbn [reswitch]. change (classify (uchar (chr "p"))) with Tp. cbv iota zeta.
  cbn [va_ptr bind]. rewrite number_text_spec. reflexivity.
Qed.

End Unsigned.

(** A conversion with no flag but possibly a width: blanks up to the
    width, then the digits. *)
Lemma number_text_width (d : dstate) (num base : Z) :
  sign d = false -> sharpflag d = false -> ladjust d = false ->
  padc d = chr " " -> dwidth d = 0 -> 0 <= width d <= INT_MAX ->
  let digits := rev (ksprintn num base (upper d)) in
  number_text d num base =
  repeat (chr " ") (Z.to_nat (width d - Z.of_nat (length digits))) ++ digits.
Proof.
  intros Hsign Hsharp Hladj Hpadc Hdw Hw digits.
  unfold number_text. rewrite Hsign, Hsharp, Hladj, Hpadc, Hdw. cbn [andb negb].
  change (chr " " =? chr "0") with false. cbv iota.
  subst digits. rewrite length_rev. rewrite cstring_rev_ksprintn.
  pose proof (ksprintn_length num base (upper d)) as Hn.
  set (n := Z.of_nat (length (ksprintn num base (upper d)))) in *.
  unfold INT_MAX in Hw. unfold imax. destruct (Z.gtb_spec 0 n); [lia|].
  cbn [Z.add].
  rewrite !s32_small by (unfold INT_MIN, INT_MAX; lia).
  rewrite (repeat_nonpos (chr "0")) by lia.
  cbn [app]. rewrite app_nil_r. reflexivity.
Qed.

(** X24. [%u], [%o], [%x] and [%X] print the argument taken modulo 2^32
    in base 10, 8, 16 and 16: read back in that base the text gives that
    number, so a negative [int] shows as its two's complement; [%X] is
    [%x] with every letter in upper case. *)
Theorem kvprintf_unsigned {A : Type} (func : Z -> A -> A) (arg : A) (radix : Z)
    (conv base v : Z) (up : bool) :
  (conv = chr "u" /\ base = 10 /\ up = false) \/
  (conv = chr "o" /\ base = 8 /\ up = false) \/
  (conv = chr "x" /\ base = 16 /\ up = false) \/
  (conv = chr "X" /\ base = 16 /\ up = true) ->
  let text := rev (ksprintn (u32 v) base up) in
  kvprintf func (Some [chr "%"; conv; 0]) arg radix [VInt v] =
    Done ([], PCHARS func text (mkK arg 0)) /\
  text_value base text = u32 v /\
  (up = true -> text = map toupper (rev (ksprintn (u32 v) base false))).
Proof.
  intros Hconv text.
  assert (Hrun : kvprintf func (Some [chr "%"; conv; 0]) arg radix [VInt v] =
                 Done ([], PCHARS func text (mkK arg 0))).
  { unfold kvprintf. rewrite kvloop_percent_step. cbn [length].
    destruct Hconv as [(-> & -> & ->) | [(-> & -> & ->) | [(-> & -> & ->) | (-> & -> & ->)]]].
    - rewrite reswitch_u, handle_nosign_int by reflexivity.
      cbn [bind d_fmt d_ap d_stop d_stored d_k].
      rewrite kvloop_terminator, number_text_plain. reflexivity.
    - rewrite reswitch_o, handle_nosign_int by reflexivity.
      cbn [bind d_fmt d_ap d_stop d_stored d_k].
      rewrite kvloop_terminator, number_text_plain. reflexivity.
    - rewrite reswitch_x, handle_nosign_int by reflexivity.
      cbn [bind d_fmt d_ap d_stop d_stored d_k].
      rewrite kvloop_terminator, number_text_plain. reflexivity.
    - rewrite reswitch_X, handle_nosign_int by reflexivity.
      cbn [bind d_fmt d_ap d_stop d_stored d_k].
      rewrite kvloop_terminator.
      rewrite number_text_width; try reflexivity.
      + cbn [width set_sign set_upper dstate_init upper].
        rewrite repeat_nonpos by lia. reflexivity.
      + cbn [width set_sign set_upper dstate_init]. unfold INT_MAX. lia. }
  split; [exact Hrun|]. split.
  - apply ksprintn_digits_value; [apply u32_range|].
    destruct Hconv as [(_ & -> & _) | [(_ & -> & _) | [(_ & -> & _) | (_ & -> & _)]]];
      auto.
  - intros ->. unfold text.
    assert (Hloop : forall digit next cells num,
              ksprintn_loop cells digit next true num =
              map toupper (ksprintn_loop cells digit next false num)).
    { intros digit next. induction cells as [|cells IH]; intros num; [reflexivity|].
      rewrite !ksprintn_loop_S. cbn [map]. f_equal.
      destruct (next num =? 0); [reflexivity | apply IH]. }
    rewrite map_rev. f_equal.
    destruct Hconv as [(_ & _ & H) | [(_ & _ & H) | [(_ & _ & H) | (_ & -> & _)]]];
      try discriminate H.
    unfold ksprintn. cbn [Z.eqb Pos.eqb]. apply Hloop.
Qed.

Lemma kvprintf_unsigned_witness :
  kvprintf keep (Some (str "%X" ++ [0])) [] 10 [VInt (-1)] =
  Done ([], mkK (str "FFFFFFFF") 8).
Proof.
  destruct (kvprintf_unsigned keep [] 10 (chr "X") 16 (-1) true) as (H & _).
  - right; right; right. repeat split.
  - exact H.
Defined.

(** X25. [%p] prints a pointer in hexadecimal behind "0x", and a NULL
    pointer as a plain "0"; when a width is given the "0x" is left out
    and the digits are right-justified in the width. *)
Theorem kvprintf_pointer {A : Type} (func : Z -> A -> A) (arg : A) (radix : Z)
    (a w : Z) :
  let digits := rev (ksprintn (u32 a) 16 false) in
  kvprintf func (Some (str "%p" ++ [0])) arg radix [VPtr a] =
    Done ([], PCHARS func ((if u32 a =? 0 then [] else str "0x") ++ digits)
                (mkK arg 0)) /\
  text_value 16 digits = u32 a /\
  (0 < w <= INT_MAX ->
   kvprintf func (Some (str "%*p" ++ [0])) arg radix [VInt w; VPtr a] =
     Done ([], PCHARS func
                 (repeat (chr " ") (Z.to_nat (w - Z.of_nat (length digits))) ++ digits)
                 (mkK arg 0))).
Proof.
  intros digits. split; [|split].
  - unfold kvprintf. change (str "%p" ++ [0]) with (chr "%" :: chr "p" :: [0]).
    rewrite kvloop_percent_step. cbn [length].
    rewrite reswitch_p. cbn [bind d_fmt d_ap d_stop d_stored d_k].
    rewrite kvloop_terminator. do 3 f_equal.
    unfold number_text.
    cbn [sign sharpflag ladjust padc width dwidth upper set_sign set_sharpflag
         dstate_init].
    change (0 =? 0) with true. cbn [andb negb].
    change (chr " " =? chr "0") with false. change (16 =? 8) with false.
    change (16 =? 16) with true. cbv iota.
    rewrite cstring_rev_ksprintn. fold digits.
    pose proof (ksprintn_length (u32 a) 16 false) as Hn.
    set (n := Z.of_nat (length (ksprintn (u32 a) 16 false))) in *.
    set (tmp := (if negb (u32 a =? 0) then 2 else 0) + 0).
    assert (Htmp : 0 <= tmp <= 2) by (unfold tmp; destruct (u32 a =? 0); cbn [negb]; lia).
    unfold imax. destruct (Z.gtb_spec 0 n); [lia|].
    rewrite !s32_small by (unfold INT_MIN, INT_MAX; lia).
    rewrite !repeat_nonpos by lia.
    destruct (u32 a =? 0); cbn [negb app]; rewrite app_nil_r; reflexivity.
  - apply ksprintn_digits_value; [apply u32_range | auto].
  - intros Hw. unfold INT_MAX in Hw. unfold kvprintf.
    change (str "%*p" ++ [0]) with (chr "%" :: chr "*" :: chr "p" :: [0]).
    rewrite kvloop_percent_step. cbn [length].
    rewrite reswitch_star. cbn [dot dstate_init negb].
    rewrite s32_small by (unfold INT_MIN, INT_MAX; lia).
    destruct (Z.ltb_spec w 0); [lia|].
    rewrite reswitch_p. cbn [bind d_fmt d_ap d_stop d_stored d_k].
    rewrite kvloop_terminator. do 3 f_equal.
    cbn [width set_width]. destruct (Z.eqb_spec w 0); [lia|].
    rewrite number_text_width; try reflexivity.
    cbn [width set_sign set_sharpflag set_width]. unfold INT_MAX. lia.
Qed.

Lemma kvprintf_pointer_witness :
  kvprintf keep (Some (str "%*p" ++ [0])) [] 10 [VInt 6; VPtr 48879] =
  Done ([], mkK (str "  beef") 6).
Proof.
  destruct (kvprintf_pointer keep [] 10 48879 6) as (_ & _ & H).
  exact (H ltac:(unfold INT_MAX; lia)).
Defined.

(** ** The width of a numeric conversion *)

(** X26. A numeric conversion is never cut short and always fills its
    width: the text from the label [number:] on is as long as the larger
    of the width and what the number needs, which is the sign, the "0" or
    "0x" of the alternate form, and the larger of the precision and the
    number of digits; with the zero flag (and no left justification) the
    precision is replaced by what the width leaves. *)
Theorem number_fills_width {A : Type} (func : Z -> A -> A) (d : dstate)
    (q : list Z) (num base : Z) (k : kstate A) :
  0 <= width d <= 1073741823 -> 0 <= dwidth d <= 1073741823 ->
  let neg := sign d && (s32 num <? 0) in
  let mag := if neg then u32 (- s32 num) else num in
  let n := Z.of_nat (length (ksprintn mag base (upper d))) in
  let deco :=
    (if sharpflag d && negb (mag =? 0)
     then (if base =? 8 then 1 else if base =? 16 then 2 else 0) else 0)
    + (if neg then 1 else 0) in
  let prec := if negb (ladjust d) && (padc d =? chr "0")
              then width d - deco else dwidth d in
  exists text,
    number func d false q num base k = Done (PCHARS func text k) /\
    Z.of_nat (length text) = Z.max (width d) (deco + Z.max prec n).
Proof.
  intros Hw Hdw neg mag n deco prec.
  exists (number_text d num base). split; [apply number_text_spec|].
  unfold number_text. fold neg. fold mag. fold deco.
  rewrite cstring_rev_ksprintn.
  pose proof (ksprintn_length mag base (upper d)) as Hn. fold n.
  assert (Hdeco : 0 <= deco <= 3).
  { unfold deco. destruct (sharpflag d && negb (mag =? 0)), (base =? 8), (base =? 16), neg;
      lia. }
  assert (Hprec : -3 <= prec <= 1073741823).
  { unfold prec. destruct (negb (ladjust d) && (padc d =? chr "0")); lia. }
  assert (Hnn : 1 <= n <= 32) by (unfold n; lia).
  assert (Himax : imax prec n = Z.max prec n).
  { unfold imax. destruct (Z.gtb_spec prec n); lia. }
  assert (Hprec' : (if negb (ladjust d) && (padc d =? chr "0")
                    then s32 (width d - deco) else dwidth d) = prec).
  { unfold prec. destruct (negb (ladjust d) && (padc d =? chr "0")); [|reflexivity].
    apply s32_small. unfold INT_MIN, INT_MAX. lia. }
  rewrite Hprec', Himax.
  rewrite !s32_small by (unfold INT_MIN, INT_MAX; lia).
  assert (Hde : deco =
            (if sharpflag d && negb (mag =? 0)
             then (if base =? 8 then 1 else if base =? 16 then 2 else 0) else 0)
            + (if neg then 1 else 0)) by reflexivity.
  assert (Hsign : Z.of_nat (length (if neg then [chr "-"] else [])) =
                  if neg then 1 else 0) by (destruct neg; reflexivity).
  assert (Halt : Z.of_nat (length (if sharpflag d && negb (mag =? 0)
                                   then if base =? 8 then [chr "0"]
                                        else if base =? 16 then [chr "0"; chr "x"]
                                        else []
                                   else [])) =
                 if sharpflag d && negb (mag =? 0)
                 then (if base =? 8 then 1 else if base =? 16 then 2 else 0) else 0).
  { destruct (sharpflag d && negb (mag =? 0)), (base =? 8), (base =? 16); reflexivity. }
  destruct (ladjust d); cbn [negb];
    rewrite !length_app, !repeat_length, length_rev; fold n;
    rewrite !Nat2Z.inj_add, Hsign, Halt; cbn [length Z.of_nat]; lia.
Qed.

Lemma number_fills_width_witness :
  exists text,
    number keep (set_sharpflag true (set_width 8 dstate_init)) false [] 255 16
      (mkK [] 0) = Done (PCHARS keep text (mkK [] 0)) /\
    Z.of_nat (length text) = 8.
Proof.
  destruct (number_fills_width keep (set_sharpflag true (set_width 8 dstate_init))
              [] 255 16 (mkK [] 0)) as (text & Hrun & Hlen);
    [cbn [width set_sharpflag set_width dstate_init]; lia
    | cbn [dwidth set_sharpflag set_width dstate_init]; lia |].
  exists text. split; [exact Hrun | exact Hlen].
Defined.

(** ** Length modifiers and the plus flag *)

Section Modifiers.

Context {A : Type}.
Variable func : Z -> A -> A.

Lemma reswitch_h (fuel : nat) (radix : Z) (percent fmt : list Z) (d : dstate)
    (ap : va_list) (stored : list (Z * Z)) (k : kstate A) :
  reswitch func (S fuel) radix percent (chr "h" :: fmt) d ap stored k =
  if hflag d
  then reswitch func fuel radix percent fmt (set_cflag true (set_hflag false d))
         ap stored k
  else reswitch func fuel radix percent fmt (set_hflag true d) ap stored k.
Proof.
  reflexivity.
Qed.

Lemma reswitch_long (fuel : nat) (radix : Z) (percent fmt : list Z) (d : dstate)
    (ap : va_list) (stored : list (Z * Z)) (k : kstate A) :
  reswitch func (S fuel) radix percent (chr "l" :: fmt) d ap stored k =
    reswitch func fuel radix percent fmt (set_lflag true d) ap stored k /\
  reswitch func (S fuel) radix percent (chr "j" :: fmt) d ap stored k =
    reswitch func fuel radix percent fmt (set_jflag true d) ap stored k /\
  reswitch func (S fuel) radix percent (chr "t" :: fmt) d ap stored k =
    reswitch func fuel radix percent fmt (set_tflag true d) ap stored k /\
  reswitch func (S fuel) radix percent (chr "z" :: fmt) d ap stored k =
    reswitch func fuel radix percent fmt (set_zflag true d) ap stored k.
Proof.
  repeat split; reflexivity.
Qed.

Lemma reswitch_plus (fuel : nat) (radix : Z) (percent fmt : list Z) (d : dstate)
    (ap : va_list) (stored : list (Z * Z)) (k : kstate A) :
  reswitch func (S fuel) radix percent (chr "+" :: fmt) d ap stored k =
  reswitch func fuel radix percent fmt (set_sign true d) ap stored k.
Proof.
  reflexivity.
Qed.

Lemma reswitch_y (fuel : nat) (radix : Z) (percent fmt : list Z) (d : dstate)
    (ap : va_list) (stored : list (Z * Z)) (k : kstate A) :
  reswitch func (S fuel) radix percent (chr "y" :: fmt) d ap stored k =
  handle_sign func (set_sign true d) 16 fmt ap stored k.
Proof.
  reflexivity.
Qed.

(** [handle_sign] on an [int], whatever the length modifiers. *)
Lemma handle_sign_arg (d : dstate) (base v : Z) (fmt : list Z) (ap : va_list)
    (stored : list (Z * Z)) (k : kstate A) :
  handle_sign func d base fmt (VInt v :: ap) stored k =
  Done (mkDir fmt ap false stored
          (PCHARS func
             (number_text d
                (if jflag d then u32 v else if tflag d then u32 v
                 else if lflag d then u32 v else if zflag d then u32 v
                 else if hflag d then u32 (s16 v)
                 else if cflag d then u32 (schar v) else u32 v) base) k)).
Proof.
  unfold handle_sign, arg_sign. cbn [va_int bind].
  rewrite number_text_spec. reflexivity.
Qed.

Lemma handle_nosign_arg (d : dstate) (base v : Z) (fmt : list Z) (ap : va_list)
    (stored : list (Z * Z)) (k : kstate A) :
  handle_nosign func d false base fmt (VInt v :: ap) stored k =
  Done (mkDir fmt ap false stored
          (PCHARS func
             (number_text (set_sign false d)
                (if jflag d then u32 v else if tflag d then u32 v
                 else if lflag d then u32 v else if zflag d then u32 v
                 else if hflag d then u16 v
                 else if cflag d then uchar v else u32 v) base) k)).
Proof.
  unfold handle_nosign, arg_nosign. cbn [va_int bind].
  rewrite number_text_spec. reflexivity.
Qed.

End Modifiers.

Lemma number_text_flags (d d' : dstate) (num base : Z) :
  padc d = padc d' -> width d = width d' -> dwidth d = dwidth d' ->
  ladjust d = ladjust d' -> sharpflag d = sharpflag d' -> sign d = sign d' ->
  upper d = upper d' ->
  number_text d num base = number_text d' num base.
Proof.
  intros H1 H2 H3 H4 H5 H6 H7. unfold number_text.
  rewrite H1, H2, H3, H4, H5, H6, H7. reflexivity.
Qed.

(** X27. The length modifiers: [hh] converts the argument to a [char] and
    [h] to a [short] before it is printed, signed for [%d] and unsigned for
    [%u], while [l], [j], [t] and [z] change nothing. *)
Theorem kvprintf_length_modifiers {A : Type} (func : Z -> A -> A) (arg : A)
    (radix v m : Z) :
  let call fmt x := kvprintf func (Some (fmt ++ [0])) arg radix [VInt x] in
  call (str "%hhd") v = call (str "%d") (schar v) /\
  call (str "%hd") v = call (str "%d") (s16 v) /\
  call (str "%hhu") v = call (str "%u") (uchar v) /\
  call (str "%hu") v = call (str "%u") (u16 v) /\
  (m = chr "l" \/ m = chr "j" \/ m = chr "t" \/ m = chr "z" ->
   kvprintf func (Some [chr "%"; m; chr "d"; 0]) arg radix [VInt v] = call (str "%d") v /\
   kvprintf func (Some [chr "%"; m; chr "u"; 0]) arg radix [VInt v] = call (str "%u") v).
Proof.
  intros call.
  assert (Hd : forall x, call (str "%d") x =
            Done ([], PCHARS func (number_text (set_sign true dstate_init) (u32 x) 10)
                        (mkK arg 0))).
  { intros x. unfold call, kvprintf.
    change (str "%d" ++ [0]) with (chr "%" :: chr "d" :: [0]).
    rewrite kvloop_percent_step. cbn [length].
    rewrite reswitch_d by (left; reflexivity).
    rewrite handle_sign_int by reflexivity.
    cbn [bind d_fmt d_ap d_stop d_stored d_k]. rewrite kvloop_terminator. reflexivity. }
  assert (Hu : forall x, call (str "%u") x =
            Done ([], PCHARS func (number_text (set_sign false dstate_init) (u32 x) 10)
                        (mkK arg 0))).
  { intros x. unfold call, kvprintf.
    change (str "%u" ++ [0]) with (chr "%" :: chr "u" :: [0]).
    rewrite kvloop_percent_step. cbn [length].
    rewrite reswitch_u, handle_nosign_int by reflexivity.
    cbn [bind d_fmt d_ap d_stop d_stored d_k]. rewrite kvloop_terminator. reflexivity. }
  assert (Hu8 : u32 (uchar v) = uchar v).
  { apply u32_small. unfold uchar.
    pose proof (Z.mod_pos_bound v 256 ltac:(lia)). lia. }
  assert (Hu16 : u32 (u16 v) = u16 v).
  { apply u32_small. unfold u16.
    pose proof (Z.mod_pos_bound v 65536 ltac:(lia)). lia. }
  split; [|split; [|split; [|split]]].
  - rewrite Hd. unfold call, kvprintf.
    change (str "%hhd" ++ [0]) with (chr "%" :: chr "h" :: chr "h" :: chr "d" :: [0]).
    rewrite kvloop_percent_step. cbn [length].
    rewrite !reswitch_h. cbn [hflag dstate_init set_hflag].
    rewrite reswitch_d by (left; reflexivity). rewrite handle_sign_arg.
    cbn [bind d_fmt d_ap d_stop d_stored d_k]. rewrite kvloop_terminator. reflexivity.
  - rewrite Hd. unfold call, kvprintf.
    change (str "%hd" ++ [0]) with (chr "%" :: chr "h" :: chr "d" :: [0]).
    rewrite kvloop_percent_step. cbn [length].
    rewrite !reswitch_h. cbn [hflag dstate_init set_hflag].
    rewrite reswitch_d by (left; reflexivity). rewrite handle_sign_arg.
    cbn [bind d_fmt d_ap d_stop d_stored d_k]. rewrite kvloop_terminator. reflexivity.
  - rewrite Hu, Hu8. unfold call, kvprintf.
    change (str "%hhu" ++ [0]) with (chr "%" :: chr "h" :: chr "h" :: chr "u" :: [0]).
    rewrite kvloop_percent_step. cbn [length].
    rewrite !reswitch_h. cbn [hflag dstate_init set_hflag].
    rewrite reswitch_u, handle_nosign_arg.
    cbn [bind d_fmt d_ap d_stop d_stored d_k]. rewrite kvloop_terminator. reflexivity.
  - rewrite Hu, Hu16. unfold call, kvprintf.
    change (str "%hu" ++ [0]) with (chr "%" :: chr "h" :: chr "u" :: [0]).
    rewrite kvloop_percent_step. cbn [length].
    rewrite !reswitch_h. cbn [hflag dstate_init set_hflag].
    rewrite reswitch_u, handle_nosign_arg.
    cbn [bind d_fmt d_ap d_stop d_stored d_k]. rewrite kvloop_terminator. reflexivity.
  - intros Hm. rewrite Hd, Hu. unfold kvprintf. split.
    + rewrite kvloop_percent_step. cbn [length].
      destruct Hm as [-> | [-> | [-> | ->]]].
      * rewrite (proj1 (reswitch_long func _ _ _ _ _ _ _ _)).
        rewrite reswitch_d by (left; reflexivity). rewrite handle_sign_arg.
        cbn [bind d_fmt d_ap d_stop d_stored d_k]. rewrite kvloop_terminator.
        reflexivity.
      * rewrite (proj1 (proj2 (reswitch_long func _ _ _ _ _ _ _ _))).
        rewrite reswitch_d by (left; reflexivity). rewrite handle_sign_arg.
        cbn [bind d_fmt d_ap d_stop d_stored d_k]. rewrite kvloop_terminator.
        reflexivity.
      * rewrite (proj1 (proj2 (proj2 (reswitch_long func _ _ _ _ _ _ _ _)))).
        rewrite reswitch_d by (left; reflexivity). rewrite handle_sign_arg.
        cbn [bind d_fmt d_ap d_stop d_stored d_k]. rewrite kvloop_terminator.
        reflexivity.
      * rewrite (proj2 (proj2 (proj2 (reswitch_long func _ _ _ _ _ _ _ _)))).
        rewrite reswitch_d by (left; reflexivity). rewrite handle_sign_arg.
        cbn [bind d_fmt d_ap d_stop d_stored d_k]. rewrite kvloop_terminator.
        reflexivity.
    + rewrite kvloop_percent_step. cbn [length].
      destruct Hm as [-> | [-> | [-> | ->]]].
      * rewrite (proj1 (reswitch_long func _ _ _ _ _ _ _ _)).
        rewrite reswitch_u, handle_nosign_arg.
        cbn [bind d_fmt d_ap d_stop d_stored d_k]. rewrite kvloop_terminator.
        reflexivity.
      * rewrite (proj1 (proj2 (reswitch_long func _ _ _ _ _ _ _ _))).
        rewrite reswitch_u, handle_nosign_arg.
        cbn [bind d_fmt d_ap d_stop d_stored d_k]. rewrite kvloop_terminator.
        reflexivity.
      * rewrite (proj1 (proj2 (proj2 (reswitch_long func _ _ _ _ _ _ _ _)))).
        rewrite reswitch_u, handle_nosign_arg.
        cbn [bind d_fmt d_ap d_stop d_stored d_k]. rewrite kvloop_terminator.
        reflexivity.
      * rewrite (proj2 (proj2 (proj2 (reswitch_long func _ _ _ _ _ _ _ _)))).
        rewrite reswitch_u, handle_nosign_arg.
        cbn [bind d_fmt d_ap d_stop d_stored d_k]. rewrite kvloop_terminator.
        reflexivity.
Qed.

Lemma kvprintf_length_modifiers_witness :
  kvprintf keep (Some [chr "%"; chr "l"; chr "d"; 0]) [] 10 [VInt (-5)] =
  Done ([], mkK (str "-5") 2).
Proof.
  destruct (kvprintf_length_modifiers keep [] 10 (-5) (chr "l")) as (_ & _ & _ & _ & H).
  destruct (H (or_introl eq_refl)) as [Hd _].
  refine (eq_trans Hd _). reflexivity.
Defined.

(** X28. The plus flag prints no plus sign: [%+d] prints what [%d]
    prints.  And [%y] is the signed hexadecimal conversion: a minus sign
    for a negative [int], then the hexadecimal digits of the magnitude. *)
Theorem kvprintf_plus_flag {A : Type} (func : Z -> A -> A) (arg : A) (radix v : Z) :
  INT_MIN <= v <= INT_MAX ->
  kvprintf func (Some (str "%+d" ++ [0])) arg radix [VInt v] =
    kvprintf func (Some (str "%d" ++ [0])) arg radix [VInt v] /\
  kvprintf func (Some (str "%y" ++ [0])) arg radix [VInt v] =
    Done ([], PCHARS func ((if v <? 0 then [chr "-"] else []) ++
                           rev (ksprintn (Z.abs v) 16 false)) (mkK arg 0)) /\
  text_value 16 (rev (ksprintn (Z.abs v) 16 false)) = Z.abs v.
Proof.
  unfold INT_MIN, INT_MAX. intros Hv. split; [|split].
  - unfold kvprintf.
    change (str "%+d" ++ [0]) with (chr "%" :: chr "+" :: chr "d" :: [0]).
    change (str "%d" ++ [0]) with (chr "%" :: chr "d" :: [0]).
    rewrite !kvloop_percent_step. cbn [length].
    rewrite reswitch_plus, !reswitch_d by (left; reflexivity).
    rewrite !handle_sign_int by reflexivity.
    cbn [bind d_fmt d_ap d_stop d_stored d_k]. rewrite !kvloop_terminator. reflexivity.
  - unfold kvprintf.
    change (str "%y" ++ [0]) with (chr "%" :: chr "y" :: [0]).
    rewrite kvloop_percent_step. cbn [length].
    rewrite reswitch_y, handle_sign_int by reflexivity.
    cbn [bind d_fmt d_ap d_stop d_stored d_k]. rewrite kvloop_terminator.
    do 3 f_equal. unfold number_text.
    cbn [sign sharpflag ladjust padc width dwidth upper set_sign dstate_init andb negb].
    change (chr " " =? chr "0") with false. cbv iota.
    rewrite !s32_u32. rewrite !(s32_small v) by (unfold INT_MIN, INT_MAX; lia).
    assert (Hmag : (if v <? 0 then u32 (- v) else u32 v) = Z.abs v).
    { destruct (Z.ltb_spec v 0); rewrite u32_small; lia. }
    rewrite Hmag.
    pose proof (ksprintn_length (Z.abs v) 16 false) as Hn.
    set (n := Z.of_nat (length (ksprintn (Z.abs v) 16 false))) in *.
    assert (Htmp : 0 <= 0 + (if v <? 0 then 1 else 0) <= 1) by (destruct (v <? 0); lia).
    unfold imax. destruct (Z.gtb_spec 0 n); [lia|].
    rewrite !s32_small by (unfold INT_MIN, INT_MAX; lia).
    rewrite !repeat_nonpos by lia.
    rewrite cstring_rev_ksprintn. cbn [app]. rewrite app_nil_r. reflexivity.
  - apply ksprintn_digits_value; [lia | auto].
Qed.

Lemma kvprintf_plus_flag_witness :
  kvprintf keep (Some (str "%+d" ++ [0])) [] 10 [VInt 5] = Done ([], mkK (str "5") 1) /\
  kvprintf keep (Some (str "%y" ++ [0])) [] 10 [VInt (-255)] =
    Done ([], mkK (str "-ff") 3).
Proof.
  destruct (kvprintf_plus_flag keep [] 10 5 ltac:(unfold INT_MIN, INT_MAX; lia))
    as (Hplus & _).
  destruct (kvprintf_plus_flag keep [] 10 (-255) ltac:(unfold INT_MIN, INT_MAX; lia))
    as (_ & Hy & _).
  split; [refine (eq_trans Hplus _); reflexivity | exact Hy].
Defined.

(** ** Characters *)

Section Characters.

Context {A : Type}.
Variable func : Z -> A -> A.

Lemma reswitch_c (fuel : nat) (radix : Z) (percent fmt : list Z) (d : dstate)
    (ap : va_list) (stored : list (Z * Z)) (k : kstate A) :
  reswitch func (S fuel) radix percent (chr "c" :: fmt) d ap stored k =
  bind (conv_c func d ap k) (fun x => let '(ap, k) := x in
                                      Done (mkDir fmt ap false stored k)).
Proof.
  reflexivity.
Qed.

End Characters.

(** X29. [%c] hands the callback its [int] argument as it is, a NUL
    included, and counts one character; with a width the character is
    padded to the width, with blanks in front, with zeroes in front under
    the zero flag, or with blanks behind when left-justified. *)
Theorem kvprintf_char {A : Type} (func : Z -> A -> A) (arg : A) (radix c w : Z) :
  INT_MIN <= c <= INT_MAX -> 0 < w <= INT_MAX ->
  let pad x := repeat x (Z.to_nat (w - 1)) in
  kvprintf func (Some (str "%c" ++ [0])) arg radix [VInt c] =
    Done ([], PCHARS func [c] (mkK arg 0)) /\
  kvprintf func (Some (str "%*c" ++ [0])) arg radix [VInt w; VInt c] =
    Done ([], PCHARS func (pad (chr " ") ++ [c]) (mkK arg 0)) /\
  kvprintf func (Some (str "%0*c" ++ [0])) arg radix [VInt w; VInt c] =
    Done ([], PCHARS func (pad (chr "0") ++ [c]) (mkK arg 0)) /\
  kvprintf func (Some (str "%-*c" ++ [0])) arg radix [VInt w; VInt c] =
    Done ([], PCHARS func (c :: pad (chr " ")) (mkK arg 0)).
Proof.
  intros Hc Hw pad. unfold INT_MAX in Hw.
  assert (Hsc : s32 c = c) by (apply s32_small; exact Hc).
  assert (Hsw : s32 w = w) by (apply s32_small; unfold INT_MIN, INT_MAX; lia).
  assert (Hw1 : s32 (w - 1) = w - 1) by (apply s32_small; unfold INT_MIN, INT_MAX; lia).
  assert (Hpad : forall x (k : kstate A),
            (if w - 1 >? 0 then PCHAR_n func (Z.to_nat (w - 1)) x k else k) =
            PCHARS func (pad x) k).
  { intros x k. unfold pad. destruct (Z.gtb_spec (w - 1) 0).
    - apply PCHAR_n_repeat.
    - replace (Z.to_nat (w - 1)) with O by lia. reflexivity. }
  split; [|split; [|split]].
  - unfold kvprintf. change (str "%c" ++ [0]) with (chr "%" :: chr "c" :: [0]).
    rewrite kvloop_percent_step. cbn [length]. rewrite reswitch_c.
    unfold conv_c. cbn [va_int bind width ladjust dstate_init negb andb].
    change (s32 (0 - 1) >? 0) with false. cbv iota.
    cbn [bind d_fmt d_ap d_stop d_stored d_k]. rewrite kvloop_terminator, Hsc.
    reflexivity.
  - unfold kvprintf.
    change (str "%*c" ++ [0]) with (chr "%" :: chr "*" :: chr "c" :: [0]).
    rewrite kvloop_percent_step. cbn [length].
    rewrite reswitch_star. cbn [dot dstate_init negb]. rewrite Hsw.
    destruct (Z.ltb_spec w 0); [lia|]. rewrite reswitch_c.
    unfold conv_c. cbn [va_int bind width ladjust padc set_width dstate_init negb andb].
    rewrite Hw1, Hpad, Hsc.
    cbn [bind d_fmt d_ap d_stop d_stored d_k]. rewrite kvloop_terminator.
    rewrite PCHARS_app. reflexivity.
  - unfold kvprintf.
    change (str "%0*c" ++ [0]) with (chr "%" :: chr "0" :: chr "*" :: chr "c" :: [0]).
    rewrite kvloop_percent_step. cbn [length].
    rewrite reswitch_zero by reflexivity.
    rewrite reswitch_star. cbn [dot set_padc dstate_init negb]. rewrite Hsw.
    destruct (Z.ltb_spec w 0); [lia|]. rewrite reswitch_c.
    unfold conv_c.
    cbn [va_int bind width ladjust padc set_width set_padc dstate_init negb andb].
    rewrite Hw1, Hpad, Hsc.
    cbn [bind d_fmt d_ap d_stop d_stored d_k]. rewrite kvloop_terminator.
    rewrite PCHARS_app. reflexivity.
  - unfold kvprintf.
    change (str "%-*c" ++ [0]) with (chr "%" :: chr "-" :: chr "*" :: chr "c" :: [0]).
    rewrite kvloop_percent_step. cbn [length].
    rewrite reswitch_minus, reswitch_star. cbn [dot set_ladjust dstate_init negb].
    rewrite Hsw. destruct (Z.ltb_spec w 0); [lia|]. rewrite reswitch_c.
    unfold conv_c.
    cbn [va_int bind width ladjust padc set_width set_ladjust dstate_init negb andb].
    rewrite Hw1, Hpad, Hsc.
    cbn [bind d_fmt d_ap d_stop d_stored d_k]. rewrite kvloop_terminator.
    reflexivity.
Qed.

Lemma kvprintf_char_witness :
  kvprintf keep (Some (str "%0*c" ++ [0])) [] 10 [VInt 3; VInt 65] =
  Done ([], mkK (str "00A") 3).
Proof.
  destruct (kvprintf_char keep [] 10 65 3 ltac:(unfold INT_MIN, INT_MAX; lia)
              ltac:(unfold INT_MAX; lia)) as (_ & _ & H & _).
  exact H.
Defined.

(** ** Any callback *)

(** X30. [kvprintf] always comes to an end and treats every callback
    alike: it hands it, one by one and in order, the characters of the text
    that [render] collects, and returns the length of that text as an
    [int] and the same [%n] writes; it is undefined exactly when rendering
    is. *)
Theorem kvprintf_any_callback {A : Type} (func : Z -> A -> A) (arg : A)
    (fmt : option (list Z)) (radix : Z) (ap : va_list) :
  match render fmt radix ap with
  | Done (out, ret, stored) =>
      kvprintf func fmt arg radix ap =
        Done (stored, mkK (fold_left (fun a c => func c a) out arg) ret) /\
      ret = s32 (Z.of_nat (length out))
  | Undefined => kvprintf func fmt arg radix ap = Undefined
  | OutOfFuel => False
  end.
Proof.
  pose proof (kvprintf_any_sink func fmt radix ap arg) as Hsim.
  pose proof (kvprintf_keep_count fmt radix ap) as Hcount.
  pose proof (kvprintf_ends keep fmt [] radix ap) as Hends.
  unfold render.
  destruct (kvprintf keep fmt [] radix ap) as [[stored k]| |];
    destruct (kvprintf func fmt arg radix ap) as [[stored' k']| |];
    cbn [agree] in Hsim; try contradiction; cbn [bind]; auto.
  destruct Hsim as [Hst [Hsink Hret]]. cbn [fst snd] in Hst, Hsink, Hret.
  subst stored'. specialize (Hcount _ _ eq_refl). split; [|exact Hcount].
  destruct k' as [s r]. cbn [sink retval] in Hsink, Hret. subst s r. reflexivity.
Qed.

(** ** The default radix, and the placeholder of an unsupported base *)




Section Radix.

Context {A : Type}.
Variable func : Z -> A -> A.





End Radix.



